(** * Zoom RTMS connection manager (zoom-rtms/index.js)

    A shallow embedding of the dual-channel (signaling + media) WebSocket
    lifecycle manager, with the properties of its specification stated
    and settled against it.

    The program is event driven and single threaded: every callback runs
    to completion on the event loop.  It is embedded as explicit state
    passing over a store that holds the session registry, the connection
    entities (shared mutable objects, referred to by reference), the
    sockets with their registered listeners, the pending timers, and the
    sequence of calls made on the WebSocket library. *)

From Stdlib Require Import ZArith Ascii String Bool Lia.
From stdpp Require Import base option list.

Set Warnings "-register-all".
Local Open Scope string_scope.
Local Open Scope Z_scope.

(** ** JavaScript values, as produced by [JSON.parse] *)

Inductive jsval : Type :=
| JUndefined
| JNull
| JBool (b : bool)
| JNum (n : Z)
| JStr (s : string)
| JArr (elems : list jsval)
| JObj (props : list (string * jsval)).

(** Errors thrown by the language and the libraries, with their class. *)
Inductive Exn : Type :=
| TypeError (message : string)
| SyntaxError (message : string)
| Error (message : string).

(** Own property [k] of an object: the value, or [undefined]. *)
Fixpoint own_prop (k : string) (props : list (string * jsval)) : jsval :=
  match props with
  | [] => JUndefined
  | (k', v) :: rest => if String.eqb k k' then v else own_prop k rest
  end.

(** [v.k]: reading a property of [null] or [undefined] throws; the
    properties read by the program exist on no prototype, so primitives
    and arrays answer [undefined]. *)
Definition get_prop (v : jsval) (k : string) : Exn + jsval :=
  match v with
  | JUndefined | JNull => inl (TypeError "Cannot read properties of null or undefined")
  | JObj props => inr (own_prop k props)
  | _ => inr JUndefined
  end.

(** [v?.k] *)
Definition opt_prop (v : jsval) (k : string) : jsval :=
  match get_prop v k with
  | inl _ => JUndefined
  | inr x => x
  end.

Definition truthy (v : jsval) : bool :=
  match v with
  | JUndefined | JNull => false
  | JBool b => b
  | JNum n => negb (n =? 0)
  | JStr s => negb (String.eqb s "")
  | JArr _ | JObj _ => true
  end.

(** [v === n] for a number literal [n]. *)
Definition is_num (v : jsval) (n : Z) : bool :=
  match v with
  | JNum m => m =? n
  | _ => false
  end.

(** Interpolating a value in a template literal converts it to a string.
    For a parsed JSON value this throws exactly when an object carries an
    own [toString] property (which cannot be callable), directly or as an
    element of an array being joined. *)
Fixpoint ToString_throws (v : jsval) : bool :=
  match v with
  | JObj props => existsb (fun p => String.eqb (fst p) "toString") props
  | JArr elems => existsb ToString_throws elems
  | _ => false
  end.

(** Inbound frame, by the outcome of [JSON.parse(data.toString())]. *)
Inductive wire : Type :=
| Unparseable
| Json (v : jsval).

(** Outbound frame: the text [JSON.stringify(v)]. *)
Inductive frame : Type :=
| JSON_stringify (v : jsval).

(** ** Sockets, entities and the store *)

Inductive ReadyState : Type := CONNECTING | OPEN | CLOSING | CLOSED.

Definition ReadyState_eqb (a b : ReadyState) : bool :=
  match a, b with
  | CONNECTING, CONNECTING | OPEN, OPEN | CLOSING, CLOSING | CLOSED, CLOSED => true
  | _, _ => false
  end.

(** The [state] strings of a sub-record. *)
Inductive ChannelState : Type :=
| idle | connecting | authenticated | ready | streaming | closed | error.

Definition ChannelState_eqb (a b : ChannelState) : bool :=
  match a, b with
  | idle, idle | connecting, connecting | authenticated, authenticated
  | ready, ready | streaming, streaming | closed, closed | error, error => true
  | _, _ => false
  end.

(** Sockets and entities are referred to by their position in the store. *)
Abbreviation SockId := nat (only parsing).
Abbreviation ConnRef := nat (only parsing).

Record Channel : Type := mkChannel {
  socket : option SockId;
  state : ChannelState;
  lastKeepAlive : option Z
}.

(** The connection entity.  Session and stream identifiers and the
    signaling endpoint are strings, as the webhook delivers them. *)
Record Conn : Type := mkConn {
  sessionId : string;
  streamId : string;
  serverUrls : string;
  shouldReconnect : bool;
  signaling : Channel;
  media : Channel
}.

(** The listeners registered on a socket are closures; a closure is
    represented by the function that created it and the variables it
    captured. *)
Inductive Listeners : Type :=
| SignalingListeners (sid stid : string) (conn : ConnRef)
| MediaListeners (mediaUrl : jsval) (sid stid : string)
                 (signalingSocket : option SockId) (conn : ConnRef).

Record WebSocket : Type := mkWebSocket {
  url : jsval;
  readyState : ReadyState;
  listeners : option Listeners;   (* set by [ws.on(...)] *)
  onceOpenClose : nat   (* listeners added by [ws.once('open', () => ws.close())] *)
}.

(** Callbacks handed to [setTimeout]. *)
Inductive Timer : Type :=
| SignalingRetry (sid stid : string) (conn : ConnRef)
| MediaRetry (mediaUrl : jsval) (sid stid : string) (conn : ConnRef).

(** Calls made on the WebSocket library, in program order. *)
Inductive Caller : Type :=
| by_signaling (sid : string)
| by_media (sid : string).

Inductive Call : Type :=
| new_WebSocket (who : Caller) (address : jsval)
| send (k : SockId) (f : frame)
| close (k : SockId)
| once_open_close (k : SockId).

Inductive Level : Type := log_ | warn_ | error_.

Record LogEntry : Type := mkLog {
  level : Level;
  text : string;          (* the constant part of the message, in ASCII *)
  args : list jsval       (* the interpolated or appended values *)
}.

Record State : Type := mkState {
  activeConnections : list (string * ConnRef);  (* the Map, in insertion order *)
  heap : list Conn;
  sockets : list WebSocket;
  timers : list (Z * Timer);
  calls : list Call;
  console : list LogEntry
}.

Definition initial : State := mkState [] [] [] [] [] [].

#[global] Instance Channel_inhabited : Inhabited Channel :=
  populate (mkChannel None idle None).
#[global] Instance Conn_inhabited : Inhabited Conn :=
  populate (mkConn "" "" "" false inhabitant inhabitant).

(** *** The registry: [Map.get], [Map.set], [Map.delete], [Map.keys] *)

Fixpoint Map_get (k : string) (m : list (string * ConnRef)) : option ConnRef :=
  match m with
  | [] => None
  | (k', v) :: rest => if String.eqb k k' then Some v else Map_get k rest
  end.

Fixpoint Map_set (k : string) (v : ConnRef) (m : list (string * ConnRef))
  : list (string * ConnRef) :=
  match m with
  | [] => [(k, v)]
  | (k', v') :: rest =>
      if String.eqb k k' then (k', v) :: rest else (k', v') :: Map_set k v rest
  end.

Fixpoint Map_delete (k : string) (m : list (string * ConnRef))
  : list (string * ConnRef) :=
  match m with
  | [] => []
  | (k', v') :: rest =>
      if String.eqb k k' then Map_delete k rest else (k', v') :: Map_delete k rest
  end.

Definition Map_keys (m : list (string * ConnRef)) : list string := map fst m.

(** *** Store updates *)

Definition set_activeConnections m (s : State) : State :=
  mkState m (heap s) (sockets s) (timers s) (calls s) (console s).
Definition set_heap h (s : State) : State :=
  mkState (activeConnections s) h (sockets s) (timers s) (calls s) (console s).
Definition set_sockets w (s : State) : State :=
  mkState (activeConnections s) (heap s) w (timers s) (calls s) (console s).
Definition set_timers t (s : State) : State :=
  mkState (activeConnections s) (heap s) (sockets s) t (calls s) (console s).
Definition set_calls c (s : State) : State :=
  mkState (activeConnections s) (heap s) (sockets s) (timers s) c (console s).
Definition set_console l (s : State) : State :=
  mkState (activeConnections s) (heap s) (sockets s) (timers s) (calls s) l.

Definition with_socket (k : option SockId) (c : Channel) : Channel :=
  mkChannel k (state c) (lastKeepAlive c).
Definition with_state (st : ChannelState) (c : Channel) : Channel :=
  mkChannel (socket c) st (lastKeepAlive c).
Definition with_lastKeepAlive (t : option Z) (c : Channel) : Channel :=
  mkChannel (socket c) (state c) t.

Definition on_signaling (f : Channel -> Channel) (c : Conn) : Conn :=
  mkConn (sessionId c) (streamId c) (serverUrls c) (shouldReconnect c)
         (f (signaling c)) (media c).
Definition on_media (f : Channel -> Channel) (c : Conn) : Conn :=
  mkConn (sessionId c) (streamId c) (serverUrls c) (shouldReconnect c)
         (signaling c) (f (media c)).
Definition with_shouldReconnect (b : bool) (c : Conn) : Conn :=
  mkConn (sessionId c) (streamId c) (serverUrls c) b (signaling c) (media c).

Definition with_readyState (r : ReadyState) (w : WebSocket) : WebSocket :=
  mkWebSocket (url w) r (listeners w) (onceOpenClose w).
Definition with_onceOpenClose (n : nat) (w : WebSocket) : WebSocket :=
  mkWebSocket (url w) (readyState w) (listeners w) n.
Definition with_listeners (l : Listeners) (w : WebSocket) : WebSocket :=
  mkWebSocket (url w) (readyState w) (Some l) (onceOpenClose w).

(** ** Computations: state passing with exceptions *)

Inductive Result (A : Type) : Type :=
| Return (a : A) (s : State)
| Throw (e : Exn) (s : State).
Arguments Return {A} a s.
Arguments Throw {A} e s.

Definition M (A : Type) : Type := State -> Result A.

Definition ret {A} (a : A) : M A := fun s => Return a s.
Definition throw {A} (e : Exn) : M A := fun s => Throw e s.
Definition bind {A B} (m : M A) (k : A -> M B) : M B :=
  fun s => match m s with
           | Return a s' => k a s'
           | Throw e s' => Throw e s'
           end.
(** [try { m } catch (err) { h err }] *)
Definition try_catch {A} (m : M A) (h : Exn -> M A) : M A :=
  fun s => match m s with
           | Return a s' => Return a s'
           | Throw e s' => h e s'
           end.

Notation "'let*' x ':=' m 'in' k" := (bind m (fun x => k))
  (at level 10, x name, m at level 100, k at level 200).
Notation "m ';;' k" := (bind m (fun _ => k))
  (at level 100, k at level 200, right associativity).

Definition state_of {A} (r : Result A) : State :=
  match r with Return _ s => s | Throw _ s => s end.

Definition gets {A} (f : State -> A) : M A := fun s => Return (f s) s.
Definition modify (f : State -> State) : M unit := fun s => Return tt (f s).
Definition lift {A} (x : Exn + A) : M A :=
  match x with inl e => throw e | inr a => ret a end.

Definition console_write (l : Level) (t : string) (a : list jsval) : M unit :=
  modify (fun s => set_console (console s ++ [mkLog l t a]) s).

(** A value interpolated into a template literal. *)
Definition interpolate (v : jsval) : M jsval :=
  if ToString_throws v
  then throw (TypeError "Cannot convert object to primitive value")
  else ret v.

(** Reading and writing an entity through its reference. *)
Definition deref (c : ConnRef) : M Conn := gets (fun s => heap s !!! c).
Definition update (c : ConnRef) (f : Conn -> Conn) : M unit :=
  modify (fun s => set_heap (alter f c (heap s)) s).

Definition socket_readyState (k : SockId) (s : State) : option ReadyState :=
  readyState <$> sockets s !! k.

(** ** The environment of the program

    The configuration read from the process environment, and the parts of
    the Node.js runtime and of the [ws] library whose results the program
    depends on but does not compute itself. *)

Class Environment : Type := {
  (** [config.clientId], [config.clientSecret]: [None] when not set. *)
  clientId : option string;
  clientSecret : option string;
  (** [crypto.createHmac('sha256', key).update(message).digest()] *)
  hmac_sha256 : string -> string -> list Byte.byte;
  hmac_sha256_length : forall key message,
    length (hmac_sha256 key message) = 32%nat;
  (** whether [new WebSocket(address)] accepts the address; it throws a
      [SyntaxError] otherwise *)
  ws_url_ok : jsval -> bool;
  (** whether [Buffer.from(v, 'base64')] throws for the value [v] *)
  Buffer_from_throws : jsval -> bool
}.

(** [.digest('hex')]: two lowercase hexadecimal digits per byte. *)
Definition hex_digit (n : N) : Ascii.ascii :=
  Ascii.ascii_of_N (if (n <? 10)%N then 48 + n else 87 + n)%N.

Definition hex_of_byte (b : Byte.byte) : string :=
  let n := Byte.to_N b in
  String (hex_digit (n / 16)%N) (String (hex_digit (n mod 16)%N) EmptyString).

Fixpoint hex (bs : list Byte.byte) : string :=
  match bs with
  | [] => EmptyString
  | b :: rest => hex_of_byte b ++ hex rest
  end.

Section Program.
Context {env : Environment}.

(** *** Utility functions *)

(** The text hashed by [generateSignature]:
    [`${config.clientId},${sessionId},${streamId}`]. *)
Definition signature_message (sessionId streamId : string) : string :=
  default "undefined" clientId ++ "," ++ sessionId ++ "," ++ streamId.

Definition generateSignature (sessionId streamId : string) : M string :=
  let message := signature_message sessionId streamId in
  match clientSecret with
  | None => throw (TypeError "The key argument must not be undefined")
  | Some key => ret (hex (hmac_sha256 key message))
  end.

(** *** The [ws] library, as far as the program uses it

    Every call the program makes on the library is recorded, in order.
    Of the library's own behaviour the model keeps what the program can
    observe: the constructor refusing an address, the [readyState] of a
    socket, the order in which 'open' listeners run, and [send] refusing
    a socket that is still connecting.  A frame passed to [send] is
    recorded as sent; its delivery is not followed. *)

Definition record_call (c : Call) : M unit :=
  modify (fun s => set_calls (calls s ++ [c]) s).

Definition WebSocket_new (who : Caller) (address : jsval) : M SockId :=
  record_call (new_WebSocket who address) ;;
  if ws_url_ok address then
    let* k := gets (fun s => length (sockets s)) in
    modify (fun s => set_sockets (sockets s ++ [mkWebSocket address CONNECTING None 0]) s) ;;
    ret k
  else throw (SyntaxError "Invalid URL").

Definition ws_on (k : SockId) (l : Listeners) : M unit :=
  modify (fun s => set_sockets (alter (with_listeners l) k (sockets s)) s).

(** [k.send(f)] in a listener of the socket [k] itself, which has opened
    by then: the library takes the frame.  The one [send] the program
    makes on another socket is [send_on]. *)
Definition ws_send (k : SockId) (f : frame) : M unit :=
  record_call (send k f).

Definition closing (r : ReadyState) : ReadyState :=
  match r with
  | CONNECTING | OPEN => CLOSING
  | _ => r
  end.

Definition ws_close (k : SockId) : M unit :=
  record_call (close k) ;;
  modify (fun s =>
    set_sockets (alter (fun w => with_readyState (closing (readyState w)) w) k (sockets s)) s).

Definition ws_once_open_close (k : SockId) : M unit :=
  record_call (once_open_close k) ;;
  modify (fun s =>
    set_sockets (alter (fun w => with_onceOpenClose (S (onceOpenClose w)) w) k (sockets s)) s).

Definition setTimeout (t : Timer) (delay : Z) : M unit :=
  modify (fun s => set_timers (timers s ++ [(delay, t)]) s).

Fixpoint for_each {A} (l : list A) (body : A -> M unit) : M unit :=
  match l with
  | [] => ret tt
  | x :: rest => body x ;; for_each rest body
  end.

Definition JSON_parse (data : wire) : M jsval :=
  match data with
  | Unparseable => throw (SyntaxError "Unexpected token in JSON")
  | Json v => ret v
  end.

(** *** Media message handler *)

(** Cases 14, 15, 16: a base64 payload with its sender. *)
Definition binary_payload (label : string) (msg : jsval) : M unit :=
  let* content := lift (get_prop msg "content") in
  if truthy (opt_prop content "data") then
    let* user_id := lift (get_prop content "user_id") in
    let* user_name := lift (get_prop content "user_name") in
    let* data := lift (get_prop content "data") in
    (if Buffer_from_throws data
     then throw (TypeError "The first argument must be of type string, Buffer or Array")
     else ret tt) ;;
    let* n := interpolate user_name in
    let* i := interpolate user_id in
    console_write log_ label [n; i]
  else ret tt.

(** Cases 17, 18: a text payload with its sender. *)
Definition text_payload (label : string) (msg : jsval) : M unit :=
  let* content := lift (get_prop msg "content") in
  if truthy (opt_prop content "data") then
    let* user_name := lift (get_prop content "user_name") in
    let* text := lift (get_prop content "data") in
    let* n := interpolate user_name in
    let* t := interpolate text in
    console_write log_ label [n; t]
  else ret tt.

(** [signalingSocket.send(f)], for a handle captured when the media
    connection was made: it may be [null], and the socket may be in any
    state.  The library's [send] throws while the socket is connecting;
    on a socket that is closing or closed it returns. *)
Definition send_on (signalingSocket : option SockId) (f : frame) : M unit :=
  match signalingSocket with
  | Some k =>
      let* r := gets (socket_readyState k) in
      match r with
      | Some CONNECTING =>
          throw (Error "WebSocket is not open: readyState 0 (CONNECTING)")
      | _ => ws_send k f
      end
  | None => throw (TypeError "Cannot read properties of null (reading 'send')")
  end.

Definition handleMediaMessage (data : wire) (conn : ConnRef) (mediaWs : SockId)
    (signalingSocket : option SockId) (sessionId streamId : string) : M unit :=
  try_catch
    (let* msg := JSON_parse data in
     let* msg_type := lift (get_prop msg "msg_type") in
     if is_num msg_type 4 then        (* DATA_HAND_SHAKE_RESP *)
       let* status_code := lift (get_prop msg "status_code") in
       if is_num status_code 0 then
         console_write log_ "[Media] Handshake successful - requesting stream start" [] ;;
         send_on signalingSocket
           (JSON_stringify (JObj [("msg_type", JNum 7);
                                  ("rtms_stream_id", JStr streamId)])) ;;
         update conn (on_media (with_state streaming))
       else
         let* c := interpolate status_code in
         console_write error_ "[Media] Handshake failed: status_code=" [c]
     else if is_num msg_type 12 then  (* KEEP_ALIVE_REQ *)
       let* timestamp := lift (get_prop msg "timestamp") in
       ws_send mediaWs
         (JSON_stringify (JObj [("msg_type", JNum 13); ("timestamp", timestamp)]))
     else if is_num msg_type 14 then binary_payload "[Audio]" msg
     else if is_num msg_type 15 then binary_payload "[Video]" msg
     else if is_num msg_type 16 then binary_payload "[ScreenShare]" msg
     else if is_num msg_type 17 then text_payload "[Transcript]" msg
     else if is_num msg_type 18 then text_payload "[Chat]" msg
     else ret tt)
    (fun err => console_write error_ "[Media] Failed to parse message:" []).

(** *** Media WebSocket *)

Definition connectToMediaWebSocket (mediaUrl : jsval) (sessionId streamId : string)
    (signalingSocket : option SockId) (conn : ConnRef) : M unit :=
  console_write log_ "[Media] Connecting for session" [JStr sessionId] ;;
  let* mediaWs := WebSocket_new (by_media sessionId) mediaUrl in
  update conn (on_media (with_socket (Some mediaWs))) ;;
  update conn (on_media (with_state connecting)) ;;
  ws_on mediaWs (MediaListeners mediaUrl sessionId streamId signalingSocket conn).

Definition media_handshakeMsg (sessionId streamId signature : string) : jsval :=
  JObj [("msg_type", JNum 3);
        ("protocol_version", JNum 1);
        ("meeting_uuid", JStr sessionId);
        ("session_id", JStr sessionId);
        ("rtms_stream_id", JStr streamId);
        ("signature", JStr signature);
        ("media_type", JNum 32);
        ("payload_encryption", JBool false);
        ("media_params", JObj [
           ("audio", JObj [("content_type", JNum 1); ("sample_rate", JNum 1);
                           ("channel", JNum 1); ("codec", JNum 1);
                           ("data_opt", JNum 1); ("send_rate", JNum 100)]);
           ("video", JObj [("codec", JNum 7); ("data_opt", JNum 3);
                           ("resolution", JNum 2); ("fps", JNum 25)]);
           ("deskshare", JObj [("codec", JNum 5); ("resolution", JNum 2);
                               ("fps", JNum 1)]);
           ("chat", JObj [("content_type", JNum 5)]);
           ("transcript", JObj [("content_type", JNum 5)])])].

Definition media_on_open (mediaWs : SockId) (sessionId streamId : string)
    (conn : ConnRef) : M unit :=
  let* c := deref conn in
  if negb (shouldReconnect c) then ws_close mediaWs
  else
    let* signature := generateSignature sessionId streamId in
    console_write log_ "[Media] Sending data handshake..." [] ;;
    ws_send mediaWs (JSON_stringify (media_handshakeMsg sessionId streamId signature)) ;;
    update conn (on_media (with_state authenticated)).

Definition media_on_error (conn : ConnRef) : M unit :=
  console_write error_ "[Media] Error:" [] ;;
  update conn (on_media (with_state error)).

(** *** Signaling WebSocket *)

Definition connectToSignalingWebSocket (sessionId streamId serverUrls : string)
    (existingConn : option ConnRef) : M unit :=
  console_write log_ "[Signaling] Connecting for session" [JStr sessionId] ;;
  if negb (truthy (JStr serverUrls)) || negb (String.prefix "ws" serverUrls) then
    console_write error_ "[Signaling] Invalid WebSocket URL:" [JStr serverUrls]
  else
    let* signalingWs := WebSocket_new (by_signaling sessionId) (JStr serverUrls) in
    (* Create or reuse connection entry *)
    let* conn :=
      match existingConn with
      | Some c => ret c
      | None =>
          let* c := gets (fun s => length (heap s)) in
          modify (fun s => set_heap (heap s ++
            [mkConn sessionId streamId serverUrls true
                    (mkChannel None connecting None)
                    (mkChannel None idle None)]) s) ;;
          ret c
      end in
    match existingConn with
    | Some _ => ret tt
    | None =>
        modify (fun s =>
          set_activeConnections (Map_set sessionId conn (activeConnections s)) s)
    end ;;
    update conn (on_signaling (with_socket (Some signalingWs))) ;;
    update conn (on_signaling (with_state connecting)) ;;
    ws_on signalingWs (SignalingListeners sessionId streamId conn).

Definition signaling_handshakeMsg (sessionId streamId signature : string) : jsval :=
  JObj [("msg_type", JNum 1);
        ("meeting_uuid", JStr sessionId);
        ("session_id", JStr sessionId);
        ("rtms_stream_id", JStr streamId);
        ("signature", JStr signature)].

Definition signaling_on_open (signalingWs : SockId) (sessionId streamId : string)
    (conn : ConnRef) : M unit :=
  let* c := deref conn in
  if negb (shouldReconnect c) then ws_close signalingWs
  else
    let* signature := generateSignature sessionId streamId in
    console_write log_ "[Signaling] Sending handshake..." [] ;;
    ws_send signalingWs
      (JSON_stringify (signaling_handshakeMsg sessionId streamId signature)) ;;
    update conn (on_signaling (with_state authenticated)).

(** *** Connection cleanup *)

Inductive ChannelType : Type := signaling_ | media_.

Definition channel (ty : ChannelType) (c : Conn) : Channel :=
  match ty with signaling_ => signaling c | media_ => media c end.

Definition on_channel (ty : ChannelType) (f : Channel -> Channel) (c : Conn) : Conn :=
  match ty with signaling_ => on_signaling f c | media_ => on_media f c end.

(** The body of the loop [for (const type of ['signaling', 'media'])]. *)
Definition cleanup_channel (conn : ConnRef) (ty : ChannelType) : M unit :=
  let* c := deref conn in
  match socket (channel ty c) with
  | None => ret tt
  | Some ws =>
      update conn (on_channel ty (with_state closed)) ;;
      let* r := gets (socket_readyState ws) in
      match r with
      | Some CONNECTING => ws_once_open_close ws
      | _ => ws_close ws
      end
  end.

Definition cleanupConnection (sessionId : string) : M unit :=
  let* found := gets (fun s => Map_get sessionId (activeConnections s)) in
  match found with
  | None => ret tt
  | Some conn =>
      console_write log_ "[Cleanup] Closing connections for session" [JStr sessionId] ;;
      update conn (with_shouldReconnect false) ;;
      for_each [signaling_; media_] (cleanup_channel conn) ;;
      modify (fun s =>
        set_activeConnections (Map_delete sessionId (activeConnections s)) s)
  end.

(** *** Signaling message handler *)

Definition subscribeMsg : jsval :=
  JObj [("msg_type", JNum 5);
        ("events", JArr [
           JObj [("event_type", JNum 2); ("subscribe", JBool true)];
           JObj [("event_type", JNum 3); ("subscribe", JBool true)];
           JObj [("event_type", JNum 4); ("subscribe", JBool true)]])].

(** [x ?? ''] *)
Definition or_empty (x : jsval) : jsval :=
  match x with
  | JUndefined | JNull => JStr ""
  | _ => x
  end.

Definition signaling_event (msg : jsval) : M unit :=
  let* event := lift (get_prop msg "event") in
  if truthy event then
    let* event_type := lift (get_prop event "event_type") in
    if is_num event_type 1 then
      let* t := lift (get_prop event "timestamp") in
      let* t := interpolate t in
      console_write log_ "[Event] First packet at" [t]
    else if is_num event_type 2 then
      let* n := lift (get_prop event "user_name") in
      let* n := interpolate n in
      console_write log_ "[Event] Active speaker:" [n]
    else if is_num event_type 3 then
      let* n := lift (get_prop event "user_name") in
      let* n := interpolate n in
      console_write log_ "[Event] Participant joined:" [n]
    else if is_num event_type 4 then
      let* n := lift (get_prop event "user_name") in
      let* n := interpolate n in
      console_write log_ "[Event] Participant left:" [n]
    else
      let* e := interpolate event_type in
      console_write log_ "[Event] Unknown event_type:" [e]
  else ret tt.

Definition signaling_on_message (signalingWs : SockId) (sessionId streamId : string)
    (conn : ConnRef) (data : wire) (now : Z) : M unit :=
  match data with
  | Unparseable => console_write warn_ "[Signaling] Invalid JSON received" []
  | Json msg =>
      let* msg_type := lift (get_prop msg "msg_type") in
      if is_num msg_type 2 then        (* SIGNALING_HAND_SHAKE_RESP *)
        let* status_code := lift (get_prop msg "status_code") in
        if is_num status_code 0 then
          let mediaUrl :=
            opt_prop (opt_prop (opt_prop msg "media_server") "server_urls") "audio" in
          let* u := interpolate mediaUrl in
          console_write log_ "[Signaling] Handshake OK - media URL:" [u] ;;
          update conn (on_signaling (with_state ready)) ;;
          connectToMediaWebSocket mediaUrl sessionId streamId (Some signalingWs) conn ;;
          ws_send signalingWs (JSON_stringify subscribeMsg)
        else
          let* c := interpolate status_code in
          console_write error_ "[Signaling] Handshake failed: status_code=" [c]
      else if is_num msg_type 6 then   (* EVENT *)
        signaling_event msg
      else if is_num msg_type 8 then   (* STREAM_STATE_CHANGED *)
        let* state := lift (get_prop msg "state") in
        let* reason := lift (get_prop msg "reason") in
        console_write log_ "[Signaling] Stream state changed:" [state; or_empty reason] ;;
        if is_num reason 6 && is_num state 4 then cleanupConnection sessionId
        else ret tt
      else if is_num msg_type 9 then   (* SESSION_STATE_CHANGED *)
        let* state := lift (get_prop msg "state") in
        console_write log_ "[Signaling] Session state changed:" [state]
      else if is_num msg_type 12 then  (* KEEP_ALIVE_REQ *)
        update conn (on_signaling (with_lastKeepAlive (Some now))) ;;
        let* timestamp := lift (get_prop msg "timestamp") in
        ws_send signalingWs
          (JSON_stringify (JObj [("msg_type", JNum 13); ("timestamp", timestamp)]))
      else
        let* t := interpolate msg_type in
        console_write log_ "[Signaling] Unhandled msg_type:" [t]
  end.

Definition signaling_on_close (sessionId streamId : string) (conn : ConnRef) : M unit :=
  console_write log_ "[Signaling] Closed for" [JStr sessionId] ;;
  update conn (on_signaling (with_state closed)) ;;
  let* c := deref conn in
  if shouldReconnect c then
    console_write log_ "[Signaling] Reconnecting in 3s..." [] ;;
    setTimeout (SignalingRetry sessionId streamId conn) 3000
  else ret tt.

Definition signaling_on_error (conn : ConnRef) : M unit :=
  console_write error_ "[Signaling] Error:" [] ;;
  update conn (on_signaling (with_state error)).

(** The media close listener, registered by [connectToMediaWebSocket]. *)
Definition signaling_alive (c : Conn) (s : State) : bool :=
  ChannelState_eqb (state (signaling c)) ready &&
  match socket (signaling c) with
  | Some k =>
      match socket_readyState k s with
      | Some OPEN => true
      | _ => false
      end
  | None => false
  end.

Definition media_on_close (mediaUrl : jsval) (sessionId streamId : string)
    (conn : ConnRef) : M unit :=
  console_write warn_ "[Media] Connection closed for" [JStr sessionId] ;;
  update conn (on_media (with_state closed)) ;;
  let* c := deref conn in
  if negb (shouldReconnect c) then ret tt
  else
    (* Attempt reconnection if signaling is still alive *)
    let* alive := gets (signaling_alive c) in
    if alive then
      console_write log_ "[Media] Reconnecting in 3s..." [] ;;
      setTimeout (MediaRetry mediaUrl sessionId streamId conn) 3000
    else
      console_write warn_ "[Media] Signaling not ready - restarting both connections..." [] ;;
      connectToSignalingWebSocket sessionId streamId (serverUrls c) (Some conn).

(** *** Timer callbacks *)

Definition run_timer (t : Timer) : M unit :=
  match t with
  | SignalingRetry sessionId streamId conn =>
      let* c := deref conn in
      if shouldReconnect c
      then connectToSignalingWebSocket sessionId streamId (serverUrls c) (Some conn)
      else ret tt
  | MediaRetry mediaUrl sessionId streamId conn =>
      let* c := deref conn in
      connectToMediaWebSocket mediaUrl sessionId streamId (socket (signaling c)) conn
  end.

(** *** The event loop

    What the outside world can make happen: the two webhook events handed
    over by the HTTP front door, process shutdown, the events the [ws]
    library emits on a socket, and a pending timer running out. *)

Inductive Event : Type :=
| rtms_started (session_id rtms_stream_id server_urls : string)
| rtms_stopped (session_id : string)
| SIGINT
| on_open (k : SockId)
| on_message (k : SockId) (data : wire) (now : Z)
| on_close (k : SockId)
| on_error (k : SockId)
| on_timeout (i : nat).

Definition mark (k : SockId) (r : ReadyState) : M unit :=
  modify (fun s => set_sockets (alter (with_readyState r) k (sockets s)) s).

(** The library opens the socket and calls the 'open' listeners in the
    order of their registration: the one of the connect function, then
    the one-shot listeners added by the cleanup. *)
Definition emit_open (k : SockId) : M unit :=
  let* found := gets (fun s => sockets s !! k) in
  match found with
  | None => ret tt
  | Some w =>
      mark k OPEN ;;
      modify (fun s => set_sockets (alter (with_onceOpenClose 0) k (sockets s)) s) ;;
      match listeners w with
      | Some (SignalingListeners sid stid conn) => signaling_on_open k sid stid conn
      | Some (MediaListeners _ sid stid _ conn) => media_on_open k sid stid conn
      | None => ret tt
      end ;;
      for_each (replicate (onceOpenClose w) k) ws_close
  end.

Definition emit_message (k : SockId) (data : wire) (now : Z) : M unit :=
  let* found := gets (fun s => sockets s !! k) in
  match listeners <$> found with
  | Some (Some (SignalingListeners sid stid conn)) =>
      signaling_on_message k sid stid conn data now
  | Some (Some (MediaListeners _ sid stid signalingSocket conn)) =>
      handleMediaMessage data conn k signalingSocket sid stid
  | _ => ret tt
  end.

Definition emit_close (k : SockId) : M unit :=
  let* found := gets (fun s => sockets s !! k) in
  mark k CLOSED ;;
  match listeners <$> found with
  | Some (Some (SignalingListeners sid stid conn)) => signaling_on_close sid stid conn
  | Some (Some (MediaListeners mediaUrl sid stid _ conn)) =>
      media_on_close mediaUrl sid stid conn
  | _ => ret tt
  end.

Definition emit_error (k : SockId) : M unit :=
  let* found := gets (fun s => sockets s !! k) in
  match listeners <$> found with
  | Some (Some (SignalingListeners _ _ conn)) => signaling_on_error conn
  | Some (Some (MediaListeners _ _ _ _ conn)) => media_on_error conn
  | _ => ret tt
  end.

Definition fire (i : nat) : M unit :=
  let* found := gets (fun s => timers s !! i) in
  match found with
  | None => ret tt
  | Some (_, t) =>
      modify (fun s => set_timers (delete i (timers s)) s) ;;
      run_timer t
  end.

Definition handle (ev : Event) : M unit :=
  match ev with
  | rtms_started session_id rtms_stream_id server_urls =>
      console_write log_ "[Webhook] Event received:" [JStr "session.rtms_started"] ;;
      console_write log_ "[Webhook] RTMS started for session" [JStr session_id] ;;
      connectToSignalingWebSocket session_id rtms_stream_id server_urls None
  | rtms_stopped session_id =>
      console_write log_ "[Webhook] Event received:" [JStr "session.rtms_stopped"] ;;
      console_write log_ "[Webhook] RTMS stopped for session" [JStr session_id] ;;
      cleanupConnection session_id
  | SIGINT =>
      console_write log_ "[Shutdown] Cleaning up..." [] ;;
      let* keys := gets (fun s => Map_keys (activeConnections s)) in
      for_each keys cleanupConnection
  | on_open k => emit_open k
  | on_message k data now => emit_message k data now
  | on_close k => emit_close k
  | on_error k => emit_error k
  | on_timeout i => fire i
  end.

(** When the outside world can produce an event: a socket opens once,
    while connecting; messages arrive on a socket that has opened and has
    not closed; 'close' is emitted once; a timer must be pending. *)
Definition enabled (ev : Event) (s : State) : bool :=
  match ev with
  | rtms_started _ _ _ | rtms_stopped _ | SIGINT => true
  | on_open k =>
      match socket_readyState k s with Some CONNECTING => true | _ => false end
  | on_message k _ _ =>
      match socket_readyState k s with Some OPEN | Some CLOSING => true | _ => false end
  | on_close k | on_error k =>
      match socket_readyState k s with
      | Some CONNECTING | Some OPEN | Some CLOSING => true
      | _ => false
      end
  | on_timeout i => bool_decide (is_Some (timers s !! i))
  end.

(** The stores the program can be in.  An exception leaving a listener
    ends the process, and one leaving a webhook handler is caught by the
    HTTP framework; letting the run go on from the store at the throw in
    both cases covers every real run. *)
Inductive reachable : State -> Prop :=
| reachable_initial : reachable initial
| reachable_step s ev :
    reachable s -> enabled ev s = true -> reachable (state_of (handle ev s)).

Fixpoint run (evs : list Event) (s : State) : option State :=
  match evs with
  | [] => Some s
  | ev :: rest =>
      if enabled ev s then run rest (state_of (handle ev s)) else None
  end.

End Program.

(** ** A sample deployment

    A concrete environment on which the development is exercised: both
    credentials set, addresses accepted when they are strings with a
    WebSocket scheme, [Buffer.from] accepting strings and arrays.  The
    digest below only stands in for the hash at these sample points; no
    statement depends on it. *)

Definition sample_digest (key message : string) : list Byte.byte :=
  replicate 32
    (default Byte.x00
       (Byte.of_N (N.of_nat (String.length key + String.length message) mod 256))).

Definition sample : Environment := {|
  clientId := Some "client";
  clientSecret := Some "secret";
  hmac_sha256 := sample_digest;
  hmac_sha256_length := fun key message => length_replicate 32 _;
  ws_url_ok := fun v =>
    match v with
    | JStr s => String.prefix "ws://" s || String.prefix "wss://" s
    | _ => false
    end;
  Buffer_from_throws := fun v =>
    match v with
    | JStr _ | JArr _ => false
    | _ => true
    end
|}.

(** ** Vocabulary of the properties *)

(** Socket [k] carries the listeners registered by
    [connectToSignalingWebSocket], respectively [connectToMediaWebSocket],
    with these captured variables. *)
Definition signaling_socket (s : State) (k : SockId) (sid stid : string)
    (conn : ConnRef) : Prop :=
  listeners <$> sockets s !! k = Some (Some (SignalingListeners sid stid conn)).

Definition media_socket (s : State) (k : SockId) (mediaUrl : jsval)
    (sid stid : string) (signalingSocket : option SockId) (conn : ConnRef) : Prop :=
  listeners <$> sockets s !! k
  = Some (Some (MediaListeners mediaUrl sid stid signalingSocket conn)).

(** A computation keeps an invariant of the store, whether it returns or
    throws. *)
Definition preserves {A} (I : State -> Prop) (m : M A) : Prop :=
  forall s, I s -> I (state_of (m s)).

(** The session identifiers registered, with multiplicity. *)
Definition entries_for (sid : string) (m : list (string * ConnRef)) : nat :=
  length (List.filter (fun kv => String.eqb (fst kv) sid) m).

(** The store after the events [evs], from the empty store of a fresh
    process, in a given environment. *)
Definition after (env : Environment) (evs : list Event) : State :=
  default initial (@run env evs initial).

(** *** Sample runs *)

Definition handshake_ok_frame : wire :=
  Json (JObj [("msg_type", JNum 2); ("status_code", JNum 0);
              ("media_server",
               JObj [("server_urls", JObj [("audio", JStr "wss://media")])])]).

Definition started_once : State :=
  Eval vm_compute in after sample [rtms_started "s1" "st1" "wss://zoom"].

Definition started_twice : State :=
  Eval vm_compute in after sample [rtms_started "s1" "st1" "wss://zoom";
                rtms_started "s1" "st1" "wss://zoom"].

(** Signaling and media both established: sockets 0 and 1, entity 0. *)
Definition streaming_events : list Event :=
  [rtms_started "s1" "st1" "wss://zoom"; on_open 0%nat;
   on_message 0%nat handshake_ok_frame 1000; on_open 1%nat].

Definition established : State := Eval vm_compute in after sample streaming_events.

(** How the cleanup asks a sub-record's socket to close: at once, or,
    while the socket is still connecting, by a one-shot 'open' listener. *)
Definition close_request (s : State) (handle : option SockId) : list Call :=
  match handle with
  | None => []
  | Some ws =>
      [match socket_readyState ws s with
       | Some CONNECTING => once_open_close ws
       | _ => close ws
       end]
  end.

(** Two stores agree on which sockets are still connecting. *)
Definition same_connecting (s s' : State) : Prop :=
  forall k, socket_readyState k s' = Some CONNECTING
            <-> socket_readyState k s = Some CONNECTING.


Definition keep_alive_frame : wire :=
  Json (JObj [("msg_type", JNum 12); ("timestamp", JNum 1700000000)]).

Definition keep_alive_response (msg : jsval) : frame :=
  JSON_stringify (JObj [("msg_type", JNum 13); ("timestamp", opt_prop msg "timestamp")]).


Definition terminal_frame : wire :=
  Json (JObj [("msg_type", JNum 8); ("state", JNum 4); ("reason", JNum 6)]).




(** The media socket has closed while signaling was ready and open, then
    the session was stopped; the media reconnection timer is pending. *)
Definition stopped_with_media_timer : State :=
  Eval vm_compute in after sample (streaming_events ++ [on_close 1%nat; rtms_stopped "s1"]).

(** The signaling socket has closed, then the session was stopped; the
    signaling reconnection timer is pending. *)
Definition stopped_with_signaling_timer : State :=
  Eval vm_compute in after sample (streaming_events ++ [on_close 0%nat; rtms_stopped "s1"]).

(** The reconnect gate of entity [c] is down. *)
Definition stopped (c : ConnRef) (s : State) : Prop :=
  shouldReconnect <$> heap s !! c = Some false.

(** The media endpoint of a signaling handshake response:
    [msg.media_server?.server_urls?.audio]. *)
Definition media_endpoint (msg : jsval) : jsval :=
  opt_prop (opt_prop (opt_prop msg "media_server") "server_urls") "audio".

(** [msg] is a signaling handshake response (msg_type 2) with status 0. *)
Definition handshake_success (msg : jsval) : Prop :=
  get_prop msg "msg_type" = inr (JNum 2) /\
  get_prop msg "status_code" = inr (JNum 0).

(** Among the events [evs] of a run there is a successful signaling
    handshake response for session [sid] carrying the media endpoint [u]:
    a frame delivered to a socket that, at that point of the run, carries
    the signaling listeners of session [sid]. *)
Definition handshake_received (env : Environment) (evs : list Event)
    (sid : string) (u : jsval) : Prop :=
  exists evs1 evs2 k now msg s1 stid conn,
    evs = (evs1 ++ on_message k (Json msg) now :: evs2)%list /\
    @run env evs1 initial = Some s1 /\
    signaling_socket s1 k sid stid conn /\
    handshake_success msg /\
    media_endpoint msg = u.

(** Every media connection attempt made so far, every media listener
    registered and every media retry pending is for a pair (session,
    endpoint) in [J]. *)
Definition media_justified (J : string -> jsval -> Prop) (s : State) : Prop :=
  (forall sid u, new_WebSocket (by_media sid) u ∈ calls s -> J sid u) /\
  (forall w u sid stid ss c,
     w ∈ sockets s -> listeners w = Some (MediaListeners u sid stid ss c) -> J sid u) /\
  (forall d u sid stid c, (d, MediaRetry u sid stid c) ∈ timers s -> J sid u).

(** Lowercase hexadecimal text. *)
Definition is_hex_digit (a : Ascii.ascii) : bool :=
  let n := Ascii.N_of_ascii a in
  ((48 <=? n) && (n <=? 57) || (97 <=? n) && (n <=? 102))%N.

Fixpoint all_hex (s : string) : bool :=
  match s with
  | EmptyString => true
  | String a rest => is_hex_digit a && all_hex rest
  end.

Fixpoint no_comma (s : string) : bool :=
  match s with
  | EmptyString => true
  | String a rest => negb (Ascii.eqb a ","%char) && no_comma rest
  end.

(** The value of a hexadecimal digit, and the byte written by two. *)
Definition hex_value (a : Ascii.ascii) : N :=
  let n := Ascii.N_of_ascii a in
  (if n <? 58 then n - 48 else n - 87)%N.

Definition byte_of_hex (s : string) : option Byte.byte :=
  match s with
  | String a (String b _) => Byte.of_N (16 * hex_value a + hex_value b)
  | _ => None
  end.

(** The store after a keep-alive request on the signaling socket of the
    established session. *)
Definition after_signaling_keep_alive : State :=
  Eval vm_compute in after sample (streaming_events ++ [on_message 0%nat keep_alive_frame 2000]).

(** Stop, then let the pending media timer run out. *)
Definition after_stale_media_timer : State :=
  Eval vm_compute in after sample (streaming_events
                ++ [on_close 1%nat; rtms_stopped "s1"; on_timeout 0%nat]).

(** The run up to the handshake response, which makes the first media
    connection attempt. *)
Definition handshake_events : list Event :=
  [rtms_started "s1" "st1" "wss://zoom"; on_open 0%nat;
   on_message 0%nat handshake_ok_frame 1000].

Definition handshaken : State := Eval vm_compute in after sample handshake_events.

(** Registry keys are distinct and every registered reference points at
    an allocated entity. *)
Definition registry_ok (s : State) : Prop :=
  NoDup (Map_keys (activeConnections s)) /\
  forall k c, (k, c) ∈ activeConnections s -> (c < length (heap s))%nat.


(** Socket [k] carries the listeners of a signaling connection. *)
Definition is_signaling (ws : list WebSocket) (k : SockId) : Prop :=
  exists sid stid c, listeners <$> ws !! k = Some (Some (SignalingListeners sid stid c)).

Definition timer_conn (t : Timer) : ConnRef :=
  match t with
  | SignalingRetry _ _ c | MediaRetry _ _ _ c => c
  end.

(** The variables captured by a set of listeners refer to things that
    exist: the entity is allocated, and the signaling handle given to a
    media connection is a socket with signaling listeners. *)
Definition listeners_wired (h : list Conn) (ws : list WebSocket)
    (l : option Listeners) : Prop :=
  match l with
  | Some (SignalingListeners _ _ c) => (c < length h)%nat
  | Some (MediaListeners _ _ _ ss c) =>
      (c < length h)%nat /\ exists ks, ss = Some ks /\ is_signaling ws ks
  | None => True
  end.

Definition wired (s : State) : Prop :=
  (forall k w, sockets s !! k = Some w ->
               listeners_wired (heap s) (sockets s) (listeners w)) /\
  (forall c cn, heap s !! c = Some cn ->
                exists ks, socket (signaling cn) = Some ks /\ is_signaling (sockets s) ks) /\
  (forall d t, (d, t) ∈ timers s -> (timer_conn t < length (heap s))%nat).

(** [wired], together with a socket known to be a signaling socket and an
    entity known to be allocated. *)
Definition wired_with (ks0 : option SockId) (c0 : option ConnRef) (s : State) : Prop :=
  wired s /\
  (forall k, ks0 = Some k -> is_signaling (sockets s) k) /\
  (forall c, c0 = Some c -> (c < length (heap s))%nat).

(** ** Further vocabulary *)

(** Two entities have the same identity: session, stream and endpoint. *)
Definition same_identity (cn cn' : Conn) : Prop :=
  sessionId cn' = sessionId cn /\
  streamId cn' = streamId cn /\
  serverUrls cn' = serverUrls cn.

(** Every pending timer of entity [c] in [l] was already pending in [T]. *)
Definition no_new_timer_for (c : ConnRef) (T l : list (Z * Timer)) : Prop :=
  forall d t, (d, t) ∈ l -> timer_conn t = c -> (d, t) ∈ T.

(** The calls in [l'] beyond those of [l] are all calls of [send]. *)
Definition only_sends_added (l l' : list Call) : Prop :=
  exists added, l' = (l ++ added)%list /\ forall c, c ∈ added -> exists k f, c = send k f.

(** Two stores differ in nothing but the console. *)
Definition same_but_console (s s' : State) : Prop :=
  s' = set_console (console s') s.

(** What an event may do to the pending timers: a closing socket sets at
    most one, of 3000 ms; a timer running out removes itself; nothing
    else touches them. *)
Definition timers_after (ev : Event) (before after_ : list (Z * Timer)) : Prop :=
  match ev with
  | on_close _ => after_ = before \/ exists t, after_ = (before ++ [(3000, t)])%list
  | on_timeout i => after_ = delete i before
  | _ => after_ = before
  end.

(** A sample run that ends with two stopped sessions' worth of history:
    the established session, its media socket closed, then stopped. *)
Definition stop_events : list Event :=
  (streaming_events ++ [on_close 1%nat; rtms_stopped "s1"])%list.

(** A field update that leaves the identity of an entity alone. *)
Definition keeps_identity (g : Conn -> Conn) : Prop := forall x, same_identity x (g x).

(** The entity captured by a set of listeners, the identifiers captured
    with it, the handshake request its 'open' listener sends, and the
    sub-record that listener marks as authenticated. *)
Definition listener_conn (l : Listeners) : ConnRef :=
  match l with
  | SignalingListeners _ _ c | MediaListeners _ _ _ _ c => c
  end.

Definition listener_session (l : Listeners) : string * string :=
  match l with
  | SignalingListeners sid stid _ | MediaListeners _ sid stid _ _ => (sid, stid)
  end.

Definition handshake_request (l : Listeners) (signature : string) : jsval :=
  match l with
  | SignalingListeners sid stid _ => signaling_handshakeMsg sid stid signature
  | MediaListeners _ sid stid _ _ => media_handshakeMsg sid stid signature
  end.

Definition listener_channel (l : Listeners) : (Channel -> Channel) -> Conn -> Conn :=
  match l with
  | SignalingListeners _ _ _ => on_signaling
  | MediaListeners _ _ _ _ _ => on_media
  end.

(** What a frame on a media socket of entity [conn] may do to the store
    [s0]: write the console, add calls of [send], and mark the media
    sub-record of [conn] as streaming. *)
Definition media_frame_of (conn : ConnRef) (s0 s : State) : Prop :=
  activeConnections s = activeConnections s0 /\
  sockets s = sockets s0 /\
  timers s = timers s0 /\
  (heap s = heap s0 \/
   heap s = alter (on_media (with_state streaming)) conn (heap s0)) /\
  only_sends_added (calls s0) (calls s).

(** A signaling message that asks for no action: not a keep-alive
    request, not a successful handshake response, not the terminal
    stream state. *)
Definition signaling_quiet (msg : jsval) : Prop :=
  exists t,
    get_prop msg "msg_type" = inr t /\
    is_num t 12 = false /\
    (is_num t 2 = true ->
     exists c, get_prop msg "status_code" = inr c /\ is_num c 0 = false) /\
    (is_num t 8 = true ->
     exists st r, get_prop msg "state" = inr st /\ get_prop msg "reason" = inr r /\
                  is_num r 6 && is_num st 4 = false).

(** ** The webhook endpoint, up to its response

    The handler of [app.post(config.webhookPath, ...)] answers every
    request before it dispatches the two RTMS events; what follows the
    answer is [handle].  [body] is [req.body] as the JSON middleware
    leaves it; [zoomSecretToken] is [config.zoomSecretToken], [None] when
    the variable is not set. *)

Inductive Response : Type :=
| res_json (status : Z) (body : jsval)   (* [res.status(n).json(body)]; [res.json] is status 200 *)
| res_sendStatus (code : Z).

(** [v === t] for a string literal [t]. *)
Definition is_str (v : jsval) (t : string) : bool :=
  match v with
  | JStr x => String.eqb x t
  | _ => false
  end.

(** [!config.zoomSecretToken]: not set, or set to the empty text. *)
Definition token_missing (zoomSecretToken : option string) : bool :=
  match zoomSecretToken with
  | None => true
  | Some t => String.eqb t ""
  end.

(** [event === 'endpoint.url_validation' && payload?.plainToken] *)
Definition is_url_validation (event payload : jsval) : bool :=
  is_str event "endpoint.url_validation" && truthy (opt_prop payload "plainToken").

Section FrontDoor.
Context {env : Environment}.

Definition webhook_respond (zoomSecretToken : option string) (body : jsval) : M Response :=
  let* event := lift (get_prop body "event") in
  let* payload := lift (get_prop body "payload") in
  let* e := interpolate event in
  console_write log_ "[Webhook] Event received:" [e] ;;
  (* Zoom URL Validation (CRC challenge) *)
  if is_url_validation event payload then
    if token_missing zoomSecretToken then
      console_write error_ "[Webhook] ZOOM_SECRET_TOKEN is not set - cannot validate URL" [] ;;
      ret (res_json 500 (JObj [("error", JStr "ZOOM_SECRET_TOKEN not configured")]))
    else
      match opt_prop payload "plainToken" with
      | JStr plainToken =>
          let hash := hex (hmac_sha256 (default "" zoomSecretToken) plainToken) in
          console_write log_ "[Webhook] URL validation response sent" [] ;;
          ret (res_json 200 (JObj [("plainToken", JStr plainToken);
                                   ("encryptedToken", JStr hash)]))
      | _ =>
          throw (TypeError "The data argument must be of type string, Buffer, TypedArray or DataView")
      end
  else
    (* Acknowledge all other events immediately *)
    ret (res_sendStatus 200).

End FrontDoor.

(** *** Further sample runs *)

(** The signaling socket of the established session has closed: its
    reconnection timer is pending, the gate is up. *)
Definition with_signaling_retry : State :=
  Eval vm_compute in after sample (streaming_events ++ [on_close 0%nat]).

(** A session stopped before its signaling socket has opened. *)
Definition stopped_before_open : State :=
  Eval vm_compute in after sample [rtms_started "s1" "st1" "wss://zoom"; rtms_stopped "s1"].

(** The sample environment with the client secret left out. *)
Definition sample_without_secret : Environment := {|
  clientId := Some "client";
  clientSecret := None;
  hmac_sha256 := sample_digest;
  hmac_sha256_length := fun key message => length_replicate 32 _;
  ws_url_ok := @ws_url_ok sample;
  Buffer_from_throws := @Buffer_from_throws sample
|}.

(** Sample frames and requests. *)
Definition transcript_msg : jsval :=
  JObj [("msg_type", JNum 17);
        ("content", JObj [("user_name", JStr "ann"); ("data", JStr "hello")])].

Definition session_state_msg : jsval :=
  JObj [("msg_type", JNum 9); ("state", JNum 2)].

Definition handshake_ok_msg : jsval :=
  JObj [("msg_type", JNum 2); ("status_code", JNum 0);
        ("media_server",
         JObj [("server_urls", JObj [("audio", JStr "wss://media")])])].

Definition validation_request : jsval :=
  JObj [("event", JStr "endpoint.url_validation");
        ("payload", JObj [("plainToken", JStr "abc")])].

(** ** The health check: [app.get('/', ...)] *)

Definition health (s : State) : Response :=
  res_json 200 (JObj [("status", JStr "running");
                      ("activeSessions",
                       JNum (Z.of_nat (length (activeConnections s))))]).

(** ** Reasoning about computations *)

Section Preservation.
Context {A : Type} (I : State -> Prop).

Lemma preserves_ret (a : A) : preserves I (ret a).
Proof. intros s Hs. exact Hs. Qed.

Lemma preserves_throw (e : Exn) : preserves I (@throw A e).
Proof. intros s Hs. exact Hs. Qed.

Lemma preserves_gets (f : State -> A) : preserves I (gets f).
Proof. intros s Hs. exact Hs. Qed.

Lemma preserves_lift (x : Exn + A) : preserves I (lift x).
Proof. destruct x; intros s Hs; exact Hs. Qed.

Lemma preserves_try_catch (m : M A) (h : Exn -> M A) :
  preserves I m -> (forall e, preserves I (h e)) -> preserves I (try_catch m h).
Proof.
  intros Hm Hh s Hs. unfold try_catch. specialize (Hm s Hs).
  destruct (m s) as [a s'|e s']; simpl in *; [exact Hm | exact (Hh e s' Hm)].
Qed.

End Preservation.

Lemma preserves_bind {A B} (I : State -> Prop) (m : M A) (k : A -> M B) :
  preserves I m -> (forall a, preserves I (k a)) -> preserves I (bind m k).
Proof.
  intros Hm Hk s Hs. unfold bind. specialize (Hm s Hs).
  destruct (m s) as [a s'|e s']; simpl in *; [exact (Hk a s' Hm) | exact Hm].
Qed.

(** After [x] has been read without an exception, its value is known. *)
Lemma preserves_bind_lift {A B} (I : State -> Prop) (x : Exn + A) (k : A -> M B) :
  (forall a, x = inr a -> preserves I (k a)) -> preserves I (bind (lift x) k).
Proof.
  intros Hk s Hs. unfold bind. destruct x as [e|a]; simpl; [exact Hs|].
  exact (Hk a eq_refl s Hs).
Qed.

Lemma preserves_modify (I : State -> Prop) (f : State -> State) :
  (forall s, I s -> I (f s)) -> preserves I (modify f).
Proof. intros Hf s Hs. exact (Hf s Hs). Qed.

Lemma preserves_interpolate (I : State -> Prop) (v : jsval) :
  preserves I (interpolate v).
Proof. unfold interpolate. destruct (ToString_throws v); intros s Hs; exact Hs. Qed.

Lemma preserves_for_each {A} (I : State -> Prop) (l : list A) (body : A -> M unit) :
  (forall x, x ∈ l -> preserves I (body x)) -> preserves I (for_each l body).
Proof.
  induction l as [|x l IH]; intros Hb; simpl.
  - apply preserves_ret.
  - apply preserves_bind.
    + apply Hb. left.
    + intros _. apply IH. intros y Hy. apply Hb. right. exact Hy.
Qed.

(** Breaks a computation into its primitive steps. *)
Ltac pres_step :=
  lazymatch goal with
  | |- preserves _ (bind _ _) => apply preserves_bind; [| intros ?]
  | |- preserves _ (ret _) => apply preserves_ret
  | |- preserves _ (throw _) => apply preserves_throw
  | |- preserves _ (gets _) => apply preserves_gets
  | |- preserves _ (lift _) => apply preserves_lift
  | |- preserves _ (interpolate _) => apply preserves_interpolate
  | |- preserves _ (try_catch _ _) => apply preserves_try_catch; [| intros ?]
  | |- preserves _ (for_each _ _) => apply preserves_for_each; intros ? ?
  | |- preserves _ (if ?b then _ else _) => destruct b
  | |- preserves _ (match ?x with _ => _ end) => destruct x
  end.

Ltac pres := repeat pres_step.

(** *** Invariants of the store

    A property of the store that no write of the program can break is
    kept by every event.  The writes are: the console, the call record,
    the timers, the sockets, a field of a sub-record of an entity, the
    reconnect gate being lowered, the removal of a registry entry, and
    the allocations and the registration made by
    [connectToSignalingWebSocket]. *)

Section StoreInvariant.
Context {env : Environment}.
Variable I : State -> Prop.
Hypothesis I_console : forall l s, I s -> I (set_console l s).
Hypothesis I_calls : forall c s, I s -> I (set_calls c s).
Hypothesis I_timers : forall t s, I s -> I (set_timers t s).
Hypothesis I_sockets : forall w s, I s -> I (set_sockets w s).
Hypothesis I_on_signaling : forall f c s,
  I s -> I (set_heap (alter (on_signaling f) c (heap s)) s).
Hypothesis I_on_media : forall f c s,
  I s -> I (set_heap (alter (on_media f) c (heap s)) s).
Hypothesis I_stop : forall c s,
  I s -> I (set_heap (alter (with_shouldReconnect false) c (heap s)) s).
Hypothesis I_delete : forall k s,
  I s -> I (set_activeConnections (Map_delete k (activeConnections s)) s).
Hypothesis I_connect : forall sid stid u c,
  preserves I (connectToSignalingWebSocket sid stid u c).

Ltac leaf :=
  lazymatch goal with
  | |- preserves _ (modify _) =>
      let s := fresh "s" in
      let Hs := fresh "Hs" in
      apply preserves_modify; intros s Hs;
      first [ apply I_console | apply I_calls | apply I_timers | apply I_sockets
            | apply I_on_signaling | apply I_on_media | apply I_stop
            | apply I_delete ]; exact Hs
  | |- preserves _ (connectToSignalingWebSocket _ _ _ _) => apply I_connect
  | |- preserves _ (update _ (on_channel ?ty _)) =>
      is_var ty; destruct ty; unfold on_channel
  | |- preserves _ (update _ _) => unfold update
  | |- preserves _ (console_write _ _ _) => unfold console_write
  | |- preserves _ (record_call _) => unfold record_call
  end.

Ltac store := repeat first [pres_step | leaf].

Lemma store_connectToMediaWebSocket u sid stid ss c :
  preserves I (connectToMediaWebSocket u sid stid ss c).
Proof.
  unfold connectToMediaWebSocket, WebSocket_new, ws_on.
  store.
Qed.

Lemma store_cleanupConnection sid : preserves I (cleanupConnection sid).
Proof.
  unfold cleanupConnection, cleanup_channel, deref, ws_once_open_close, ws_close.
  store.
Qed.

Lemma store_handleMediaMessage data c k ss sid stid :
  preserves I (handleMediaMessage data c k ss sid stid).
Proof.
  unfold handleMediaMessage, JSON_parse, send_on, binary_payload, text_payload,
    ws_send.
  store.
Qed.

Ltac leaf' :=
  lazymatch goal with
  | |- preserves _ (connectToMediaWebSocket _ _ _ _ _) =>
      apply store_connectToMediaWebSocket
  | |- preserves _ (cleanupConnection _) => apply store_cleanupConnection
  | |- preserves _ (handleMediaMessage _ _ _ _ _ _) =>
      apply store_handleMediaMessage
  end.

Ltac store' := repeat first [pres_step | leaf | leaf'].

Lemma store_signaling_on_message k sid stid c data now :
  preserves I (signaling_on_message k sid stid c data now).
Proof.
  unfold signaling_on_message, signaling_event, ws_send.
  store'.
Qed.

Theorem store_handle ev : preserves I (handle ev).
Proof.
  pose proof store_signaling_on_message as Hsig.
  destruct ev; unfold handle, emit_open, emit_message, emit_close, emit_error, fire,
    mark, signaling_on_open, media_on_open, signaling_on_close, media_on_close,
    signaling_on_error, media_on_error, run_timer, setTimeout, deref,
    generateSignature, ws_send, ws_close;
    store'; try apply Hsig.
Qed.

Theorem store_reachable s : I initial -> reachable s -> I s.
Proof.
  intros H0. induction 1 as [|s ev Hr IH He].
  - exact H0.
  - apply store_handle. exact IH.
Qed.

End StoreInvariant.

(** ** The session registry *)

Lemma Map_get_set k v m : Map_get k (Map_set k v m) = Some v.
Proof.
  induction m as [|[k' v'] m IH]; simpl.
  - rewrite String.eqb_refl. reflexivity.
  - destruct (String.eqb k k') eqn:E; simpl; rewrite E; [reflexivity | exact IH].
Qed.

Lemma Map_get_delete k m : Map_get k (Map_delete k m) = None.
Proof.
  induction m as [|[k' v'] m IH]; simpl; [reflexivity|].
  destruct (String.eqb k k') eqn:E; simpl; [|rewrite E]; exact IH.
Qed.

Lemma Map_get_elem_of k v m : Map_get k m = Some v -> (k, v) ∈ m.
Proof.
  induction m as [|[k' v'] m IH]; simpl; [discriminate|].
  destruct (String.eqb k k') eqn:E.
  - apply String.eqb_eq in E. intros [= ->]. subst. left.
  - intros H. right. exact (IH H).
Qed.

Lemma Map_set_elem_of k v m x :
  x ∈ Map_set k v m -> x ∈ m \/ x = (k, v).
Proof.
  induction m as [|[k' v'] m IH]; simpl.
  - intros H%list_elem_of_singleton. right. exact H.
  - destruct (String.eqb k k') eqn:E.
    + apply String.eqb_eq in E. subst k'.
      intros [->|H]%elem_of_cons; [right; reflexivity | left; right; exact H].
    + intros [->|H]%elem_of_cons; [left; left|].
      destruct (IH H) as [H'|H']; [left; right; exact H' | right; exact H'].
Qed.

Lemma Map_delete_elem_of k m x : x ∈ Map_delete k m -> x ∈ m.
Proof.
  induction m as [|[k' v'] m IH]; simpl; [trivial|].
  destruct (String.eqb k k').
  - intros H. right. exact (IH H).
  - intros [->|H]%elem_of_cons; [left | right; exact (IH H)].
Qed.

Lemma Map_set_keys k v m :
  Map_keys (Map_set k v m)
  = if bool_decide (Map_get k m = None) then (Map_keys m ++ [k])%list else Map_keys m.
Proof.
  induction m as [|[k' v'] m IH]; simpl; [reflexivity|].
  destruct (String.eqb k k') eqn:E; simpl.
  - reflexivity.
  - rewrite IH. destruct (bool_decide (Map_get k m = None)); reflexivity.
Qed.

Lemma Map_get_None_keys k m : Map_get k m = None -> k ∉ Map_keys m.
Proof.
  induction m as [|[k' v'] m IH]; simpl.
  - intros _ H. inversion H.
  - destruct (String.eqb k k') eqn:E; [discriminate|].
    apply String.eqb_neq in E.
    intros H [->|Hin]%elem_of_cons; [congruence | exact (IH H Hin)].
Qed.

Lemma Map_set_NoDup k v m : NoDup (Map_keys m) -> NoDup (Map_keys (Map_set k v m)).
Proof.
  intros Hm. rewrite Map_set_keys. case_bool_decide as Hk; [|exact Hm].
  apply NoDup_app. split; [exact Hm|]. split.
  - intros x Hx ->%list_elem_of_singleton. exact (Map_get_None_keys _ _ Hk Hx).
  - apply NoDup_singleton.
Qed.

Lemma Map_delete_keys_sublist k m : Map_keys (Map_delete k m) `sublist_of` Map_keys m.
Proof.
  induction m as [|[k' v'] m IH]; simpl; [constructor|].
  destruct (String.eqb k k'); simpl.
  - apply sublist_cons. exact IH.
  - apply sublist_skip. exact IH.
Qed.

Lemma Map_delete_NoDup k m : NoDup (Map_keys m) -> NoDup (Map_keys (Map_delete k m)).
Proof. intros H. exact (sublist_NoDup _ _ H (Map_delete_keys_sublist k m)). Qed.

Lemma entries_for_NoDup sid m : NoDup (Map_keys m) -> (entries_for sid m <= 1)%nat.
Proof.
  unfold entries_for. induction m as [|[k v] m IH]; simpl; [lia|].
  intros [Hk Hm]%NoDup_cons. specialize (IH Hm).
  destruct (String.eqb k sid) eqn:E; simpl; [|exact IH].
  apply String.eqb_eq in E. subst k.
  assert (List.filter (fun kv => String.eqb (fst kv) sid) m = []) as ->; [|simpl; lia].
  clear IH Hm. induction m as [|[k v'] m IH]; simpl; [reflexivity|].
  destruct (String.eqb k sid) eqn:E.
  - apply String.eqb_eq in E. subst k. exfalso. apply Hk. simpl. left.
  - apply IH. intros H. apply Hk. simpl. right. exact H.
Qed.

(** [Map.set] on a key that is present overwrites the value in place. *)
Lemma entries_for_set_present sid c0 v m sid' :
  Map_get sid m = Some c0 -> entries_for sid' (Map_set sid v m) = entries_for sid' m.
Proof.
  unfold entries_for. induction m as [|[k v'] m IH]; simpl; [discriminate|].
  destruct (String.eqb sid k) eqn:E; simpl.
  - intros _. destruct (String.eqb k sid'); reflexivity.
  - intros H. destruct (String.eqb k sid'); simpl; rewrite (IH H); reflexivity.
Qed.

Section Registry.
Context {env : Environment}.

Lemma registry_ok_connect sid stid u c :
  preserves registry_ok (connectToSignalingWebSocket sid stid u c).
Proof.
  intros s [Hnd Href]. unfold connectToSignalingWebSocket, WebSocket_new.
  cbn. destruct (negb _ || negb _); cbn; [split; assumption|].
  destruct (ws_url_ok (JStr u)); cbn; [|split; assumption].
  destruct c as [c|]; cbn; unfold registry_ok; simpl.
  - split; [exact Hnd|]. intros k c' H. rewrite !length_alter. exact (Href k c' H).
  - split; [apply Map_set_NoDup; exact Hnd|].
    intros k c' H. rewrite !length_alter, length_app. simpl.
    apply Map_set_elem_of in H as [H|[= _ ->]]; [|lia].
    specialize (Href k c' H). lia.
Qed.

Lemma registry_ok_reachable s : reachable s -> registry_ok s.
Proof.
  apply store_reachable.
  - intros l s0 H; exact H.
  - intros l s0 H; exact H.
  - intros l s0 H; exact H.
  - intros l s0 H; exact H.
  - intros f c s0 [H1 H2]; split; [exact H1|]. simpl. intros. rewrite length_alter. eauto.
  - intros f c s0 [H1 H2]; split; [exact H1|]. simpl. intros. rewrite length_alter. eauto.
  - intros c s0 [H1 H2]; split; [exact H1|]. simpl. intros. rewrite length_alter. eauto.
  - intros k s0 [H1 H2]; split; simpl.
    + apply Map_delete_NoDup. exact H1.
    + intros k' c H. apply Map_delete_elem_of in H. eauto.
  - apply registry_ok_connect.
  - split; [constructor|]. intros k c H. inversion H.
Qed.

End Registry.

Section RegistryClaims.
Context {env : Environment}.

Lemma run_reachable evs s s' : reachable s -> run evs s = Some s' -> reachable s'.
Proof.
  revert s. induction evs as [|ev evs IH]; simpl; intros s Hs.
  - intros [= <-]. exact Hs.
  - destruct (enabled ev s) eqn:E; [|discriminate].
    apply IH. apply reachable_step; assumption.
Qed.

(** C1 (as amended).  At every moment the registry holds at most one
    entry per sessionId.  When the connect entry point is invoked with no
    existing entity for a sessionId that is already registered, with an
    endpoint that has a WebSocket scheme and that the socket library
    accepts, no second registry entry appears; but the registered entity
    is not reused: a new entity is allocated, it takes the place of the
    previous one under that sessionId, and the previous entity stays in
    the store as it was. *)
Theorem C1_one_entry_per_session_but_entity_replaced (s : State) :
  reachable s ->
  (forall sid, (entries_for sid (activeConnections s) <= 1)%nat) /\
  (forall sid stid u c0,
     Map_get sid (activeConnections s) = Some c0 ->
     String.prefix "ws" u = true ->
     ws_url_ok (JStr u) = true ->
     exists s',
       handle (rtms_started sid stid u) s = Return tt s' /\
       (forall sid', entries_for sid' (activeConnections s')
                     = entries_for sid' (activeConnections s)) /\
       Map_get sid (activeConnections s') = Some (length (heap s)) /\
       c0 <> length (heap s) /\
       length (heap s') = S (length (heap s)) /\
       heap s' !! c0 = heap s !! c0).
Proof.
  intros Hr. destruct (registry_ok_reachable s Hr) as [Hnd Href]. split.
  - intros sid. apply entries_for_NoDup. exact Hnd.
  - intros sid stid u c0 Hget Hws Hok.
    assert (c0 < length (heap s))%nat as Hc0
      by (apply (Href sid), Map_get_elem_of, Hget).
    assert (truthy (JStr u) = true) as Ht by (destruct u; [discriminate | reflexivity]).
    eexists. split.
    + cbn -[String.prefix truthy]. unfold connectToSignalingWebSocket, WebSocket_new.
      cbn -[String.prefix truthy]. rewrite Ht, Hws. cbn. rewrite Hok. cbn. reflexivity.
    + simpl. split; [|split; [|split; [|split]]].
      * intros sid'. eapply entries_for_set_present. exact Hget.
      * apply Map_get_set.
      * lia.
      * rewrite !length_alter, length_app. simpl. lia.
      * rewrite !list_lookup_alter_ne by lia. apply lookup_app_l. exact Hc0.
Qed.

End RegistryClaims.

(** Starting the same session twice: the second start allocates entity 1
    and registers it in place of entity 0, which is left behind with its
    reconnect gate still up. *)
Lemma C1_duplicate_start_allocates_second_entity :
  Map_get "s1" (activeConnections started_once) = Some 0%nat /\
  Map_get "s1" (activeConnections started_twice) = Some 1%nat /\
  length (heap started_once) = 1%nat /\
  length (heap started_twice) = 2%nat /\
  shouldReconnect <$> heap started_twice !! 0%nat = Some true.
Proof. vm_compute. repeat split. Qed.

Lemma C1_witness :
  (forall sid, (entries_for sid (activeConnections started_once) <= 1)%nat) /\
  exists s',
    @handle sample (rtms_started "s1" "st1" "wss://zoom") started_once = Return tt s' /\
    (forall sid', entries_for sid' (activeConnections s')
                  = entries_for sid' (activeConnections started_once)) /\
    Map_get "s1" (activeConnections s') = Some (length (heap started_once)) /\
    0%nat <> length (heap started_once) /\
    length (heap s') = S (length (heap started_once)) /\
    heap s' !! 0%nat = heap started_once !! 0%nat.
Proof.
  assert (@reachable sample started_once) as Hr.
  { apply (run_reachable [rtms_started "s1" "st1" "wss://zoom"] initial).
    - apply reachable_initial.
    - vm_compute. reflexivity. }
  destruct (@C1_one_entry_per_session_but_entity_replaced sample started_once Hr)
    as [H1 H2].
  split; [exact H1|].
  exact (H2 "s1" "st1" "wss://zoom" 0%nat eq_refl eq_refl eq_refl).
Defined.

(** ** Connection cleanup *)

Section Cleanup.
Context {env : Environment}.

Lemma alter_lookup_total_hit (f : Conn -> Conn) (h : list Conn) c cn :
  h !! c = Some cn -> alter f c h !!! c = f cn.
Proof.
  intros H. rewrite list_lookup_total_alter_eq.
  - rewrite (list_lookup_total_correct _ _ _ H). reflexivity.
  - eapply lookup_lt_Some. exact H.
Qed.

Lemma alter_lookup_hit (f : Conn -> Conn) (h : list Conn) c cn :
  h !! c = Some cn -> alter f c h !! c = Some (f cn).
Proof. intros H. rewrite list_lookup_alter_eq, H. reflexivity. Qed.

Lemma close_request_same_connecting s s' o :
  same_connecting s s' -> close_request s' o = close_request s o.
Proof.
  intros H. destruct o as [ws|]; [|reflexivity]. simpl. specialize (H ws).
  destruct (socket_readyState ws s') as [[]|], (socket_readyState ws s) as [[]|];
    try reflexivity;
    try (destruct H as [H _]; specialize (H eq_refl); discriminate);
    try (destruct H as [_ H]; specialize (H eq_refl); discriminate).
Qed.

Lemma connecting_after_close (ws : nat) (l : list WebSocket) (k : nat) :
  readyState <$> l !! ws <> Some CONNECTING ->
  readyState <$> alter (fun w => with_readyState (closing (readyState w)) w) ws l !! k
    = Some CONNECTING
  <-> readyState <$> l !! k = Some CONNECTING.
Proof.
  intros Hws. rewrite list_lookup_alter. case_decide as E; [subst k|reflexivity].
  destruct (l !! ws) as [w|]; simpl in *; [|reflexivity].
  destruct (readyState w); simpl; split; intros H; congruence.
Qed.

Lemma connecting_after_once (ws : nat) (l : list WebSocket) (k : nat) :
  readyState <$> alter (fun w => with_onceOpenClose (S (onceOpenClose w)) w) ws l !! k
    = Some CONNECTING
  <-> readyState <$> l !! k = Some CONNECTING.
Proof.
  rewrite list_lookup_alter. case_decide as E; [subst k|reflexivity].
  destruct (l !! ws) as [w|]; simpl; reflexivity.
Qed.

(** One round of the cleanup loop. *)
Lemma cleanup_channel_spec conn ty s cn :
  heap s !! conn = Some cn ->
  exists s' cn',
    cleanup_channel conn ty s = Return tt s' /\
    activeConnections s' = activeConnections s /\
    timers s' = timers s /\
    console s' = console s /\
    calls s' = (calls s ++ close_request s (socket (channel ty cn)))%list /\
    length (sockets s') = length (sockets s) /\
    length (heap s') = length (heap s) /\
    same_connecting s s' /\
    heap s' !! conn = Some cn' /\
    shouldReconnect cn' = shouldReconnect cn /\
    socket (signaling cn') = socket (signaling cn) /\
    socket (media cn') = socket (media cn).
Proof.
  intros Hc. unfold cleanup_channel, deref, bind, gets.
  rewrite (list_lookup_total_correct _ _ _ Hc).
  destruct (socket (channel ty cn)) as [ws|] eqn:Hws; cbn.
  - change (socket_readyState ws (set_heap ?h s)) with (socket_readyState ws s).
    unfold same_connecting.
    destruct (socket_readyState ws s) as [r|] eqn:Er; [destruct r|]; cbn;
      (eexists _, (on_channel ty (with_state closed) cn);
       split; [reflexivity|]; simpl; rewrite ?length_alter;
       repeat split; try reflexivity;
       try (apply alter_lookup_hit; exact Hc);
       try (destruct ty; reflexivity);
       unfold socket_readyState in *; simpl;
       first [ apply connecting_after_once
             | apply connecting_after_close; intros Hr;
               pose proof (eq_trans (eq_sym Er) Hr); discriminate ]).
  - exists s, cn. repeat split; try reflexivity; try exact Hc; try (intros H; exact H).
    rewrite app_nil_r. reflexivity.
Qed.

(** [cleanupConnection] on a registered session. *)
Lemma cleanupConnection_registered sid s c cn :
  Map_get sid (activeConnections s) = Some c ->
  heap s !! c = Some cn ->
  exists s',
    cleanupConnection sid s = Return tt s' /\
    Map_get sid (activeConnections s') = None /\
    shouldReconnect <$> heap s' !! c = Some false /\
    calls s' = (calls s ++ close_request s (socket (signaling cn))
                        ++ close_request s (socket (media cn)))%list /\
    timers s' = timers s /\
    length (sockets s') = length (sockets s) /\
    length (heap s') = length (heap s).
Proof.
  intros Hget Hc. unfold cleanupConnection, bind at 1, gets. rewrite Hget.
  cbn [for_each]. unfold console_write, update, modify, bind at 1 2 3.
  set (s1 := set_heap _ _).
  assert (heap s1 !! c = Some (with_shouldReconnect false cn)) as Hc1
    by (apply alter_lookup_hit; exact Hc).
  destruct (cleanup_channel_spec c signaling_ s1 _ Hc1)
    as (s2 & cn2 & E2 & Hreg2 & Ht2 & _ & Hcalls2 & Hlen2 & Hh2 & Hsame2 & Hc2 & Hsr2 & Hss2 & Hsm2).
  unfold bind at 1. rewrite E2. unfold bind at 1.
  destruct (cleanup_channel_spec c media_ s2 _ Hc2)
    as (s3 & cn3 & E3 & Hreg3 & Ht3 & _ & Hcalls3 & Hlen3 & Hh3 & Hsame3 & Hc3 & Hsr3 & _ & _).
  rewrite E3. cbn. eexists. split; [reflexivity|]. simpl.
  repeat split.
  - apply Map_get_delete.
  - rewrite Hc3. simpl. rewrite Hsr3, Hsr2. reflexivity.
  - rewrite Hcalls3, Hcalls2. simpl in *. rewrite Hsm2.
    rewrite (close_request_same_connecting s1 s2) by exact Hsame2.
    rewrite <- app_assoc. reflexivity.
  - rewrite Ht3, Ht2. reflexivity.
  - rewrite Hlen3, Hlen2. reflexivity.
  - rewrite Hh3, Hh2. subst s1. simpl. apply length_alter.
Qed.

End Cleanup.

(** ** Message dispatch *)

Section Dispatch.
Context {env : Environment}.

Ltac enter_message H :=
  cbn [handle]; unfold emit_message, bind at 1, gets at 1;
  unfold signaling_socket, media_socket in H; rewrite H; cbn [fmap option_fmap option_map].

(** C9.  A frame that does not parse as JSON is logged and dropped: on
    the signaling channel and on the media channel alike the handler
    returns normally and the store differs from the one before by the
    one console line only, so neither sub-record, no socket, no timer and
    no registry entry is touched and nothing is sent. *)
Theorem C9_malformed_frame_is_logged_and_dropped (s : State) (k : SockId) (now : Z) :
  (forall sid stid conn,
     signaling_socket s k sid stid conn ->
     handle (on_message k Unparseable now) s
     = Return tt (set_console
         (console s ++ [mkLog warn_ "[Signaling] Invalid JSON received" []]) s)) /\
  (forall u sid stid ss conn,
     media_socket s k u sid stid ss conn ->
     handle (on_message k Unparseable now) s
     = Return tt (set_console
         (console s ++ [mkLog error_ "[Media] Failed to parse message:" []]) s)).
Proof.
  split.
  - intros sid stid conn H. enter_message H. reflexivity.
  - intros u sid stid ss conn H. enter_message H. reflexivity.
Qed.

(** C8 (as amended).  A keep-alive request (msg_type 12) is answered on
    the socket it arrived on by a msg_type 13 frame carrying the
    request's timestamp.  On the media channel that call is the only
    effect.  On the signaling channel the handler also records the time
    of receipt in the entity's signaling [lastKeepAlive], and that call
    and that write are the only effects. *)
Theorem C8_keep_alive_is_echoed (s : State) (k : SockId) (now : Z) (msg : jsval) :
  get_prop msg "msg_type" = inr (JNum 12) ->
  (forall u sid stid ss conn,
     media_socket s k u sid stid ss conn ->
     handle (on_message k (Json msg) now) s
     = Return tt (set_calls (calls s ++ [send k (keep_alive_response msg)]) s)) /\
  (forall sid stid conn,
     signaling_socket s k sid stid conn ->
     handle (on_message k (Json msg) now) s
     = Return tt
         (set_calls (calls s ++ [send k (keep_alive_response msg)])
            (set_heap
               (alter (on_signaling (with_lastKeepAlive (Some now))) conn (heap s)) s))).
Proof.
  intros Hm.
  assert (get_prop msg "timestamp" = inr (opt_prop msg "timestamp")) as Ht
    by (unfold opt_prop; destruct msg; try discriminate Hm; reflexivity).
  split.
  - intros u sid stid ss conn H. enter_message H.
    unfold handleMediaMessage, try_catch, bind. cbn. rewrite Hm. cbn.
    rewrite Ht. reflexivity.
  - intros sid stid conn H. enter_message H.
    unfold signaling_on_message, bind. cbn. rewrite Hm. cbn.
    rewrite Ht. reflexivity.
Qed.

(** C3 (the code departs from it).  Exceptions leave the signaling
    message handler.  A frame whose JSON text is [null] parses without
    error; reading [msg.msg_type] then throws a [TypeError] outside the
    one [try] of the listener.  And a handshake response with status 0
    and no media endpoint makes the listener hand [undefined] to
    [new WebSocket]; when the library rejects that address, the
    [SyntaxError] leaves the handler, after the signaling sub-state was
    set to "ready". *)
Theorem C3_signaling_handler_throws (s : State) (k : SockId) (now : Z)
    (sid stid : string) (conn : ConnRef) :
  signaling_socket s k sid stid conn ->
  handle (on_message k (Json JNull) now) s
  = Throw (TypeError "Cannot read properties of null or undefined") s /\
  (ws_url_ok JUndefined = false ->
   forall msg,
     get_prop msg "msg_type" = inr (JNum 2) ->
     get_prop msg "status_code" = inr (JNum 0) ->
     get_prop msg "media_server" = inr JUndefined ->
     exists s',
       handle (on_message k (Json msg) now) s = Throw (SyntaxError "Invalid URL") s' /\
       heap s' = alter (on_signaling (with_state ready)) conn (heap s) /\
       sockets s' = sockets s).
Proof.
  intros H. split.
  - enter_message H. reflexivity.
  - intros Hu msg Hm Hs He. enter_message H.
    unfold signaling_on_message, bind. cbn. rewrite Hm. cbn. rewrite Hs. cbn.
    assert (opt_prop msg "media_server" = JUndefined) as ->
      by (unfold opt_prop; rewrite He; reflexivity).
    cbn. unfold connectToMediaWebSocket, WebSocket_new, bind. cbn. rewrite Hu.
    cbn. eexists. split; [reflexivity|]. split; reflexivity.
Qed.

(** The media handler, in contrast, keeps every failure inside: whatever
    the frame, it returns. *)
Lemma handleMediaMessage_returns data conn k ss sid stid s :
  exists s', handleMediaMessage data conn k ss sid stid s = Return tt s'.
Proof.
  unfold handleMediaMessage, try_catch.
  match goal with |- context [match ?m s with _ => _ end] => destruct (m s) as [[] s'|e s'] end.
  - eexists. reflexivity.
  - eexists. reflexivity.
Qed.

End Dispatch.

(** ** Teardown and reconnection *)

Section Lifecycle.
Context {env : Environment}.

Ltac enter_event H :=
  cbn [handle]; unfold emit_message, emit_close, bind at 1, gets at 1;
  unfold signaling_socket, media_socket in H; rewrite H; cbn [fmap option_fmap option_map].

(** C5.  When a signaling socket of a registered session receives a
    STREAM_STATE_CHANGED frame (msg_type 8) with state 4 and reason 6,
    the handler returns with the session torn down: the sessionId is no
    longer in the registry, the reconnect gate of the entity that was
    registered is down, each of its two sockets has been asked to close
    (at once, or by a one-shot 'open' listener while it is connecting),
    and nothing reconnects: no socket is created and no timer is set. *)
Theorem C5_terminal_stream_state_tears_down (s : State) (k : SockId) (now : Z)
    (msg : jsval) (sid stid : string) (conn0 c : ConnRef) :
  reachable s ->
  signaling_socket s k sid stid conn0 ->
  get_prop msg "msg_type" = inr (JNum 8) ->
  get_prop msg "state" = inr (JNum 4) ->
  get_prop msg "reason" = inr (JNum 6) ->
  Map_get sid (activeConnections s) = Some c ->
  let cn := heap s !!! c in
  exists s',
    handle (on_message k (Json msg) now) s = Return tt s' /\
    Map_get sid (activeConnections s') = None /\
    shouldReconnect <$> heap s' !! c = Some false /\
    calls s' = (calls s ++ close_request s (socket (signaling cn))
                        ++ close_request s (socket (media cn)))%list /\
    timers s' = timers s /\
    length (sockets s') = length (sockets s).
Proof.
  intros Hr H Hm Hst Hre Hget cn.
  assert (heap s !! c = Some cn) as Hc.
  { apply list_lookup_lookup_total_lt.
    apply (proj2 (registry_ok_reachable s Hr) sid), Map_get_elem_of, Hget. }
  enter_event H.
  unfold signaling_on_message, bind. cbn -[cleanupConnection]. rewrite Hm.
  cbn -[cleanupConnection]. rewrite Hst. cbn -[cleanupConnection]. rewrite Hre.
  cbn -[cleanupConnection].
  match goal with |- context [cleanupConnection sid ?x] => set (s1 := x) end.
  destruct (cleanupConnection_registered sid s1 c cn Hget Hc)
    as (s' & E & Hreg & Hsr & Hcalls & Ht & Hlen & _).
  rewrite E. exists s'. repeat split; assumption.
Qed.

Lemma for_each_ws_close (n : nat) (k : SockId) (s : State) :
  exists s',
    for_each (replicate n k) ws_close s = Return tt s' /\
    calls s' = (calls s ++ replicate n (close k))%list /\
    timers s' = timers s /\
    length (sockets s') = length (sockets s).
Proof.
  revert s. induction n as [|n IH]; intros s; simpl.
  - exists s. rewrite app_nil_r. repeat split; reflexivity.
  - unfold bind at 1. cbn.
    match goal with |- context [for_each _ _ ?x] => destruct (IH x) as (s' & E & Hc & Ht & Hl) end.
    exists s'. split; [exact E|]. simpl in *. rewrite length_alter in Hl.
    rewrite <- app_assoc in Hc. repeat split; assumption.
Qed.

(** The deferred request is honoured: a socket of a stopped entity is
    closed by its own 'open' listener, and once more by each one-shot
    listener, as soon as it opens; nothing is sent on it. *)
Lemma stopped_socket_closes_on_open (s : State) (k : SockId) (w : WebSocket)
    (conn : ConnRef) :
  sockets s !! k = Some w ->
  match listeners w with
  | Some (SignalingListeners _ _ c) | Some (MediaListeners _ _ _ _ c) => c = conn
  | None => False
  end ->
  stopped conn s ->
  exists s',
    handle (on_open k) s = Return tt s' /\
    calls s' = (calls s ++ close k :: replicate (onceOpenClose w) (close k))%list /\
    timers s' = timers s /\
    length (sockets s') = length (sockets s).
Proof.
  intros Hk Hl Hstop. unfold stopped in Hstop.
  destruct (heap s !! conn) as [cn|] eqn:Hc; [|discriminate].
  injection Hstop as Hsr.
  cbn [handle]. unfold emit_open, bind at 1, gets at 1. rewrite Hk.
  assert (forall s0 : State, heap s0 = heap s -> heap s0 !!! conn = cn) as Hd
    by (intros s0 ->; apply list_lookup_total_correct; exact Hc).
  destruct (listeners w) as [[sid stid c|u sid stid ss c]|]; [subst c..|contradiction].
  all: unfold signaling_on_open, media_on_open, deref, mark, bind, gets, modify;
    cbn -[for_each]; rewrite (Hd s eq_refl), Hsr; cbn -[for_each].
  all: match goal with |- context [for_each _ _ ?x] =>
         destruct (for_each_ws_close (onceOpenClose w) k x) as (s' & E & Hcs & Ht & Hl)
       end.
  all: exists s'; split; [exact E|]; simpl in *; rewrite !length_alter in Hl;
    rewrite <- app_assoc in Hcs; repeat split; assumption.
Qed.

(** *** The reconnect gate *)

Lemma stopped_connect c sid stid u existing :
  preserves (stopped c) (connectToSignalingWebSocket sid stid u existing).
Proof.
  intros s Hs. unfold stopped in *.
  unfold connectToSignalingWebSocket, WebSocket_new.
  cbn. destruct (negb _ || negb _); cbn; [exact Hs|].
  destruct (ws_url_ok (JStr u)); cbn; [|exact Hs].
  assert (forall f (h : list Conn), shouldReconnect <$> h !! c = Some false ->
            forall c', shouldReconnect <$> alter (on_signaling f) c' h !! c = Some false)
    as Halter.
  { intros f h Hh c'. rewrite list_lookup_alter.
    case_decide; [subst c'|exact Hh].
    destruct (h !! c); [exact Hh | discriminate]. }
  destruct existing as [c'|]; cbn; simpl; apply Halter, Halter; [exact Hs|].
  destruct (heap s !! c) as [cn|] eqn:E; [|discriminate].
  rewrite (lookup_app_l_Some _ _ _ _ E). exact Hs.
Qed.

(** Once the gate of an entity is down, no event raises it again. *)
Theorem stopped_forever (c : ConnRef) (ev : Event) : preserves (stopped c) (handle ev).
Proof.
  assert (forall (f : Conn -> Conn) c' s,
            (forall x, shouldReconnect x = false -> shouldReconnect (f x) = false) ->
            stopped c s -> stopped c (set_heap (alter f c' (heap s)) s)) as Halter.
  { intros f c' s Hf Hs. unfold stopped in *. simpl.
    rewrite list_lookup_alter. case_decide; [subst c'|exact Hs].
    destruct (heap s !! c) as [cn|]; [|discriminate]. simpl in *.
    injection Hs as Hs. rewrite (Hf cn Hs). reflexivity. }
  apply store_handle.
  - intros l s H; exact H.
  - intros l s H; exact H.
  - intros l s H; exact H.
  - intros l s H; exact H.
  - intros f c' s H. apply Halter; [intros x Hx; exact Hx | exact H].
  - intros f c' s H. apply Halter; [intros x Hx; exact Hx | exact H].
  - intros c' s H. apply Halter; [reflexivity | exact H].
  - intros k s H; exact H.
  - apply stopped_connect.
Qed.

(** C2, the part that holds: a stopped session has its reconnect gate
    down. *)
Lemma stop_lowers_the_gate (s : State) (sid : string) (c : ConnRef) (cn : Conn) :
  Map_get sid (activeConnections s) = Some c ->
  heap s !! c = Some cn ->
  stopped c (state_of (handle (rtms_stopped sid) s)).
Proof.
  intros Hget Hc. cbn [handle]. unfold bind, console_write, modify.
  match goal with |- context [cleanupConnection sid ?x] => set (s1 := x) end.
  destruct (cleanupConnection_registered sid s1 c cn Hget Hc) as (s' & E & _ & Hsr & _).
  rewrite E. exact Hsr.
Qed.

(** C2, the signaling timer: its callback tests the gate and, finding it
    down, does nothing; the timer is gone and the store is otherwise as
    it was. *)
Lemma stale_signaling_timer_does_nothing (s : State) (i : nat) (d : Z)
    (sid stid : string) (conn : ConnRef) :
  timers s !! i = Some (d, SignalingRetry sid stid conn) ->
  stopped conn s ->
  handle (on_timeout i) s = Return tt (set_timers (delete i (timers s)) s).
Proof.
  intros Hi Hs. unfold stopped in Hs.
  destruct (heap s !! conn) as [cn|] eqn:Hc; [|discriminate]. injection Hs as Hsr.
  cbn [handle]. unfold fire, bind at 1, gets at 1. rewrite Hi.
  unfold run_timer, deref, bind, gets, modify. cbn.
  rewrite (list_lookup_total_correct _ _ _ Hc), Hsr. reflexivity.
Qed.

(** C2 (the code departs from it).  The callback of the media timer does
    not test the gate: when it runs for a stopped entity it calls
    [connectToMediaWebSocket] all the same, and with an address the
    library accepts a new socket comes into being and is stored in the
    media sub-record, whose state becomes "connecting". *)
Theorem C2_stale_media_timer_opens_a_socket (s : State) (i : nat) (d : Z)
    (u : jsval) (sid stid : string) (conn : ConnRef) (cn : Conn) :
  timers s !! i = Some (d, MediaRetry u sid stid conn) ->
  heap s !! conn = Some cn ->
  shouldReconnect cn = false ->
  ws_url_ok u = true ->
  exists s',
    handle (on_timeout i) s = Return tt s' /\
    calls s' = (calls s ++ [new_WebSocket (by_media sid) u])%list /\
    sockets s' = (sockets s ++
      [mkWebSocket u CONNECTING
         (Some (MediaListeners u sid stid (socket (signaling cn)) conn)) 0])%list /\
    media <$> heap s' !! conn
      = Some (mkChannel (Some (length (sockets s))) connecting (lastKeepAlive (media cn))) /\
    stopped conn s'.
Proof.
  intros Hi Hc Hsr Hu.
  cbn [handle]. unfold fire, bind at 1, gets at 1. rewrite Hi.
  unfold run_timer, connectToMediaWebSocket, WebSocket_new, deref, bind, gets, modify.
  cbn. rewrite (list_lookup_total_correct _ _ _ Hc), Hu. cbn.
  eexists. split; [reflexivity|]. simpl. repeat split.
  - rewrite alter_app_r_alt by lia. rewrite Nat.sub_diag. reflexivity.
  - rewrite !list_lookup_alter_eq, Hc. reflexivity.
  - unfold stopped. simpl. rewrite !list_lookup_alter_eq, Hc. simpl.
    rewrite Hsr. reflexivity.
Qed.

End Lifecycle.

(** ** Media reconnection *)

Section Reconnect.
Context {env : Environment}.

(** Reconnecting signaling for an existing entity neither registers nor
    allocates anything. *)
Lemma connect_existing_keeps_identity sid stid u conn s :
  let s' := state_of (connectToSignalingWebSocket sid stid u (Some conn) s) in
  activeConnections s' = activeConnections s /\ length (heap s') = length (heap s).
Proof.
  unfold connectToSignalingWebSocket, WebSocket_new. cbn.
  destruct (negb _ || negb _); cbn; [split; reflexivity|].
  destruct (ws_url_ok (JStr u)); cbn; [|split; reflexivity].
  split; [reflexivity|]. rewrite !length_alter. reflexivity.
Qed.

Lemma signaling_alive_spec (cn : Conn) (s : State) :
  signaling_alive cn s = true
  <-> state (signaling cn) = ready /\
      exists ks, socket (signaling cn) = Some ks /\ socket_readyState ks s = Some OPEN.
Proof.
  unfold signaling_alive. split.
  - intros [H1 H2]%andb_true_iff. split.
    + destruct (state (signaling cn)); try discriminate H1; reflexivity.
    + destruct (socket (signaling cn)) as [ks|]; [|discriminate].
      exists ks. split; [reflexivity|].
      destruct (socket_readyState ks s) as [[]|]; try discriminate H2; reflexivity.
  - intros [H1 (ks & H2 & H3)]. rewrite H1, H2, H3. reflexivity.
Qed.


End Reconnect.

(** ** Ordering of signaling and media *)

Section Ordering.
Context {env : Environment}.
Variable J : string -> jsval -> Prop.

Let I := media_justified J.

Lemma elem_of_alter_inv {A} (g : A -> A) (k : nat) (l : list A) (x : A) :
  x ∈ alter g k l -> x ∈ l \/ exists y, y ∈ l /\ x = g y.
Proof.
  intros (i & Hi)%list_elem_of_lookup. rewrite list_lookup_alter in Hi.
  case_decide as E.
  - subst i. destruct (l !! k) as [y|] eqn:Ey; [|discriminate].
    injection Hi as <-. right. exists y. split; [|reflexivity].
    apply list_elem_of_lookup. exists k. exact Ey.
  - left. apply list_elem_of_lookup. exists i. exact Hi.
Qed.

(** Writes that touch neither calls, listeners nor timers. *)
Ltac frame :=
  lazymatch goal with
  | |- preserves _ (modify _) =>
      let s := fresh "s" in
      let H1 := fresh in let H2 := fresh in let H3 := fresh in
      apply preserves_modify; intros s (H1 & H2 & H3);
      exact (conj H1 (conj H2 H3))
  | |- preserves _ (console_write _ _ _) => unfold console_write
  | |- preserves _ (update _ _) => unfold update
  end.

Lemma justified_sockets_alter (g : WebSocket -> WebSocket) k :
  (forall w, listeners (g w) = listeners w) ->
  preserves I (modify (fun s => set_sockets (alter g k (sockets s)) s)).
Proof.
  intros Hg. apply preserves_modify. intros s (H1 & H2 & H3).
  split; [exact H1|]. split; [|exact H3].
  intros w u sid stid ss c Hw Hl. simpl in Hw.
  apply elem_of_alter_inv in Hw as [Hw|(y & Hy & ->)].
  - exact (H2 _ _ _ _ _ _ Hw Hl).
  - rewrite Hg in Hl. exact (H2 _ _ _ _ _ _ Hy Hl).
Qed.

Lemma justified_record_call c :
  (forall sid u, c = new_WebSocket (by_media sid) u -> J sid u) ->
  preserves I (record_call c).
Proof.
  intros Hc. apply preserves_modify. intros s (H1 & H2 & H3).
  split; [|split; [exact H2 | exact H3]].
  intros sid u [Hin|Hin%list_elem_of_singleton]%elem_of_app.
  - exact (H1 _ _ Hin).
  - apply Hc. symmetry. exact Hin.
Qed.

Lemma justified_WebSocket_new who a :
  (forall sid, who = by_media sid -> J sid a) ->
  preserves I (WebSocket_new who a).
Proof.
  intros Hw. unfold WebSocket_new. pres.
  - apply justified_record_call. intros sid u [= -> ->]. apply Hw. reflexivity.
  - apply preserves_modify. intros s (H1 & H2 & H3).
    split; [exact H1|]. split; [|exact H3].
    intros w u sid stid ss c [Hin|Hin%list_elem_of_singleton]%elem_of_app Hl.
    + exact (H2 _ _ _ _ _ _ Hin Hl).
    + subst w. discriminate Hl.
Qed.

Lemma justified_ws_on k l :
  (forall u sid stid ss c, l = MediaListeners u sid stid ss c -> J sid u) ->
  preserves I (ws_on k l).
Proof.
  intros Hl. apply preserves_modify. intros s (H1 & H2 & H3).
  split; [exact H1|]. split; [|exact H3].
  intros w u sid stid ss c Hw Hlw. simpl in Hw.
  apply elem_of_alter_inv in Hw as [Hw|(y & Hy & ->)].
  - exact (H2 _ _ _ _ _ _ Hw Hlw).
  - simpl in Hlw. injection Hlw as Hlw. exact (Hl _ _ _ _ _ Hlw).
Qed.

Lemma justified_ws_send k f : preserves I (ws_send k f).
Proof. apply justified_record_call. intros sid u [=]. Qed.

Lemma justified_ws_close k : preserves I (ws_close k).
Proof.
  unfold ws_close. pres.
  - apply justified_record_call. intros sid u [=].
  - apply justified_sockets_alter. reflexivity.
Qed.

Lemma justified_ws_once_open_close k : preserves I (ws_once_open_close k).
Proof.
  unfold ws_once_open_close. pres.
  - apply justified_record_call. intros sid u [=].
  - apply justified_sockets_alter. reflexivity.
Qed.

Lemma justified_setTimeout t d :
  (forall u sid stid c, t = MediaRetry u sid stid c -> J sid u) ->
  preserves I (setTimeout t d).
Proof.
  intros Ht. apply preserves_modify. intros s (H1 & H2 & H3).
  split; [exact H1|]. split; [exact H2|].
  intros d' u sid stid c [Hin|Hin%list_elem_of_singleton]%elem_of_app.
  - exact (H3 _ _ _ _ _ Hin).
  - injection Hin as -> Hin. exact (Ht _ _ _ _ (eq_sym Hin)).
Qed.

Lemma justified_generateSignature sid stid : preserves I (generateSignature sid stid).
Proof. unfold generateSignature. pres. Qed.

Ltac justify :=
  repeat first
    [ pres_step | frame
    | apply justified_ws_send | apply justified_ws_close
    | apply justified_ws_once_open_close | apply justified_generateSignature ].

Lemma justified_connectToMediaWebSocket u sid stid ss c :
  J sid u -> preserves I (connectToMediaWebSocket u sid stid ss c).
Proof.
  intros HJ. unfold connectToMediaWebSocket. justify.
  - apply justified_WebSocket_new. intros ? [= <-]. exact HJ.
  - apply justified_ws_on. intros ? ? ? ? ? [= <- <- _ _ _]. exact HJ.
Qed.

Lemma justified_connectToSignalingWebSocket sid stid u c :
  preserves I (connectToSignalingWebSocket sid stid u c).
Proof.
  unfold connectToSignalingWebSocket. justify.
  all: first [ apply justified_WebSocket_new; intros ? [=]
             | apply justified_ws_on; intros ? ? ? ? ? [=] ].
Qed.

Lemma justified_cleanupConnection sid : preserves I (cleanupConnection sid).
Proof. unfold cleanupConnection, cleanup_channel, deref. justify. Qed.

Lemma justified_handleMediaMessage data c k ss sid stid :
  preserves I (handleMediaMessage data c k ss sid stid).
Proof.
  unfold handleMediaMessage, JSON_parse, send_on, binary_payload, text_payload.
  justify.
Qed.

Lemma is_num_true v n : is_num v n = true -> v = JNum n.
Proof.
  destruct v; simpl; try discriminate. intros H%Z.eqb_eq. subst. reflexivity.
Qed.

Lemma justified_signaling_on_message k sid stid c data now :
  (forall msg, data = Json msg -> handshake_success msg -> J sid (media_endpoint msg)) ->
  preserves I (signaling_on_message k sid stid c data now).
Proof.
  intros HJ. unfold signaling_on_message.
  destruct data as [|msg]; [justify|].
  apply preserves_bind_lift. intros msg_type Hmt.
  destruct (is_num msg_type 2) eqn:E2.
  - apply is_num_true in E2. subst msg_type.
    apply preserves_bind_lift. intros status_code Hsc.
    destruct (is_num status_code 0) eqn:E0; [|justify].
    apply is_num_true in E0. subst status_code.
    specialize (HJ msg eq_refl (conj Hmt Hsc)).
    justify. apply justified_connectToMediaWebSocket. exact HJ.
  - unfold signaling_event. justify; apply justified_cleanupConnection.
Qed.

Lemma justified_media_on_close u sid stid c :
  J sid u -> preserves I (media_on_close u sid stid c).
Proof.
  intros HJ. unfold media_on_close, deref. justify.
  - apply justified_setTimeout. intros ? ? ? ? [= <- <- _ _]. exact HJ.
  - apply justified_connectToSignalingWebSocket.
Qed.

Lemma justified_signaling_on_close sid stid c :
  preserves I (signaling_on_close sid stid c).
Proof.
  unfold signaling_on_close, deref. justify.
  apply justified_setTimeout. intros ? ? ? ? [=].
Qed.

Lemma justified_run_timer t :
  (forall u sid stid c, t = MediaRetry u sid stid c -> J sid u) ->
  preserves I (run_timer t).
Proof.
  intros Ht. destruct t as [sid stid c|u sid stid c]; unfold run_timer, deref; justify.
  - apply justified_connectToSignalingWebSocket.
  - apply justified_connectToMediaWebSocket. exact (Ht _ _ _ _ eq_refl).
Qed.

Lemma justified_timers_delete i :
  preserves I (modify (fun s => set_timers (delete i (timers s)) s)).
Proof.
  apply preserves_modify. intros s (H1 & H2 & H3).
  split; [exact H1|]. split; [exact H2|].
  intros d u sid stid c Hin. simpl in Hin.
  eapply H3, elem_of_sublist; [exact Hin | apply sublist_delete].
Qed.

Ltac as_preserves s Hs :=
  lazymatch goal with
  | |- ?P (state_of (?m s)) => revert s Hs; change (preserves P m)
  end.

(** One event keeps the invariant, provided that a successful handshake
    response delivered to a signaling socket puts its session and
    endpoint in [J]. *)
Lemma justified_handle (ev : Event) (s : State) :
  I s ->
  (forall k now msg sid stid conn,
     ev = on_message k (Json msg) now ->
     signaling_socket s k sid stid conn ->
     handshake_success msg ->
     J sid (media_endpoint msg)) ->
  I (state_of (handle ev s)).
Proof.
  intros Hs Hev. pose proof Hs as (H1 & H2 & H3).
  destruct ev as [sid stid u|sid| |k|k data now|k|k|i]; cbn [handle].
  - clear Hev H1 H2 H3. as_preserves s Hs.
    justify. apply justified_connectToSignalingWebSocket.
  - clear Hev H1 H2 H3. as_preserves s Hs.
    justify. apply justified_cleanupConnection.
  - clear Hev H1 H2 H3. as_preserves s Hs.
    justify. apply justified_cleanupConnection.
  - unfold emit_open, bind at 1, gets at 1.
    destruct (sockets s !! k) as [w|] eqn:Ew; [|exact Hs].
    clear Hev H1 H2 H3 Ew. as_preserves s Hs.
    unfold mark, signaling_on_open, media_on_open, deref. justify.
    all: apply justified_sockets_alter; reflexivity.
  - unfold emit_message, bind at 1, gets at 1.
    destruct (sockets s !! k) as [w|] eqn:Ew; [|exact Hs].
    cbn [fmap option_fmap option_map].
    destruct (listeners w) as [[sid stid c|u sid stid ss c]|] eqn:El; [| |exact Hs].
    + assert (forall msg, data = Json msg -> handshake_success msg ->
                          J sid (media_endpoint msg)) as HJ.
      { intros msg -> Hok. apply (Hev k now msg sid stid c eq_refl); [|exact Hok].
        unfold signaling_socket. rewrite Ew. simpl. rewrite El. reflexivity. }
      clear Hev H1 H2 H3 Ew. as_preserves s Hs.
      apply justified_signaling_on_message. exact HJ.
    + clear Hev H1 H2 H3 Ew. as_preserves s Hs. apply justified_handleMediaMessage.
  - unfold emit_close, bind at 1, gets at 1.
    destruct (sockets s !! k) as [w|] eqn:Ew; cbn [fmap option_fmap option_map].
    2:{ clear Hev H1 H2 H3 Ew. as_preserves s Hs. unfold mark. justify.
        apply justified_sockets_alter. reflexivity. }
    destruct (listeners w) as [[sid stid c|u sid stid ss c]|] eqn:El.
    + clear Hev H1 H2 H3 Ew. as_preserves s Hs. unfold mark. justify.
      * apply justified_sockets_alter. reflexivity.
      * apply justified_signaling_on_close.
    + assert (J sid u) as HJ.
      { apply (H2 w u sid stid ss c); [|exact El].
        apply list_elem_of_lookup. exists k. exact Ew. }
      clear Hev H1 H2 H3 Ew. as_preserves s Hs. unfold mark. justify.
      * apply justified_sockets_alter. reflexivity.
      * apply justified_media_on_close. exact HJ.
    + clear Hev H1 H2 H3 Ew. as_preserves s Hs. unfold mark. justify.
      apply justified_sockets_alter. reflexivity.
  - unfold emit_error, bind at 1, gets at 1.
    destruct (sockets s !! k) as [w|] eqn:Ew; cbn [fmap option_fmap option_map];
      [|exact Hs].
    destruct (listeners w) as [[sid stid c|u sid stid ss c]|] eqn:El; [| |exact Hs].
    all: clear Hev H1 H2 H3 Ew; as_preserves s Hs;
      unfold signaling_on_error, media_on_error; justify.
  - unfold fire, bind at 1, gets at 1.
    destruct (timers s !! i) as [[d t]|] eqn:Et; [|exact Hs].
    assert (forall u sid stid c, t = MediaRetry u sid stid c -> J sid u) as HJ.
    { intros u sid stid c ->. apply (H3 d u sid stid c).
      apply list_elem_of_lookup. exists i. exact Et. }
    clear Hev H1 H2 H3 Et. as_preserves s Hs.
    apply preserves_bind; [apply justified_timers_delete|]. intros _.
    apply justified_run_timer. exact HJ.
Qed.

End Ordering.

Section OrderingOfRuns.
Context {env : Environment}.

Lemma media_justified_mono (J J' : string -> jsval -> Prop) (s : State) :
  (forall sid u, J sid u -> J' sid u) -> media_justified J s -> media_justified J' s.
Proof.
  intros HJ (H1 & H2 & H3). repeat split.
  - intros sid u H. apply HJ. exact (H1 _ _ H).
  - intros w u sid stid ss c Hw Hl. apply HJ. exact (H2 _ _ _ _ _ _ Hw Hl).
  - intros d u sid stid c H. apply HJ. exact (H3 _ _ _ _ _ H).
Qed.

Lemma handshake_received_more (pre more : list Event) sid u :
  handshake_received env pre sid u -> handshake_received env (pre ++ more) sid u.
Proof.
  intros (evs1 & evs2 & k & now & msg & s1 & stid & conn & -> & Hrun & Hsock & Hok & Hu).
  exists evs1, (evs2 ++ more)%list, k, now, msg, s1, stid, conn.
  repeat split; try assumption; try apply Hok.
  rewrite <- app_assoc. reflexivity.
Qed.

Lemma run_snoc (pre : list Event) (ev : Event) (s0 s : State) :
  run pre s0 = Some s -> enabled ev s = true ->
  run (pre ++ [ev]) s0 = Some (state_of (handle ev s)).
Proof.
  revert s0. induction pre as [|e pre IH]; simpl; intros s0.
  - intros [= ->] ->. reflexivity.
  - destruct (enabled e s0); [|discriminate]. apply IH.
Qed.

Lemma justified_run (evs pre : list Event) (s0 s : State) :
  run pre initial = Some s0 ->
  media_justified (handshake_received env pre) s0 ->
  run evs s0 = Some s ->
  media_justified (handshake_received env (pre ++ evs)) s.
Proof.
  revert pre s0. induction evs as [|ev evs IH]; intros pre s0 Hpre Hs0; simpl.
  - intros [= <-]. rewrite app_nil_r. exact Hs0.
  - destruct (enabled ev s0) eqn:Een; [|discriminate]. intros Hrun.
    replace (pre ++ ev :: evs)%list with ((pre ++ [ev]) ++ evs)%list
      by (rewrite <- app_assoc; reflexivity).
    apply (IH (pre ++ [ev])%list (state_of (handle ev s0))).
    + apply run_snoc; assumption.
    + apply justified_handle.
      * eapply media_justified_mono; [|exact Hs0].
        intros sid u. apply handshake_received_more.
      * intros k now msg sid stid conn -> Hsock Hok.
        exists pre, [], k, now, msg, s0, stid, conn.
        repeat split; try assumption; apply Hok.
    + exact Hrun.
Qed.

(** C7.  In every run of the program from its start, however short, each
    media connection attempt (each call of [new WebSocket] made by
    [connectToMediaWebSocket]) for a session is matched by a signaling
    handshake response with status 0 among the events of that run,
    delivered to a signaling socket of the same session, and the address
    of the attempt is the media endpoint carried by that response.  As
    this holds for the run that ends with the attempt, no attempt comes
    before the first such response.  And the handler of such a response,
    when it gets as far as connecting, makes one attempt, with the
    endpoint of the response. *)
Theorem C7_media_attempt_follows_handshake :
  (forall (evs : list Event) (s : State) (sid : string) (u : jsval),
     run evs initial = Some s ->
     new_WebSocket (by_media sid) u ∈ calls s ->
     handshake_received env evs sid u) /\
  (forall (s : State) (k : SockId) (now : Z) (msg : jsval) (sid stid : string)
          (conn : ConnRef),
     signaling_socket s k sid stid conn ->
     handshake_success msg ->
     ToString_throws (media_endpoint msg) = false ->
     calls (state_of (handle (on_message k (Json msg) now) s))
     = (calls s ++ new_WebSocket (by_media sid) (media_endpoint msg)
          :: (if ws_url_ok (media_endpoint msg)
              then [send k (JSON_stringify subscribeMsg)]
              else []))%list).
Proof.
  split.
  - intros evs s sid u Hrun Hin.
    assert (media_justified (handshake_received env ([] ++ evs)) s) as (H1 & _).
    { apply (justified_run evs [] initial s); [reflexivity| |exact Hrun].
      repeat split.
      - intros ? ? H. inversion H.
      - intros ? ? ? ? ? ? H. inversion H.
      - intros ? ? ? ? ? H. inversion H. }
    exact (H1 sid u Hin).
  - intros s k now msg sid stid conn H [Hm Hs] Hts.
    cbn [handle]. unfold emit_message, bind at 1, gets at 1.
    unfold signaling_socket in H. rewrite H. cbn [fmap option_fmap option_map].
    unfold signaling_on_message, bind. cbn. rewrite Hm. cbn. rewrite Hs. cbn.
    fold (media_endpoint msg). unfold interpolate. rewrite Hts. cbn.
    unfold connectToMediaWebSocket, WebSocket_new, bind. cbn.
    destruct (ws_url_ok (media_endpoint msg)); cbn.
    + rewrite <- app_assoc. reflexivity.
    + reflexivity.
Qed.

End OrderingOfRuns.

(** ** Handles held by listeners and timers *)

Section Wiring.
Context {env : Environment}.

Lemma listeners_wired_grow (h h' : list Conn) (ws ws' : list WebSocket) l :
  (length h <= length h')%nat ->
  (forall k, is_signaling ws k -> is_signaling ws' k) ->
  listeners_wired h ws l -> listeners_wired h' ws' l.
Proof.
  intros Hh Hws. destruct l as [[sid stid c|u sid stid ss c]|]; simpl; [lia| |trivial].
  intros [Hc (ks & -> & Hks)]. split; [lia|]. exists ks. split; [reflexivity|].
  apply Hws. exact Hks.
Qed.

(** A write keeps the wiring when the heap does not shrink, signaling
    sockets stay signaling sockets, and whatever is new is wired. *)
Lemma wired_with_step ks0 c0 (s s' : State) :
  wired_with ks0 c0 s ->
  (length (heap s) <= length (heap s'))%nat ->
  (forall k, is_signaling (sockets s) k -> is_signaling (sockets s') k) ->
  (forall k w', sockets s' !! k = Some w' ->
     (exists w, sockets s !! k = Some w /\ listeners w' = listeners w) \/
     listeners_wired (heap s') (sockets s') (listeners w')) ->
  (forall c cn', heap s' !! c = Some cn' ->
     (exists cn, heap s !! c = Some cn /\
                 socket (signaling cn') = socket (signaling cn)) \/
     (exists ks, socket (signaling cn') = Some ks /\ is_signaling (sockets s') ks)) ->
  (forall d t, (d, t) ∈ timers s' ->
     (d, t) ∈ timers s \/ (timer_conn t < length (heap s'))%nat) ->
  wired_with ks0 c0 s'.
Proof.
  intros ((W1 & W2 & W3) & Wk & Wc) Hh Hsig Hs Hc Ht. repeat split.
  - intros k w' Hw'. destruct (Hs k w' Hw') as [(w & Hw & ->)|H]; [|exact H].
    eapply listeners_wired_grow; [exact Hh | exact Hsig | exact (W1 k w Hw)].
  - intros c cn' Hcn'. destruct (Hc c cn' Hcn') as [(cn & Hcn & ->)|H]; [|exact H].
    destruct (W2 c cn Hcn) as (ks & Hks & Hsg). exists ks. split; [exact Hks|].
    apply Hsig. exact Hsg.
  - intros d t Hin. destruct (Ht d t Hin) as [H|H]; [|exact H].
    specialize (W3 d t H). lia.
  - intros k Hk. apply Hsig, Wk, Hk.
  - intros c Hc0. specialize (Wc c Hc0). lia.
Qed.

Section Leaves.
Variables (ks0 : option SockId) (c0 : option ConnRef).
Let I := wired_with ks0 c0.

Lemma wired_frame (f : State -> State) :
  (forall s, heap (f s) = heap s) ->
  (forall s, sockets (f s) = sockets s) ->
  (forall s, timers (f s) = timers s) ->
  preserves I (modify f).
Proof.
  intros Hh Hs Ht. apply preserves_modify. intros s Hw.
  apply (wired_with_step ks0 c0 s); [exact Hw|..]; rewrite ?Hh, ?Hs, ?Ht.
  - lia.
  - trivial.
  - intros k w' H. left. exists w'. split; [exact H | reflexivity].
  - intros c cn' H. left. exists cn'. split; [exact H | reflexivity].
  - intros d t H. left. exact H.
Qed.

Lemma wired_update c (f : Conn -> Conn) :
  (forall x, socket (signaling (f x)) = socket (signaling x)) ->
  preserves I (update c f).
Proof.
  intros Hf. apply preserves_modify. intros s Hw.
  apply (wired_with_step ks0 c0 s); [exact Hw|..]; simpl.
  - rewrite length_alter. lia.
  - trivial.
  - intros k w' H. left. exists w'. split; [exact H | reflexivity].
  - intros c' cn' H. rewrite list_lookup_alter in H. case_decide; [subst c'|].
    + destruct (heap s !! c) as [cn|] eqn:E; [|discriminate]. injection H as <-.
      left. exists cn. split; [reflexivity | apply Hf].
    + left. exists cn'. split; [exact H | reflexivity].
  - intros d t H. left. exact H.
Qed.

Lemma is_signaling_alter (g : WebSocket -> WebSocket) k (ws : list WebSocket) :
  (forall w, listeners (g w) = listeners w) ->
  forall k', is_signaling ws k' -> is_signaling (alter g k ws) k'.
Proof.
  intros Hg k' (sid & stid & c & H). exists sid, stid, c.
  rewrite list_lookup_alter. case_decide; [subst k'|exact H].
  destruct (ws !! k) as [w|]; [|discriminate]. simpl in *. rewrite Hg. exact H.
Qed.

Lemma wired_sockets_alter (g : WebSocket -> WebSocket) k :
  (forall w, listeners (g w) = listeners w) ->
  preserves I (modify (fun s => set_sockets (alter g k (sockets s)) s)).
Proof.
  intros Hg. apply preserves_modify. intros s Hw.
  apply (wired_with_step ks0 c0 s); [exact Hw|..]; simpl.
  - lia.
  - apply is_signaling_alter. exact Hg.
  - intros k' w' H. rewrite list_lookup_alter in H. case_decide; [subst k'|].
    + destruct (sockets s !! k) as [w|] eqn:E; [|discriminate]. injection H as <-.
      left. exists w. split; [reflexivity | apply Hg].
    + left. exists w'. split; [exact H | reflexivity].
  - intros c cn' H. left. exists cn'. split; [exact H | reflexivity].
  - intros d t H. left. exact H.
Qed.



End Leaves.







Ltac wire :=
  repeat first
    [ pres_step
    | lazymatch goal with
      | |- preserves _ (console_write _ _ _) => unfold console_write
      | |- preserves _ (record_call _) => unfold record_call
      | |- preserves _ (ws_send _ _) => unfold ws_send
      | |- preserves _ (ws_close _) => unfold ws_close
      | |- preserves _ (ws_once_open_close _) => unfold ws_once_open_close
      | |- preserves _ (mark _ _) => unfold mark
      | |- preserves _ (deref _) => unfold deref
      | |- preserves _ (generateSignature _ _) => unfold generateSignature
      | |- preserves _ (update _ (on_channel ?ty _)) =>
          is_var ty; destruct ty; unfold on_channel
      | |- preserves _ (update _ _) => apply wired_update; intros ?; reflexivity
      | |- preserves _ (modify (fun s => set_sockets (alter _ _ (sockets s)) s)) =>
          apply wired_sockets_alter; intros ?; reflexivity
      | |- preserves _ (modify _) => apply wired_frame; intros ?; reflexivity
      end ].

Section Handlers.
Variables (ks0 : option SockId) (c0 : option ConnRef).
Let I := wired_with ks0 c0.






End Handlers.






End Wiring.

(** ** The media handshake *)

Section MediaHandshake.
Context {env : Environment}.


End MediaHandshake.

(** ** Signature generator *)

Lemma byte_of_hex_of_byte (b : Byte.byte) (rest : string) :
  byte_of_hex (hex_of_byte b ++ rest) = Some b.
Proof. destruct b; reflexivity. Qed.

Lemma all_hex_hex_of_byte (b : Byte.byte) : all_hex (hex_of_byte b) = true.
Proof. destruct b; reflexivity. Qed.

Lemma all_hex_app (a b : string) :
  all_hex a = true -> all_hex b = true -> all_hex (a ++ b) = true.
Proof.
  induction a as [|c a IH]; simpl; [trivial|].
  intros [Hc Ha]%andb_true_iff Hb. rewrite Hc. simpl. exact (IH Ha Hb).
Qed.

Lemma all_hex_hex (bs : list Byte.byte) : all_hex (hex bs) = true.
Proof.
  induction bs as [|b bs IH]; [reflexivity|].
  change (hex (b :: bs)) with (hex_of_byte b ++ hex bs).
  apply all_hex_app; [apply all_hex_hex_of_byte | exact IH].
Qed.

Lemma hex_length (bs : list Byte.byte) : String.length (hex bs) = (2 * length bs)%nat.
Proof.
  induction bs as [|b bs IH]; [reflexivity|].
  cbn [hex]. unfold hex_of_byte. cbn [String.append String.length length].
  rewrite IH. lia.
Qed.

Lemma hex_inj (bs bs' : list Byte.byte) : hex bs = hex bs' -> bs = bs'.
Proof.
  revert bs'. induction bs as [|b bs IH]; intros [|b' bs'] H.
  - reflexivity.
  - discriminate H.
  - discriminate H.
  - pose proof (f_equal byte_of_hex H) as Hb. cbn [hex] in Hb.
    rewrite !byte_of_hex_of_byte in Hb. injection Hb as ->.
    f_equal. apply IH. cbn [hex] in H. unfold hex_of_byte in H.
    cbn [String.append] in H. injection H as H. exact H.
Qed.

Lemma append_cancel_l (p x y : string) : p ++ x = p ++ y -> x = y.
Proof.
  induction p as [|c p IH]; simpl; [trivial|]. intros [= H]. exact (IH H).
Qed.

Lemma comma_split (a a' b b' : string) :
  no_comma a = true -> no_comma a' = true ->
  a ++ "," ++ b = a' ++ "," ++ b' -> a = a' /\ b = b'.
Proof.
  revert a'. induction a as [|c a IH]; intros [|c' a']; simpl.
  - intros _ _ [= H]. split; [reflexivity | exact H].
  - intros _ [Hc _]%andb_true_iff [= <- _]. discriminate Hc.
  - intros [Hc _]%andb_true_iff _ [= -> _]. discriminate Hc.
  - intros [_ Ha]%andb_true_iff [_ Ha']%andb_true_iff [= -> H].
    destruct (IH a' Ha Ha' H) as [-> ->]. split; reflexivity.
Qed.

Section Signature.
Context {env : Environment}.

(** C4 (as amended).  With the client secret configured,
    [generateSignature] is a function of its two arguments that touches
    no state: it returns the lowercase hexadecimal text, 64 characters
    long, of the HMAC-SHA256, keyed by the client secret, of
    clientId + "," + sessionId + "," + streamId.  Two pairs receive the
    same signature exactly when the digests of their two concatenations
    are equal.  The concatenations of two different pairs differ whenever
    neither sessionId contains a comma; they need not differ otherwise,
    so that two different pairs can receive the same signature. *)
Theorem C4_signature_is_hex_hmac_of_concatenation (key sid stid : string) (s : State) :
  clientSecret = Some key ->
  let signature := hex (hmac_sha256 key (signature_message sid stid)) in
  generateSignature sid stid s = Return signature s /\
  String.length signature = 64%nat /\
  all_hex signature = true /\
  (forall sid' stid',
     generateSignature sid' stid' s = generateSignature sid stid s
     <-> hmac_sha256 key (signature_message sid' stid')
         = hmac_sha256 key (signature_message sid stid)) /\
  (forall sid' stid',
     no_comma sid = true -> no_comma sid' = true ->
     (sid', stid') <> (sid, stid) ->
     signature_message sid' stid' <> signature_message sid stid).
Proof.
  intros Hkey signature. unfold generateSignature. rewrite Hkey.
  split; [reflexivity|]. split; [|split; [|split]].
  - subst signature. rewrite hex_length, hmac_sha256_length. reflexivity.
  - apply all_hex_hex.
  - intros sid' stid'. unfold ret. split.
    + intros [= H]. apply hex_inj. exact H.
    + intros ->. reflexivity.
  - intros sid' stid' Hc Hc' Hne Heq. apply Hne.
    unfold signature_message in Heq. apply append_cancel_l in Heq.
    change ("," ++ sid' ++ "," ++ stid') with (String "," (sid' ++ "," ++ stid')) in Heq.
    change ("," ++ sid ++ "," ++ stid) with (String "," (sid ++ "," ++ stid)) in Heq.
    injection Heq as Heq.
    destruct (comma_split sid' sid stid' stid Hc' Hc Heq) as [-> ->]. reflexivity.
Qed.

End Signature.

(** Two different pairs with the same concatenation: whatever the client
    id, the secret and the keyed hash, they receive the same signature. *)
Lemma C4_different_pairs_same_signature :
  ("a,b", "c") <> ("a", "b,c") /\
  forall (env : Environment) (s : State),
    @generateSignature env "a,b" "c" s = @generateSignature env "a" "b,c" s.
Proof.
  split; [discriminate|]. intros env s. unfold generateSignature, signature_message.
  destruct clientSecret; [|reflexivity].
  replace (default "undefined" clientId ++ "," ++ "a,b" ++ "," ++ "c")
    with (default "undefined" clientId ++ "," ++ "a" ++ "," ++ "b,c"); reflexivity.
Qed.

Lemma C4_witness :
  @generateSignature sample "s1" "st1" initial
  = Return (hex (@hmac_sha256 sample "secret" (@signature_message sample "s1" "st1")))
      initial /\
  String.length (hex (@hmac_sha256 sample "secret" (@signature_message sample "s1" "st1")))
  = 64%nat.
Proof.
  destruct (@C4_signature_is_hex_hmac_of_concatenation sample "secret" "s1" "st1"
              initial eq_refl) as (H1 & H2 & _).
  split; [exact H1 | exact H2].
Defined.

(** ** The properties on the sample runs *)

Lemma established_reachable : @reachable sample established.
Proof.
  apply (@run_reachable sample streaming_events initial).
  - apply reachable_initial.
  - vm_compute. reflexivity.
Qed.

Lemma C9_witness :
  @handle sample (on_message 0%nat Unparseable 7) established
  = Return tt (set_console
      (console established ++ [mkLog warn_ "[Signaling] Invalid JSON received" []])
      established) /\
  @handle sample (on_message 1%nat Unparseable 7) established
  = Return tt (set_console
      (console established ++ [mkLog error_ "[Media] Failed to parse message:" []])
      established).
Proof.
  split.
  - apply (proj1 (@C9_malformed_frame_is_logged_and_dropped sample established 0%nat 7)
             "s1" "st1" 0%nat).
    reflexivity.
  - apply (proj2 (@C9_malformed_frame_is_logged_and_dropped sample established 1%nat 7)
             (JStr "wss://media") "s1" "st1" (Some 0%nat) 0%nat).
    reflexivity.
Defined.

(** On the signaling channel the keep-alive handler does more than send
    the response: the entity's signaling [lastKeepAlive], unset before,
    holds the time of receipt afterwards. *)
Lemma C8_signaling_keep_alive_writes_entity :
  calls after_signaling_keep_alive
  = (calls established
     ++ [send 0%nat
           (JSON_stringify
              (JObj [("msg_type", JNum 13); ("timestamp", JNum 1700000000)]))])%list /\
  (lastKeepAlive ∘ signaling) <$> heap established !! 0%nat = Some None /\
  (lastKeepAlive ∘ signaling) <$> heap after_signaling_keep_alive !! 0%nat
  = Some (Some 2000) /\
  heap after_signaling_keep_alive <> heap established.
Proof. vm_compute. repeat split. discriminate. Qed.

Lemma C8_witness :
  @handle sample (on_message 1%nat keep_alive_frame 2000) established
  = Return tt
      (set_calls
         (calls established
          ++ [send 1%nat
                (keep_alive_response
                   (JObj [("msg_type", JNum 12); ("timestamp", JNum 1700000000)]))])
         established) /\
  @handle sample (on_message 0%nat keep_alive_frame 2000) established
  = Return tt
      (set_calls
         (calls established
          ++ [send 0%nat
                (keep_alive_response
                   (JObj [("msg_type", JNum 12); ("timestamp", JNum 1700000000)]))])
         (set_heap
            (alter (on_signaling (with_lastKeepAlive (Some 2000))) 0%nat
               (heap established))
            established)).
Proof.
  split.
  - apply (proj1 (@C8_keep_alive_is_echoed sample established 1%nat 2000
                    (JObj [("msg_type", JNum 12); ("timestamp", JNum 1700000000)])
                    eq_refl)
             (JStr "wss://media") "s1" "st1" (Some 0%nat) 0%nat).
    reflexivity.
  - apply (proj2 (@C8_keep_alive_is_echoed sample established 0%nat 2000
                    (JObj [("msg_type", JNum 12); ("timestamp", JNum 1700000000)])
                    eq_refl)
             "s1" "st1" 0%nat).
    reflexivity.
Defined.



Lemma C3_witness :
  @handle sample (on_message 0%nat (Json JNull) 7) established
  = Throw (TypeError "Cannot read properties of null or undefined") established /\
  exists s',
    @handle sample
      (on_message 0%nat (Json (JObj [("msg_type", JNum 2); ("status_code", JNum 0)])) 7)
      established
    = Throw (SyntaxError "Invalid URL") s' /\
    heap s' = alter (on_signaling (with_state ready)) 0%nat (heap established) /\
    sockets s' = sockets established.
Proof.
  destruct (@C3_signaling_handler_throws sample established 0%nat 7 "s1" "st1" 0%nat
              eq_refl) as [H1 H2].
  split; [exact H1|].
  exact (H2 eq_refl (JObj [("msg_type", JNum 2); ("status_code", JNum 0)])
            eq_refl eq_refl eq_refl).
Defined.

Lemma C5_witness :
  exists s',
    @handle sample (on_message 0%nat terminal_frame 9) established = Return tt s' /\
    Map_get "s1" (activeConnections s') = None /\
    shouldReconnect <$> heap s' !! 0%nat = Some false /\
    calls s' = (calls established
                ++ close_request established (socket (signaling (heap established !!! 0%nat)))
                ++ close_request established (socket (media (heap established !!! 0%nat))))%list /\
    timers s' = timers established /\
    length (sockets s') = length (sockets established).
Proof.
  apply (@C5_terminal_stream_state_tears_down sample established 0%nat 9
           (JObj [("msg_type", JNum 8); ("state", JNum 4); ("reason", JNum 6)])
           "s1" "st1" 0%nat 0%nat established_reachable);
    reflexivity.
Defined.

Lemma C2_witness :
  exists s',
    @handle sample (on_timeout 0%nat) stopped_with_media_timer = Return tt s' /\
    calls s' = (calls stopped_with_media_timer
                ++ [new_WebSocket (by_media "s1") (JStr "wss://media")])%list /\
    sockets s' = (sockets stopped_with_media_timer ++
      [mkWebSocket (JStr "wss://media") CONNECTING
         (Some (MediaListeners (JStr "wss://media") "s1" "st1"
                  (socket (signaling (heap stopped_with_media_timer !!! 0%nat))) 0%nat))
         0])%list /\
    media <$> heap s' !! 0%nat
      = Some (mkChannel (Some (length (sockets stopped_with_media_timer))) connecting
                (lastKeepAlive (media (heap stopped_with_media_timer !!! 0%nat)))) /\
    stopped 0%nat s'.
Proof.
  apply (@C2_stale_media_timer_opens_a_socket sample stopped_with_media_timer 0%nat 3000
           (JStr "wss://media") "s1" "st1" 0%nat
           (heap stopped_with_media_timer !!! 0%nat));
    reflexivity.
Defined.

(** The whole scenario of the claim: timer set, session stopped, timer
    run out.  The gate is down, and yet a third socket exists, created by
    the last event. *)
Example stale_media_timer_scenario :
  length (sockets stopped_with_media_timer) = 2%nat /\
  stopped 0%nat stopped_with_media_timer /\
  Map_get "s1" (activeConnections stopped_with_media_timer) = None /\
  length (sockets after_stale_media_timer) = 3%nat /\
  readyState <$> sockets after_stale_media_timer !! 2%nat = Some CONNECTING /\
  last (calls after_stale_media_timer)
  = Some (new_WebSocket (by_media "s1") (JStr "wss://media")).
Proof. vm_compute. repeat split. Qed.

(** The same scenario on the signaling side: nothing happens. *)
Example stale_signaling_timer_scenario :
  @handle sample (on_timeout 0%nat) stopped_with_signaling_timer
  = Return tt (set_timers [] stopped_with_signaling_timer).
Proof.
  rewrite (@stale_signaling_timer_does_nothing sample stopped_with_signaling_timer
             0%nat 3000 "s1" "st1" 0%nat); reflexivity.
Qed.


Lemma C7_witness :
  handshake_received sample handshake_events "s1" (JStr "wss://media").
Proof.
  apply (proj1 (@C7_media_attempt_follows_handshake sample) handshake_events handshaken).
  - vm_compute. reflexivity.
  - apply list_elem_of_lookup. exists 2%nat. vm_compute. reflexivity.
Defined.

(** ** Further properties of the program *)

(** *** Where timers come from *)

Lemma preserves_at {A} (I : State -> Prop) (m : M A) (s : State) :
  preserves I m -> I s -> I (state_of (m s)).
Proof. intros H. exact (H s). Qed.

Section TimerFrame.
Context {env : Environment}.
Variable Q : list (Z * Timer) -> Prop.
Variable allowed : Timer -> Prop.
Hypothesis Q_push : forall l d t, allowed t -> Q l -> Q (l ++ [(d, t)]).

Let I (s : State) : Prop := Q (timers s).

Ltac tframe :=
  repeat first
    [ pres_step
    | lazymatch goal with
      | |- preserves _ (console_write _ _ _) => unfold console_write
      | |- preserves _ (record_call _) => unfold record_call
      | |- preserves _ (update _ _) => unfold update
      | |- preserves _ (ws_send _ _) => unfold ws_send
      | |- preserves _ (ws_close _) => unfold ws_close
      | |- preserves _ (ws_once_open_close _) => unfold ws_once_open_close
      | |- preserves _ (ws_on _ _) => unfold ws_on
      | |- preserves _ (mark _ _) => unfold mark
      | |- preserves _ (deref _) => unfold deref
      | |- preserves _ (generateSignature _ _) => unfold generateSignature
      | |- preserves _ (WebSocket_new _ _) => unfold WebSocket_new
      | |- preserves _ (modify _) =>
          let s := fresh "s" in
          let H := fresh "H" in
          apply preserves_modify; intros s H; exact H
      end ].

Lemma timers_connectToMediaWebSocket u sid stid ss c :
  preserves I (connectToMediaWebSocket u sid stid ss c).
Proof. unfold connectToMediaWebSocket. tframe. Qed.

Lemma timers_connectToSignalingWebSocket sid stid u c :
  preserves I (connectToSignalingWebSocket sid stid u c).
Proof. unfold connectToSignalingWebSocket. tframe. Qed.

Lemma timers_cleanupConnection sid : preserves I (cleanupConnection sid).
Proof. unfold cleanupConnection, cleanup_channel. tframe. Qed.

Lemma timers_handleMediaMessage data c k ss sid stid :
  preserves I (handleMediaMessage data c k ss sid stid).
Proof.
  unfold handleMediaMessage, JSON_parse, send_on, binary_payload, text_payload. tframe.
Qed.

Lemma timers_signaling_on_message k sid stid c data now :
  preserves I (signaling_on_message k sid stid c data now).
Proof.
  unfold signaling_on_message, signaling_event. tframe.
  - apply timers_connectToMediaWebSocket.
  - apply timers_cleanupConnection.
Qed.

Lemma timers_run_timer t : preserves I (run_timer t).
Proof.
  destruct t; unfold run_timer; tframe.
  - apply timers_connectToSignalingWebSocket.
  - apply timers_connectToMediaWebSocket.
Qed.

Lemma timers_setTimeout t d : allowed t -> preserves I (setTimeout t d).
Proof.
  intros Ht. apply preserves_modify. intros s Hs. unfold I. simpl.
  apply Q_push; assumption.
Qed.

Lemma timers_signaling_on_close sid stid c :
  allowed (SignalingRetry sid stid c) -> preserves I (signaling_on_close sid stid c).
Proof.
  intros Ha. unfold signaling_on_close. tframe. apply timers_setTimeout. exact Ha.
Qed.

Lemma timers_media_on_close u sid stid c :
  allowed (MediaRetry u sid stid c) -> preserves I (media_on_close u sid stid c).
Proof.
  intros Ha. unfold media_on_close. tframe.
  - apply timers_setTimeout. exact Ha.
  - apply timers_connectToSignalingWebSocket.
Qed.

(** Every event that is neither a socket closing nor a timer running
    out. *)
Lemma timers_handle_other (ev : Event) :
  (forall k, ev <> on_close k) -> (forall i, ev <> on_timeout i) ->
  preserves I (handle ev).
Proof.
  intros Hc Ht.
  destruct ev as [sid stid u|sid| |k|k data now|k|k|i]; cbn [handle].
  - tframe. apply timers_connectToSignalingWebSocket.
  - tframe. apply timers_cleanupConnection.
  - tframe. apply timers_cleanupConnection.
  - unfold emit_open, signaling_on_open, media_on_open. tframe.
  - unfold emit_message. tframe.
    + apply timers_signaling_on_message.
    + apply timers_handleMediaMessage.
  - destruct (Hc k eq_refl).
  - unfold emit_error, signaling_on_error, media_on_error. tframe.
  - destruct (Ht i eq_refl).
Qed.

End TimerFrame.

Section Timers.
Context {env : Environment}.

Lemma delete_out_of_range {A} (l : list A) (i : nat) : l !! i = None -> delete i l = l.
Proof.
  revert i. induction l as [|x l IH]; intros [|i]; simpl; try reflexivity.
  - discriminate.
  - intros H. f_equal. apply IH. exact H.
Qed.

Lemma signaling_on_close_timers sid stid c cn s :
  heap s !! c = Some cn ->
  timers (state_of (signaling_on_close sid stid c s))
  = if shouldReconnect cn
    then (timers s ++ [(3000, SignalingRetry sid stid c)])%list
    else timers s.
Proof.
  intros Hc. unfold signaling_on_close, deref, bind, gets, console_write, update,
    setTimeout, modify. cbn.
  rewrite (alter_lookup_total_hit _ _ _ _ Hc). cbn.
  destruct (shouldReconnect cn); reflexivity.
Qed.

Lemma media_on_close_timers u sid stid c cn s :
  heap s !! c = Some cn ->
  timers (state_of (media_on_close u sid stid c s)) = timers s \/
  (shouldReconnect cn = true /\
   timers (state_of (media_on_close u sid stid c s))
   = (timers s ++ [(3000, MediaRetry u sid stid c)])%list).
Proof.
  intros Hc. unfold media_on_close, deref, bind, gets, console_write, update,
    setTimeout, modify. cbn -[connectToSignalingWebSocket signaling_alive].
  rewrite (alter_lookup_total_hit _ _ _ _ Hc).
  cbn -[connectToSignalingWebSocket signaling_alive].
  destruct (shouldReconnect cn); cbn -[connectToSignalingWebSocket signaling_alive];
    [|left; reflexivity].
  match goal with |- context [if ?b then _ else _] => destruct b end.
  - right. split; reflexivity.
  - left.
    match goal with |- context [connectToSignalingWebSocket ?a ?b ?c ?d ?x] =>
      apply (timers_connectToSignalingWebSocket (fun l => l = timers s) a b c d x)
    end.
    reflexivity.
Qed.

(** X3.  Timers are set by closing sockets only.  An event that is not a
    socket closing leaves the pending timers as they are, except that a
    timer running out is removed; a closing socket adds at most one timer,
    with a delay of 3000 ms. *)
Theorem X3_timers_are_set_by_close_only (ev : Event) (s : State) :
  timers_after ev (timers s) (timers (state_of (handle ev s))).
Proof.
  assert (forall ev', (forall k, ev' <> on_close k) -> (forall i, ev' <> on_timeout i) ->
                      timers (state_of (handle ev' s)) = timers s) as Hother.
  { intros ev' Hc Ht.
    apply (timers_handle_other (fun l => l = timers s) ev' Hc Ht s). reflexivity. }
  destruct ev as [sid stid u|sid| |k|k data now|k|k|i]; unfold timers_after;
    try (apply Hother; intros; discriminate).
  - (* close *)
    remember (timers (state_of (handle (on_close k) s))) as l eqn:E.
    cbn [handle] in E. unfold emit_close, bind at 1, gets at 1 in E.
    unfold bind at 1, mark, modify in E.
    destruct (sockets s !! k) as [w|] eqn:Ew; cbn [fmap option_fmap option_map] in E;
      [|left; exact E].
    destruct (listeners w) as [[sid stid c|u sid stid ss c]|] eqn:El;
      [| |left; exact E].
    + set (s1 := set_sockets _ s) in E.
      destruct (heap s !! c) as [cn|] eqn:Hc.
      * rewrite (signaling_on_close_timers sid stid c cn s1 Hc) in E.
        destruct (shouldReconnect cn); [right; eexists; exact E | left; exact E].
      * left. rewrite E.
        unfold signaling_on_close, deref, bind, gets, console_write, update,
          setTimeout, modify. cbn.
        rewrite list_lookup_total_alt, list_lookup_alter_eq.
        change (heap s1) with (heap s). rewrite Hc. reflexivity.
    + set (s1 := set_sockets _ s) in E.
      destruct (heap s !! c) as [cn|] eqn:Hc.
      * destruct (media_on_close_timers u sid stid c cn s1 Hc) as [H|[_ H]];
          rewrite H in E; [left; exact E | right; eexists; exact E].
      * left. rewrite E.
        unfold media_on_close, deref, bind, gets, console_write, update,
          setTimeout, modify. cbn.
        rewrite list_lookup_total_alt, list_lookup_alter_eq.
        change (heap s1) with (heap s). rewrite Hc. reflexivity.
  - (* timeout *)
    cbn [handle]. unfold fire, bind at 1, gets at 1.
    destruct (timers s !! i) as [[d t]|] eqn:Et.
    + unfold bind at 1, modify.
      match goal with |- context [run_timer t ?x] =>
        apply (timers_run_timer (fun l => l = delete i (timers s)) t x)
      end.
      reflexivity.
    + simpl. symmetry. apply delete_out_of_range. exact Et.
Qed.

Lemma stopped_lookup c s :
  stopped c s -> exists cn, heap s !! c = Some cn /\ shouldReconnect cn = false.
Proof.
  unfold stopped. destruct (heap s !! c) as [cn|]; [|discriminate].
  intros [= H]. exists cn. split; [reflexivity | exact H].
Qed.

Lemma no_new_timer_step (c : ConnRef) (T : list (Z * Timer)) (ev : Event) (s : State) :
  stopped c s ->
  no_new_timer_for c T (timers s) ->
  no_new_timer_for c T (timers (state_of (handle ev s))).
Proof.
  intros Hst HT. destruct (stopped_lookup c s Hst) as (cn & Hc & Hsr).
  assert (forall l d t, timer_conn t <> c -> no_new_timer_for c T l ->
                        no_new_timer_for c T (l ++ [(d, t)])) as Hpush.
  { intros l d t Hne Hl d' t' [H|H%list_elem_of_singleton]%elem_of_app Ht'.
    - exact (Hl d' t' H Ht').
    - injection H as -> ->. contradiction. }
  destruct ev as [sid stid u|sid| |k|k data now|k|k|i].
  1-5,7: apply (timers_handle_other (no_new_timer_for c T) _); try (intros; discriminate);
    exact HT.
  - (* close *)
    cbn [handle]. unfold emit_close, bind at 1, gets at 1. unfold bind at 1, mark, modify.
    destruct (sockets s !! k) as [w|] eqn:Ew; cbn [fmap option_fmap option_map];
      [|exact HT].
    destruct (listeners w) as [[sid stid c'|u sid stid ss c']|] eqn:El; [| |exact HT].
    + set (s1 := set_sockets _ s). destruct (decide (c' = c)) as [->|Hne].
      * rewrite (signaling_on_close_timers sid stid c cn s1 Hc), Hsr. exact HT.
      * apply (timers_signaling_on_close (no_new_timer_for c T)
                 (fun t => timer_conn t <> c) Hpush sid stid c' Hne s1).
        exact HT.
    + set (s1 := set_sockets _ s). destruct (decide (c' = c)) as [->|Hne].
      * destruct (media_on_close_timers u sid stid c cn s1 Hc) as [H|[H _]];
          [rewrite H; exact HT | congruence].
      * apply (timers_media_on_close (no_new_timer_for c T)
                 (fun t => timer_conn t <> c) Hpush u sid stid c' Hne s1).
        exact HT.
  - (* timeout *)
    cbn [handle]. unfold fire, bind at 1, gets at 1.
    destruct (timers s !! i) as [[d t]|] eqn:Et; [|exact HT].
    unfold bind at 1, modify.
    match goal with |- context [run_timer t ?x] =>
      apply (timers_run_timer (no_new_timer_for c T) t x)
    end.
    intros d' t' Hin. simpl in Hin. apply HT.
    eapply elem_of_sublist; [exact Hin | apply sublist_delete].
Qed.

(** X1.  The reconnect gate is never raised again: when [shouldReconnect]
    of an entity is false, it is false after every further run of
    events. *)
Theorem X1_gate_stays_down (c : ConnRef) (evs : list Event) (s s' : State) :
  stopped c s -> run evs s = Some s' -> stopped c s'.
Proof.
  revert s. induction evs as [|ev evs IH]; simpl; intros s Hs.
  - intros [= <-]. exact Hs.
  - destruct (enabled ev s); [|discriminate].
    apply IH. apply stopped_forever. exact Hs.
Qed.

(** X2.  No reconnection is scheduled for a stopped entity: once its gate
    is down, every timer of that entity that is pending after a further
    run of events was pending before it. *)
Theorem X2_no_timer_for_a_stopped_entity (c : ConnRef) (evs : list Event)
    (s s' : State) :
  stopped c s -> run evs s = Some s' ->
  no_new_timer_for c (timers s) (timers s').
Proof.
  intros Hs Hrun.
  assert (no_new_timer_for c (timers s) (timers s)) as H0 by (intros d t H _; exact H).
  revert H0 Hs Hrun. generalize (timers s) at 1 3 as T. intros T. revert s.
  induction evs as [|ev evs IH]; simpl; intros s HT Hs.
  - intros [= <-]. exact HT.
  - destruct (enabled ev s); [|discriminate].
    apply IH.
    + apply no_new_timer_step; assumption.
    + apply stopped_forever. exact Hs.
Qed.

End Timers.

(** *** Identity of the entities *)

Section Identity.
Context {env : Environment}.

Lemma lookup_alter_inv {A} (g : A -> A) (c : nat) (h : list A) (c' : nat) (x' : A) :
  alter g c h !! c' = Some x' ->
  exists x, h !! c' = Some x /\ (x' = x \/ x' = g x).
Proof.
  rewrite list_lookup_alter. case_decide as E; [subst c'|].
  - destruct (h !! c) as [x|]; [|discriminate]. intros [= <-].
    exists x. split; [reflexivity | right; reflexivity].
  - intros H. exists x'. split; [exact H | left; reflexivity].
Qed.

(** What [connectToSignalingWebSocket] does to the heap and the registry:
    nothing, or two writes to the signaling sub-record of the entity
    passed in, or the allocation and registration of a new entity with a
    validated endpoint. *)
Lemma connect_effect sid stid u existing s :
  let s' := state_of (connectToSignalingWebSocket sid stid u existing s) in
  let n := length (heap s) in
  (heap s' = heap s /\ activeConnections s' = activeConnections s) \/
  (exists c k,
     existing = Some c /\
     heap s' = alter (on_signaling (with_state connecting)) c
                 (alter (on_signaling (with_socket (Some k))) c (heap s)) /\
     activeConnections s' = activeConnections s) \/
  (exists k,
     existing = None /\ String.prefix "ws" u = true /\
     heap s' = alter (on_signaling (with_state connecting)) n
                 (alter (on_signaling (with_socket (Some k))) n
                    (heap s ++ [mkConn sid stid u true (mkChannel None connecting None)
                                  (mkChannel None idle None)])%list) /\
     activeConnections s' = Map_set sid n (activeConnections s)).
Proof.
  unfold connectToSignalingWebSocket, WebSocket_new. cbn -[String.prefix].
  destruct (String.prefix "ws" u) eqn:Ep;
    [|rewrite orb_true_r; left; split; reflexivity].
  destruct (negb (negb (u =? "")%string)); cbn; [left; split; reflexivity|].
  destruct (ws_url_ok (JStr u)); cbn; [|left; split; reflexivity].
  destruct existing as [c|]; cbn.
  - right. left. exists c, (length (sockets s)). repeat split.
  - right. right. exists (length (sockets s)). repeat split.
Qed.

Lemma same_identity_refl cn : same_identity cn cn.
Proof. repeat split. Qed.

Lemma same_identity_trans a b c :
  same_identity a b -> same_identity b c -> same_identity a c.
Proof. intros (H1 & H2 & H3) (H4 & H5 & H6). repeat split; congruence. Qed.

Lemma identity_alter (c : ConnRef) (cn : Conn) (g : Conn -> Conn) c' (h : list Conn) :
  keeps_identity g ->
  (exists cn', h !! c = Some cn' /\ same_identity cn cn') ->
  exists cn', alter g c' h !! c = Some cn' /\ same_identity cn cn'.
Proof.
  intros Hg (cn' & Hc & Hid). rewrite list_lookup_alter. case_decide; [subst c'|].
  - rewrite Hc. exists (g cn'). split; [reflexivity|].
    eapply same_identity_trans; [exact Hid | apply Hg].
  - exists cn'. split; assumption.
Qed.

Lemma identity_step (c : ConnRef) (cn : Conn) (ev : Event) :
  preserves (fun s => exists cn', heap s !! c = Some cn' /\ same_identity cn cn')
    (handle ev).
Proof.
  apply store_handle.
  - intros l s H; exact H.
  - intros l s H; exact H.
  - intros l s H; exact H.
  - intros l s H; exact H.
  - intros f c' s H. apply identity_alter; [intros x; repeat split | exact H].
  - intros f c' s H. apply identity_alter; [intros x; repeat split | exact H].
  - intros c' s H. apply identity_alter; [intros x; repeat split | exact H].
  - intros k s H; exact H.
  - intros sid stid u existing s H.
    destruct (connect_effect sid stid u existing s)
      as [[-> _]|[(c' & k & _ & -> & _)|(k & _ & _ & -> & _)]].
    + exact H.
    + apply identity_alter; [intros x; repeat split|].
      apply identity_alter; [intros x; repeat split | exact H].
    + apply identity_alter; [intros x; repeat split|].
      apply identity_alter; [intros x; repeat split|].
      destruct H as (cn' & Hc & Hid). exists cn'. split; [|exact Hid].
      apply lookup_app_l_Some. exact Hc.
Qed.

(** X4.  The identity of an entity is fixed at its creation: whatever
    events follow, the entity is still there and its sessionId, streamId
    and serverUrls are what they were. *)
Theorem X4_identity_is_immutable (c : ConnRef) (cn : Conn) (evs : list Event)
    (s s' : State) :
  heap s !! c = Some cn ->
  run evs s = Some s' ->
  exists cn', heap s' !! c = Some cn' /\ same_identity cn cn'.
Proof.
  intros Hc.
  assert (exists cn', heap s !! c = Some cn' /\ same_identity cn cn') as H
    by (exists cn; split; [exact Hc | apply same_identity_refl]).
  clear Hc. revert s H. induction evs as [|ev evs IH]; simpl; intros s H.
  - intros [= <-]. exact H.
  - destruct (enabled ev s); [|discriminate].
    apply IH. apply (identity_step c cn ev s H).
Qed.

(** Every event keeps the endpoints stored in the entities validated. *)
Lemma endpoints_validated_step (ev : Event) :
  preserves (fun s => forall c cn, heap s !! c = Some cn ->
                                   String.prefix "ws" (serverUrls cn) = true)
    (handle ev).
Proof.
  apply store_handle.
  - intros l s0 H; exact H.
  - intros l s0 H; exact H.
  - intros l s0 H; exact H.
  - intros l s0 H; exact H.
  - intros f c' s0 H c cn (x & Hx & [->| ->])%lookup_alter_inv; exact (H c x Hx).
  - intros f c' s0 H c cn (x & Hx & [->| ->])%lookup_alter_inv; exact (H c x Hx).
  - intros c' s0 H c cn (x & Hx & [->| ->])%lookup_alter_inv; exact (H c x Hx).
  - intros k s0 H; exact H.
  - intros sid stid u existing s0 H c cn.
    destruct (connect_effect sid stid u existing s0)
      as [[-> _]|[(c' & k & _ & -> & _)|(k & _ & Hp & -> & _)]].
    + apply H.
    + intros (x & (y & Hy & Hxy)%lookup_alter_inv & Hcn)%lookup_alter_inv.
      destruct Hcn as [->| ->], Hxy as [->| ->]; exact (H c y Hy).
    + intros (x & (y & Hy & Hxy)%lookup_alter_inv & Hcn)%lookup_alter_inv.
      assert (String.prefix "ws" (serverUrls y) = true) as Hyp.
      { apply lookup_app_Some in Hy as [Hy|[_ Hy]]; [exact (H c y Hy)|].
        destruct (c - length (heap s0))%nat; simpl in Hy; [|discriminate].
        injection Hy as <-. exact Hp. }
      destruct Hcn as [->| ->], Hxy as [->| ->]; exact Hyp.
Qed.

(** X5.  Every entity in a reachable store carries an endpoint that has
    passed the scheme test of [connectToSignalingWebSocket]: it starts
    with "ws".  The reconnection paths, which connect to the endpoint
    stored in the entity, therefore never take the invalid-URL exit. *)
Theorem X5_stored_endpoint_is_validated (s : State) (c : ConnRef) (cn : Conn) :
  reachable s ->
  heap s !! c = Some cn ->
  String.prefix "ws" (serverUrls cn) = true.
Proof.
  intros Hr. revert c cn. induction Hr as [|s ev Hr IH He].
  - intros c cn H. inversion H.
  - exact (endpoints_validated_step ev s IH).
Qed.

(** X6.  The registry is consistent with the entities: in a reachable
    store, the entity registered under a sessionId exists and carries
    that sessionId. *)
Theorem X6_registry_key_is_the_session_id (s : State) (sid : string) (c : ConnRef) :
  reachable s ->
  Map_get sid (activeConnections s) = Some c ->
  exists cn, heap s !! c = Some cn /\ sessionId cn = sid.
Proof.
  intros Hr Hget.
  assert (forall k c', (k, c') ∈ activeConnections s ->
                       sessionId <$> heap s !! c' = Some k) as H.
  { refine (store_reachable
              (fun s => forall k c', (k, c') ∈ activeConnections s ->
                                     sessionId <$> heap s !! c' = Some k)
              _ _ _ _ _ _ _ _ _ s _ Hr).
    - intros l s0 H; exact H.
    - intros l s0 H; exact H.
    - intros l s0 H; exact H.
    - intros l s0 H; exact H.
    - intros f c' s0 H k c0 Hin. simpl. rewrite list_lookup_alter.
      case_decide; [subst c'|exact (H k c0 Hin)].
      specialize (H k c0 Hin). destruct (heap s0 !! c0); [exact H | discriminate].
    - intros f c' s0 H k c0 Hin. simpl. rewrite list_lookup_alter.
      case_decide; [subst c'|exact (H k c0 Hin)].
      specialize (H k c0 Hin). destruct (heap s0 !! c0); [exact H | discriminate].
    - intros c' s0 H k c0 Hin. simpl. rewrite list_lookup_alter.
      case_decide; [subst c'|exact (H k c0 Hin)].
      specialize (H k c0 Hin). destruct (heap s0 !! c0); [exact H | discriminate].
    - intros k s0 H k' c0 Hin. simpl in Hin. apply Map_delete_elem_of in Hin.
      exact (H k' c0 Hin).
    - intros sid' stid u existing s0 H k c0.
      assert (forall (f : Conn -> Conn) c' (h : list Conn),
                (forall x, sessionId (f x) = sessionId x) ->
                sessionId <$> h !! c0 = Some k ->
                sessionId <$> alter f c' h !! c0 = Some k) as Halter.
      { intros f c' h Hf Hh. rewrite list_lookup_alter.
        case_decide; [subst c'|exact Hh].
        destruct (h !! c0) as [x|]; [|discriminate]. simpl in *.
        rewrite Hf. exact Hh. }
      destruct (connect_effect sid' stid u existing s0)
        as [[-> ->]|[(c' & k0 & _ & -> & ->)|(k0 & _ & _ & -> & ->)]].
      + apply H.
      + intros Hin. do 2 (apply Halter; [reflexivity|]). exact (H k c0 Hin).
      + intros [Hin|[= -> ->]]%Map_set_elem_of.
        * do 2 (apply Halter; [reflexivity|]). specialize (H k c0 Hin).
          destruct (heap s0 !! c0) as [x|] eqn:E; [|discriminate].
          rewrite (lookup_app_l_Some _ _ _ _ E). exact H.
        * do 2 (apply Halter; [reflexivity|]).
          rewrite lookup_app_r by lia.
          replace (length (heap s0) - length (heap s0))%nat with 0%nat by lia.
          reflexivity.
    - intros k c0 Hin. inversion Hin. }
  specialize (H sid c (Map_get_elem_of _ _ _ Hget)).
  destruct (heap s !! c) as [cn|]; [|discriminate].
  exists cn. split; [reflexivity|]. injection H as H. exact H.
Qed.

End Identity.

(** *** Start and stop *)

Section StartStop.
Context {env : Environment}.

(** One step of symbolic execution: the monad, the store updates and the
    record projections are computed; list operations are left for
    rewriting. *)
Ltac exec :=
  cbv [handle cleanupConnection cleanup_channel for_each emit_open emit_close emit_error
       emit_message fire mark signaling_on_open media_on_open signaling_on_close
       signaling_on_error media_on_error
       bind gets modify ret throw lift update deref console_write record_call state_of
       ws_close ws_once_open_close ws_send ws_on setTimeout socket_readyState closing
       channel on_channel on_signaling on_media
       with_socket with_state with_lastKeepAlive with_shouldReconnect
       with_readyState with_onceOpenClose with_listeners
       set_activeConnections set_heap set_sockets set_timers set_calls set_console
       activeConnections heap sockets timers calls console
       socket state lastKeepAlive
       sessionId streamId serverUrls shouldReconnect signaling media
       url readyState listeners onceOpenClose
       replicate negb fmap option_fmap option_map].

Lemma prefix_ws_truthy (u : string) :
  String.prefix "ws" u = true -> truthy (JStr u) = true.
Proof. destruct u; [discriminate | reflexivity]. Qed.

Lemma alter_at_end {A} (f : A -> A) (l : list A) (x : A) :
  alter f (length l) (l ++ [x])%list = (l ++ [f x])%list.
Proof.
  replace (length l) with (length l + 0)%nat at 1 by lia.
  rewrite alter_app_r. reflexivity.
Qed.

(** X7.  A start event whose endpoint does not begin with "ws" (the
    empty text included) allocates nothing: the handler returns, the
    refusal is the last line on the console, and registry, entities,
    sockets, timers and library calls are what they were. *)
Theorem X7_invalid_endpoint_allocates_nothing (sid stid u : string) (s : State) :
  String.prefix "ws" u = false ->
  exists s',
    handle (rtms_started sid stid u) s = Return tt s' /\
    same_but_console s s' /\
    last (console s') = Some (mkLog error_ "[Signaling] Invalid WebSocket URL:" [JStr u]).
Proof.
  intros Hp. unfold handle, connectToSignalingWebSocket. cbn -[String.prefix truthy].
  rewrite Hp, orb_true_r. cbn. eexists. split; [reflexivity|]. split.
  - destruct s; reflexivity.
  - simpl. apply last_snoc.
Qed.

(** X8.  A start event with an endpoint that begins with "ws" and that
    the library accepts makes one connection attempt and allocates one
    entity: the entity carries the identifiers and the endpoint of the
    event, its gate is up, its signaling sub-record is "connecting" and
    holds the new socket, its media sub-record is idle; the socket is
    connecting and carries the signaling listeners for that entity; the
    session is registered under its identifier. *)
Theorem X8_start_registers_a_fresh_entity (sid stid u : string) (s : State) :
  String.prefix "ws" u = true ->
  ws_url_ok (JStr u) = true ->
  let c := length (heap s) in
  let k := length (sockets s) in
  exists s',
    handle (rtms_started sid stid u) s = Return tt s' /\
    activeConnections s' = Map_set sid c (activeConnections s) /\
    heap s' = (heap s ++ [mkConn sid stid u true (mkChannel (Some k) connecting None)
                            (mkChannel None idle None)])%list /\
    sockets s' = (sockets s ++ [mkWebSocket (JStr u) CONNECTING
                                  (Some (SignalingListeners sid stid c)) 0])%list /\
    calls s' = (calls s ++ [new_WebSocket (by_signaling sid) (JStr u)])%list /\
    timers s' = timers s.
Proof.
  intros Hp Hu c k. unfold handle, connectToSignalingWebSocket, WebSocket_new.
  cbn -[String.prefix truthy]. rewrite Hp, (prefix_ws_truthy u Hp). cbn. rewrite Hu. cbn.
  eexists. split; [reflexivity|]. simpl. repeat split.
  - rewrite alter_at_end. cbn. rewrite alter_at_end. reflexivity.
  - rewrite alter_at_end. reflexivity.
Qed.

Lemma lookup_at_end {A} (l : list A) (x : A) : (l ++ [x])%list !! length l = Some x.
Proof.
  rewrite lookup_app_r by lia.
  replace (length l - length l)%nat with 0%nat by lia. reflexivity.
Qed.

Lemma lookup_total_at_end (l : list Conn) (x : Conn) : (l ++ [x])%list !!! length l = x.
Proof. apply list_lookup_total_correct, lookup_at_end. Qed.

Lemma Map_delete_set k v m : Map_delete k (Map_set k v m) = Map_delete k m.
Proof.
  induction m as [|[k' v'] m IH]; simpl.
  - rewrite String.eqb_refl. reflexivity.
  - destruct (String.eqb k k') eqn:E; simpl; rewrite E; [reflexivity|].
    rewrite IH. reflexivity.
Qed.

(** The store after a start event that is let through. *)
Lemma start_computed (sid stid u : string) (s : State) :
  String.prefix "ws" u = true ->
  ws_url_ok (JStr u) = true ->
  handle (rtms_started sid stid u) s
  = Return tt
      (mkState (Map_set sid (length (heap s)) (activeConnections s))
         (heap s ++ [mkConn sid stid u true
                       (mkChannel (Some (length (sockets s))) connecting None)
                       (mkChannel None idle None)])
         (sockets s ++ [mkWebSocket (JStr u) CONNECTING
                          (Some (SignalingListeners sid stid (length (heap s)))) 0])
         (timers s)
         (calls s ++ [new_WebSocket (by_signaling sid) (JStr u)])
         (((console s
            ++ [mkLog log_ "[Webhook] Event received:" [JStr "session.rtms_started"]])
            ++ [mkLog log_ "[Webhook] RTMS started for session" [JStr sid]])
            ++ [mkLog log_ "[Signaling] Connecting for session" [JStr sid]]))%list.
Proof.
  intros Hp Hu. destruct s as [m h ws ts cs co].
  unfold handle, connectToSignalingWebSocket, WebSocket_new.
  cbn -[String.prefix truthy]. rewrite Hp, (prefix_ws_truthy u Hp). cbn. rewrite Hu. cbn.
  repeat (rewrite alter_at_end; cbn).
  unfold ws_on, modify. cbn. rewrite alter_at_end. reflexivity.
Qed.

(** X9.  A session that is stopped before its signaling socket has
    opened never sends a handshake.  The cleanup finds the socket still
    connecting and defers the close to a one-shot 'open' listener; when
    the socket opens, the listener of the connect function sees the gate
    down and closes the socket, and the one-shot listener closes it
    again.  The registry is what it was before the start, less the
    session. *)
Theorem X9_stopped_before_open_closes_on_open (sid stid u : string) (s : State) :
  String.prefix "ws" u = true ->
  ws_url_ok (JStr u) = true ->
  let c := length (heap s) in
  let k := length (sockets s) in
  exists s',
    run [rtms_started sid stid u; rtms_stopped sid; on_open k] s = Some s' /\
    calls s' = (calls s ++ [new_WebSocket (by_signaling sid) (JStr u);
                            once_open_close k; close k; close k])%list /\
    activeConnections s' = Map_delete sid (activeConnections s) /\
    stopped c s' /\
    timers s' = timers s.
Proof.
  intros Hp Hu c k. cbn [run enabled].
  rewrite (start_computed sid stid u s Hp Hu). cbn [state_of]. subst c k.
  match goal with |- context [handle (rtms_stopped sid) ?S] => set (s1 := S) end.
  assert (exists s2,
            handle (rtms_stopped sid) s1 = Return tt s2 /\
            activeConnections s2 = Map_delete sid (activeConnections s) /\
            heap s2 = (heap s ++ [mkConn sid stid u false
                                    (mkChannel (Some (length (sockets s))) closed None)
                                    (mkChannel None idle None)])%list /\
            sockets s2 = (sockets s ++ [mkWebSocket (JStr u) CONNECTING
                                          (Some (SignalingListeners sid stid (length (heap s)))) 1])%list /\
            calls s2 = (calls s ++ [new_WebSocket (by_signaling sid) (JStr u);
                                    once_open_close (length (sockets s))])%list /\
            timers s2 = timers s) as (s2 & E2 & Hreg & Hheap & Hsock & Hcalls & Htim).
  { subst s1. exec. rewrite Map_get_set. exec.
    rewrite alter_at_end, lookup_total_at_end. exec.
    rewrite alter_at_end, lookup_at_end. exec.
    rewrite lookup_total_at_end. exec.
    eexists. split; [reflexivity|]. exec.
    rewrite alter_at_end, Map_delete_set, <- app_assoc. repeat split. }
  rewrite E2. clear E2 s1. destruct s2 as [m2 h2 ws2 ts2 cs2 co2].
  cbn [activeConnections heap sockets timers calls console] in Hreg, Hheap, Hsock, Hcalls, Htim.
  subst m2 h2 ws2 ts2 cs2.
  exec. rewrite !lookup_at_end. exec. rewrite lookup_total_at_end. exec.
  eexists. split; [reflexivity|]. exec.
  repeat split.
  - rewrite <- !app_assoc. reflexivity.
  - unfold stopped. exec. rewrite lookup_at_end. reflexivity.
Qed.

Lemma Map_delete_absent k m : Map_get k m = None -> Map_delete k m = m.
Proof.
  induction m as [|[k' v'] m IH]; simpl; [reflexivity|].
  destruct (String.eqb k k'); [discriminate|]. intros H. rewrite (IH H). reflexivity.
Qed.

Lemma Map_keys_delete_head k v m :
  k ∉ Map_keys m -> Map_delete k ((k, v) :: m) = m.
Proof.
  intros Hk. simpl. rewrite String.eqb_refl. apply Map_delete_absent.
  destruct (Map_get k m) as [c|] eqn:E; [|reflexivity].
  exfalso. apply Hk. apply Map_get_elem_of in E.
  unfold Map_keys. apply list_elem_of_fmap. exists (k, c). split; [reflexivity | exact E].
Qed.

Lemma registry_ok_cleanupConnection sid : preserves registry_ok (cleanupConnection sid).
Proof.
  apply store_cleanupConnection.
  - intros l s0 H; exact H.
  - intros l s0 H; exact H.
  - intros l s0 H; exact H.
  - intros f c s0 [H1 H2]; split; [exact H1|]. simpl. intros. rewrite length_alter. eauto.
  - intros f c s0 [H1 H2]; split; [exact H1|]. simpl. intros. rewrite length_alter. eauto.
  - intros c s0 [H1 H2]; split; [exact H1|]. simpl. intros. rewrite length_alter. eauto.
  - intros k s0 [H1 H2]; split; simpl.
    + apply Map_delete_NoDup. exact H1.
    + intros k' c H. apply Map_delete_elem_of in H. eauto.
Qed.

Lemma stopped_cleanupConnection c sid : preserves (stopped c) (cleanupConnection sid).
Proof.
  assert (forall (f : Conn -> Conn) c' s,
            (forall x, shouldReconnect x = false -> shouldReconnect (f x) = false) ->
            stopped c s -> stopped c (set_heap (alter f c' (heap s)) s)) as Halter.
  { intros f c' s Hf Hs. unfold stopped in *. simpl.
    rewrite list_lookup_alter. case_decide; [subst c'|exact Hs].
    destruct (heap s !! c) as [cn|]; [|discriminate]. simpl in *.
    injection Hs as Hs. rewrite (Hf cn Hs). reflexivity. }
  apply store_cleanupConnection.
  - intros l s H; exact H.
  - intros l s H; exact H.
  - intros l s H; exact H.
  - intros f c' s H. apply Halter; [intros x Hx; exact Hx | exact H].
  - intros f c' s H. apply Halter; [intros x Hx; exact Hx | exact H].
  - intros c' s H. apply Halter; [reflexivity | exact H].
  - intros k s H; exact H.
Qed.

(** The cleanup of a session, whether it is registered or not: the call
    returns, the session is gone from the registry, which is otherwise
    what it was, no timer is touched, and the gate of the entity that was
    registered is down. *)
Lemma cleanupConnection_effect (sid : string) (s : State) :
  registry_ok s ->
  exists s',
    cleanupConnection sid s = Return tt s' /\
    activeConnections s' = Map_delete sid (activeConnections s) /\
    timers s' = timers s /\
    (forall c, Map_get sid (activeConnections s) = Some c -> stopped c s') /\
    (Map_get sid (activeConnections s) = None -> s' = s).
Proof.
  intros [Hnd Href]. destruct (Map_get sid (activeConnections s)) as [c|] eqn:Hget.
  - pose proof (Href sid c (Map_get_elem_of _ _ _ Hget)) as Hlt.
    destruct (lookup_lt_is_Some_2 _ _ Hlt) as [cn Hc].
    unfold cleanupConnection, bind at 1, gets. rewrite Hget.
    cbn [for_each]. unfold console_write, update, modify, bind at 1 2 3.
    set (s1 := set_heap _ _).
    assert (heap s1 !! c = Some (with_shouldReconnect false cn)) as Hc1
      by (apply alter_lookup_hit; exact Hc).
    destruct (cleanup_channel_spec c signaling_ s1 _ Hc1)
      as (s2 & cn2 & E2 & Hreg2 & Ht2 & _ & _ & _ & _ & _ & Hc2 & Hsr2 & _ & _).
    unfold bind at 1. rewrite E2. unfold bind at 1.
    destruct (cleanup_channel_spec c media_ s2 _ Hc2)
      as (s3 & cn3 & E3 & Hreg3 & Ht3 & _ & _ & _ & _ & _ & Hc3 & Hsr3 & _ & _).
    rewrite E3. cbn. eexists. split; [reflexivity|]. simpl. repeat split.
    + rewrite Hreg3, Hreg2. reflexivity.
    + rewrite Ht3, Ht2. reflexivity.
    + intros c' [= <-]. unfold stopped. simpl. rewrite Hc3. simpl.
      rewrite Hsr3, Hsr2. reflexivity.
    + discriminate.
  - exists s. unfold cleanupConnection, bind, gets. rewrite Hget.
    repeat split.
    + rewrite (Map_delete_absent _ _ Hget). reflexivity.
    + discriminate.
Qed.

(** X10.  Stopping is idempotent: after a stop event for a session, a
    second stop event for the same session returns and changes nothing
    but the console. *)
Theorem X10_second_stop_only_logs (sid : string) (s : State) :
  reachable s ->
  let s1 := state_of (handle (rtms_stopped sid) s) in
  exists s2,
    handle (rtms_stopped sid) s1 = Return tt s2 /\
    same_but_console s1 s2.
Proof.
  intros Hr s1.
  assert (registry_ok s1 /\ Map_get sid (activeConnections s1) = None) as [Hok Hnone].
  { subst s1. cbn [handle]. unfold bind, console_write, modify.
    match goal with |- context [cleanupConnection sid ?x] => set (s0 := x) end.
    assert (registry_ok s0) as H0 by (apply (registry_ok_reachable s Hr)).
    destruct (cleanupConnection_effect sid s0 H0) as (s' & E & Hreg & _).
    pose proof (registry_ok_cleanupConnection sid s0 H0) as Hok.
    rewrite E in *. simpl in *. split; [exact Hok|].
    rewrite Hreg. apply Map_get_delete. }
  cbn [handle]. unfold bind, console_write, modify.
  match goal with |- context [cleanupConnection sid ?x] => set (s0 := x) end.
  assert (registry_ok s0) as H0 by exact Hok.
  destruct (cleanupConnection_effect sid s0 H0) as (s' & E & _ & _ & _ & Hsame).
  rewrite (Hsame Hnone) in E. exists s0. split; [exact E|].
  subst s0. destruct s1; reflexivity.
Qed.

(** The shutdown loop over the keys of a registry. *)
Lemma shutdown_loop (ks : list string) (s : State) :
  registry_ok s ->
  Map_keys (activeConnections s) = ks ->
  exists s',
    for_each ks cleanupConnection s = Return tt s' /\
    activeConnections s' = [] /\
    timers s' = timers s /\
    (forall k c, (k, c) ∈ activeConnections s -> stopped c s') /\
    (forall c, stopped c s -> stopped c s').
Proof.
  revert s. induction ks as [|k ks IH]; intros s Hok Hks.
  - exists s. destruct (activeConnections s) as [|[k c] m] eqn:E; [|discriminate].
    repeat split; try reflexivity.
    + intros k c H. inversion H.
    + intros c H; exact H.
  - destruct (activeConnections s) as [|[k' c] m] eqn:E; [discriminate|].
    simpl in Hks. injection Hks as -> Hks.
    destruct (cleanupConnection_effect k s Hok) as (s1 & E1 & Hreg1 & Ht1 & Hst1 & _).
    pose proof (registry_ok_cleanupConnection k s Hok) as Hok1.
    pose proof (fun c' => stopped_cleanupConnection c' k s) as Hkeep1.
    rewrite E1 in Hok1, Hkeep1. simpl in Hok1, Hkeep1.
    assert (k ∉ Map_keys m) as Hk.
    { destruct Hok as [Hnd _]. rewrite E in Hnd. simpl in Hnd.
      apply NoDup_cons in Hnd as [Hnd _]. exact Hnd. }
    rewrite E, (Map_keys_delete_head k c m Hk) in Hreg1.
    assert (Map_keys (activeConnections s1) = ks) as Hks1 by (rewrite Hreg1; exact Hks).
    destruct (IH s1 Hok1 Hks1) as (s' & E' & Hreg' & Ht' & Hst' & Hkeep').
    exists s'. cbn [for_each]. unfold bind. rewrite E1. repeat split.
    + exact E'.
    + exact Hreg'.
    + rewrite Ht', Ht1. reflexivity.
    + intros k0 c0 [[= -> ->]|Hin]%elem_of_cons.
      * apply Hkeep', Hst1. rewrite E. simpl. rewrite String.eqb_refl. reflexivity.
      * apply (Hst' k0 c0). rewrite Hreg1. exact Hin.
    + intros c0 H0. apply Hkeep', Hkeep1. exact H0.
Qed.

(** X11.  The shutdown handler cleans up every registered session: it
    returns, the registry is empty afterwards, the gate of every entity
    that was registered is down, gates that were down stay down, and no
    timer is set or cleared. *)
Theorem X11_shutdown_empties_the_registry (s : State) :
  reachable s ->
  exists s',
    handle SIGINT s = Return tt s' /\
    activeConnections s' = [] /\
    (forall sid c, (sid, c) ∈ activeConnections s -> stopped c s') /\
    (forall c, stopped c s -> stopped c s') /\
    timers s' = timers s.
Proof.
  intros Hr. cbn [handle]. unfold bind at 1, console_write, modify.
  unfold bind at 1, gets.
  match goal with |- context [for_each _ cleanupConnection ?x] => set (s0 := x) end.
  assert (registry_ok s0) as H0 by (apply (registry_ok_reachable s Hr)).
  destruct (shutdown_loop (Map_keys (activeConnections s0)) s0 H0 eq_refl)
    as (s' & E & Hreg & Ht & Hst & Hkeep).
  exists s'. repeat split.
  - exact E.
  - exact Hreg.
  - exact Hst.
  - exact Hkeep.
  - exact Ht.
Qed.

End StartStop.

(** *** The socket listeners *)

Section Listeners.
Context {env : Environment}.

(** One step of symbolic execution: the monad and the store updates are
    computed; list operations are left for rewriting. *)
Ltac mstep :=
  cbn -[lookup_total lookup alter for_each replicate String.prefix truthy
        hex signature_message is_num get_prop opt_prop
        ToString_throws Map_get Map_set Map_delete delete].

Lemma for_each_ws_close_frame (n : nat) (k : SockId) (s : State) :
  exists s',
    for_each (replicate n k) ws_close s = Return tt s' /\
    calls s' = (calls s ++ replicate n (close k))%list /\
    timers s' = timers s /\
    heap s' = heap s /\
    activeConnections s' = activeConnections s /\
    length (sockets s') = length (sockets s).
Proof.
  revert s. induction n as [|n IH]; intros s; cbn [replicate for_each].
  - exists s. rewrite app_nil_r. repeat split.
  - unfold bind at 1, ws_close, record_call, modify, bind at 1.
    match goal with |- context [for_each _ _ ?x] => destruct (IH x)
      as (s' & E & Hcs & Ht & Hh & Hm & Hl) end.
    exists s'. split; [exact E|]. rewrite Hcs, Ht, Hh, Hm, Hl. simpl.
    rewrite length_alter, <- app_assoc. repeat split.
Qed.

Lemma for_each_ws_close_console (n : nat) (k : SockId) :
  forall s, console (state_of (for_each (replicate n k) ws_close s)) = console s.
Proof.
  induction n as [|n IH]; intros s; cbn [replicate for_each]; [reflexivity|].
  unfold bind at 1, ws_close, record_call, modify, bind at 1. rewrite IH. reflexivity.
Qed.

(** The 'open' listener of either channel, with the gate up and the
    secret configured. *)
Lemma open_listener_sends (k : SockId) (l : Listeners) (cn : Conn) (key : string)
    (x : State) :
  heap x !! listener_conn l = Some cn ->
  shouldReconnect cn = true ->
  clientSecret = Some key ->
  exists x',
    match l with
    | SignalingListeners sid stid c => signaling_on_open k sid stid c
    | MediaListeners _ sid stid _ c => media_on_open k sid stid c
    end x = Return tt x' /\
    calls x' = (calls x ++ [send k (JSON_stringify (handshake_request l
                  (hex (hmac_sha256 key (signature_message (fst (listener_session l))
                                                           (snd (listener_session l)))))))])%list /\
    heap x' = alter (listener_channel l (with_state authenticated)) (listener_conn l)
                (heap x) /\
    activeConnections x' = activeConnections x /\
    timers x' = timers x /\
    sockets x' = sockets x.
Proof.
  intros Hc Hgate Hkey.
  destruct l as [sid stid c|mu sid stid ss c]; cbn [listener_conn] in Hc;
    unfold signaling_on_open, media_on_open, deref, generateSignature, bind, gets;
    rewrite (list_lookup_total_correct _ _ _ Hc), Hgate, Hkey; cbn;
    eexists; (split; [reflexivity|]); repeat split.
Qed.

(** X12.  When a socket opens while the gate of its entity is up and the
    client secret is configured, its 'open' listener sends exactly one
    frame on that socket: the handshake request of its channel, carrying
    the identifiers captured at connection time and, as signature, the
    hexadecimal HMAC-SHA256 of clientId,sessionId,streamId.  It then
    marks the sub-record of its channel "authenticated".  One-shot
    closers left by an earlier cleanup run after it. *)
Theorem X12_open_sends_the_handshake (s : State) (k : SockId) (w : WebSocket)
    (l : Listeners) (cn : Conn) (key : string) :
  sockets s !! k = Some w ->
  listeners w = Some l ->
  heap s !! listener_conn l = Some cn ->
  shouldReconnect cn = true ->
  clientSecret = Some key ->
  let signature :=
    hex (hmac_sha256 key (signature_message (fst (listener_session l))
                                            (snd (listener_session l)))) in
  exists s',
    handle (on_open k) s = Return tt s' /\
    calls s' = (calls s ++ send k (JSON_stringify (handshake_request l signature))
                        :: replicate (onceOpenClose w) (close k))%list /\
    heap s' = alter (listener_channel l (with_state authenticated)) (listener_conn l)
                (heap s) /\
    activeConnections s' = activeConnections s /\
    timers s' = timers s /\
    length (sockets s') = length (sockets s).
Proof.
  intros Hk Hl Hc Hgate Hkey signature. subst signature.
  unfold handle, emit_open. mstep. rewrite Hk. mstep. rewrite Hl. unfold bind at 1.
  match goal with |- context [match l with _ => _ end ?x] =>
    destruct (open_listener_sends k l cn key x Hc Hgate Hkey)
      as (x' & E & Hcs & Hh & Hm & Ht & Hws)
  end.
  replace (match l with
           | SignalingListeners sid stid conn => signaling_on_open k sid stid conn
           | MediaListeners _ sid stid _ conn => media_on_open k sid stid conn
           end)
    with (match l with
          | SignalingListeners sid stid c => signaling_on_open k sid stid c
          | MediaListeners _ sid stid _ c => media_on_open k sid stid c
          end) by (destruct l; reflexivity).
  rewrite E.
  destruct (for_each_ws_close_frame (onceOpenClose w) k x')
    as (s' & E' & Hcs' & Ht' & Hh' & Hm' & Hlen').
  exists s'. split; [exact E'|].
  rewrite Hcs', Hh', Hm', Ht', Hlen', Hcs, Hh, Hm, Ht, Hws. mstep.
  rewrite !length_alter, <- app_assoc. repeat split.
Qed.

(** X13.  When a socket opens while the gate of its entity is up and the
    client secret is not configured, the 'open' listener throws a
    TypeError out of the signature computation: no frame is sent, no
    entity is written, and the socket is left open. *)
Theorem X13_open_without_secret_throws (s : State) (k : SockId) (w : WebSocket)
    (l : Listeners) (cn : Conn) :
  sockets s !! k = Some w ->
  listeners w = Some l ->
  heap s !! listener_conn l = Some cn ->
  shouldReconnect cn = true ->
  clientSecret = None ->
  exists m s',
    handle (on_open k) s = Throw (TypeError m) s' /\
    calls s' = calls s /\
    heap s' = heap s /\
    timers s' = timers s /\
    socket_readyState k s' = Some OPEN.
Proof.
  intros Hk Hl Hc Hgate Hkey.
  unfold handle, emit_open. mstep. rewrite Hk. mstep. rewrite Hl. unfold bind at 1.
  destruct l as [sid stid c|mu sid stid ss c]; cbn [listener_conn] in Hc;
    unfold signaling_on_open, media_on_open, deref, generateSignature, bind, gets;
    mstep; rewrite (list_lookup_total_correct _ _ _ Hc), Hgate, Hkey; mstep;
    eexists _, _; (split; [reflexivity|]); mstep; repeat split;
    unfold socket_readyState; mstep;
    rewrite !list_lookup_alter_eq, Hk; reflexivity.
Qed.

(** X14.  When a signaling socket closes, its listener marks the
    signaling sub-record "closed" and schedules one reconnection, 3000 ms
    later, exactly when the gate of the entity is up.  It makes no call
    on the library: the reconnection never happens at once. *)
Theorem X14_signaling_close_schedules_a_retry (s : State) (k : SockId)
    (sid stid : string) (c : ConnRef) (cn : Conn) :
  signaling_socket s k sid stid c ->
  heap s !! c = Some cn ->
  exists s',
    handle (on_close k) s = Return tt s' /\
    timers s' = (if shouldReconnect cn
                 then timers s ++ [(3000, SignalingRetry sid stid c)]
                 else timers s)%list /\
    heap s' = alter (on_signaling (with_state closed)) c (heap s) /\
    calls s' = calls s /\
    activeConnections s' = activeConnections s /\
    socket_readyState k s' = Some CLOSED.
Proof.
  unfold signaling_socket. intros Hk Hc.
  destruct (sockets s !! k) as [w|] eqn:Ew; [|discriminate].
  injection Hk as Hl.
  unfold handle, emit_close. mstep. rewrite Ew. mstep. rewrite Hl.
  unfold signaling_on_close, deref, bind, gets. mstep.
  rewrite (alter_lookup_total_hit _ _ _ _ Hc). mstep.
  assert (socket_readyState k
            (set_sockets (alter (with_readyState CLOSED) k (sockets s)) s) = Some CLOSED)
    as Hclosed by (unfold socket_readyState; mstep;
                   rewrite list_lookup_alter_eq, Ew; reflexivity).
  destruct (shouldReconnect cn); mstep;
    (eexists; split; [reflexivity|]); repeat split; exact Hclosed.
Qed.

(** X15.  When the reconnection timer of a signaling socket runs out
    while the gate is up, the program connects again to the endpoint
    stored in the entity and hands the new socket to the same entity: no
    entity is allocated, the registry is not written, and the media
    sub-record is left as it was. *)
Theorem X15_signaling_retry_reuses_the_entity (s : State) (i : nat) (d : Z)
    (sid stid : string) (c : ConnRef) (cn : Conn) :
  reachable s ->
  timers s !! i = Some (d, SignalingRetry sid stid c) ->
  heap s !! c = Some cn ->
  shouldReconnect cn = true ->
  ws_url_ok (JStr (serverUrls cn)) = true ->
  let k := length (sockets s) in
  exists s',
    handle (on_timeout i) s = Return tt s' /\
    calls s' = (calls s ++ [new_WebSocket (by_signaling sid) (JStr (serverUrls cn))])%list /\
    sockets s' = (sockets s ++ [mkWebSocket (JStr (serverUrls cn)) CONNECTING
                                  (Some (SignalingListeners sid stid c)) 0])%list /\
    heap s' = alter (on_signaling (with_state connecting)) c
                (alter (on_signaling (with_socket (Some k))) c (heap s)) /\
    activeConnections s' = activeConnections s /\
    timers s' = delete i (timers s).
Proof.
  intros Hr Hi Hc Hgate Hu k.
  assert (String.prefix "ws" (serverUrls cn) = true) as Hp.
  { clear Hi Hgate Hu. revert c cn Hc. induction Hr as [|s ev Hr IH He].
    - intros c cn H. inversion H.
    - intros c cn. exact (endpoints_validated_step ev s IH c cn). }
  unfold handle, fire. mstep. rewrite Hi. mstep.
  rewrite (list_lookup_total_correct _ _ _ Hc), Hgate.
  unfold connectToSignalingWebSocket, WebSocket_new. mstep.
  rewrite Hp, (prefix_ws_truthy _ Hp). mstep. rewrite Hu. mstep.
  eexists. split; [reflexivity|]. mstep. rewrite alter_at_end. repeat split.
Qed.

(** X20.  When a socket opens while the gate of its entity is down, its
    'open' listener sends nothing: it closes the socket, silently, and
    writes no entity, no timer and no registry entry.  The one-shot
    closers left by the cleanup close the socket once more each. *)
Theorem X20_open_with_gate_down_only_closes (s : State) (k : SockId) (w : WebSocket)
    (l : Listeners) :
  sockets s !! k = Some w ->
  listeners w = Some l ->
  stopped (listener_conn l) s ->
  exists s',
    handle (on_open k) s = Return tt s' /\
    calls s' = (calls s ++ close k :: replicate (onceOpenClose w) (close k))%list /\
    heap s' = heap s /\
    activeConnections s' = activeConnections s /\
    timers s' = timers s /\
    console s' = console s.
Proof.
  unfold stopped. intros Hk Hl Hst.
  destruct (heap s !! listener_conn l) as [cn|] eqn:Hc; [|discriminate].
  injection Hst as Hgate.
  unfold handle, emit_open. mstep. rewrite Hk. mstep. rewrite Hl. unfold bind at 1.
  match goal with |- context [match l with _ => _ end ?x] =>
    assert (match l with
            | SignalingListeners sid stid conn => signaling_on_open k sid stid conn
            | MediaListeners _ sid stid _ conn => media_on_open k sid stid conn
            end x = ws_close k x) as ->
  end.
  { destruct l as [sid stid c|mu sid stid ss c]; cbn [listener_conn] in Hc;
      unfold signaling_on_open, media_on_open, deref, bind at 1, gets; mstep;
      rewrite (list_lookup_total_correct _ _ _ Hc), Hgate; reflexivity. }
  mstep.
  match goal with |- context [for_each _ ws_close ?x] =>
    pose proof (for_each_ws_close_console (onceOpenClose w) k x) as Hco;
    destruct (for_each_ws_close_frame (onceOpenClose w) k x)
      as (s' & E & Hcs & Ht & Hh & Hm & Hlen)
  end.
  rewrite E in Hco. cbn [state_of] in Hco. exists s'. split; [exact E|].
  rewrite Hcs, Hh, Hm, Ht, Hco. mstep. rewrite <- app_assoc. repeat split.
Qed.

(** X24.  When a socket of a stopped entity closes, nothing follows: the
    'close' listener of either channel marks its sub-record "closed" and
    returns.  It sets no timer and makes no call on the library, so it
    neither schedules a reconnection nor restarts signaling. *)
Theorem X24_close_with_gate_down_ends_there (s : State) (k : SockId) (w : WebSocket)
    (l : Listeners) :
  sockets s !! k = Some w ->
  listeners w = Some l ->
  stopped (listener_conn l) s ->
  exists s',
    handle (on_close k) s = Return tt s' /\
    timers s' = timers s /\
    calls s' = calls s /\
    heap s' = alter (listener_channel l (with_state closed)) (listener_conn l) (heap s) /\
    activeConnections s' = activeConnections s /\
    length (sockets s') = length (sockets s).
Proof.
  unfold stopped. intros Hk Hl Hst.
  destruct (heap s !! listener_conn l) as [cn|] eqn:Hc; [|discriminate].
  injection Hst as Hgate.
  unfold handle, emit_close. mstep. rewrite Hk. mstep. rewrite Hl.
  destruct l as [sid stid c|mu sid stid ss c]; cbn [listener_conn listener_channel] in *;
    unfold signaling_on_close, media_on_close, deref, bind, gets; mstep;
    rewrite (alter_lookup_total_hit _ _ _ _ Hc); mstep; rewrite Hgate; mstep;
    (eexists; split; [reflexivity|]); mstep; rewrite length_alter; repeat split.
Qed.

End Listeners.

(** *** What a frame can do *)

Section MediaFrame.
Context {env : Environment}.
Variable conn : ConnRef.
Variable s0 : State.

Let I (s : State) : Prop := media_frame_of conn s0 s.

Lemma media_frame_refl : media_frame_of conn s0 s0.
Proof.
  repeat split; [left; reflexivity|].
  exists []. rewrite app_nil_r. split; [reflexivity|]. intros c H. inversion H.
Qed.

Lemma media_frame_console l t a : preserves I (console_write l t a).
Proof. apply preserves_modify. intros s H. exact H. Qed.

Lemma media_frame_send k f : preserves I (ws_send k f).
Proof.
  apply preserves_modify. intros s (Hm & Hw & Ht & Hh & added & Hcs & Hall).
  repeat split; try assumption. simpl.
  exists (added ++ [send k f])%list. split.
  - rewrite Hcs, app_assoc. reflexivity.
  - intros c [H| ->%list_elem_of_singleton]%elem_of_app; [exact (Hall c H)|].
    exists k, f. reflexivity.
Qed.

Lemma media_frame_streaming : preserves I (update conn (on_media (with_state streaming))).
Proof.
  apply preserves_modify. intros s (Hm & Hw & Ht & Hh & Hcs).
  repeat split; try assumption. simpl. right.
  destruct Hh as [-> | ->]; [reflexivity|].
  rewrite list_alter_alter_eq. apply list_alter_ext; [|reflexivity].
  intros x _. destruct x as [a b c d e [f g h]]. reflexivity.
Qed.

Lemma media_frame_handleMediaMessage data k ss sid stid :
  preserves I (handleMediaMessage data conn k ss sid stid).
Proof.
  unfold handleMediaMessage, JSON_parse, send_on, binary_payload, text_payload.
  repeat first
    [ pres_step
    | apply media_frame_console
    | apply media_frame_send
    | apply media_frame_streaming ].
Qed.

End MediaFrame.

Section Frames.
Context {env : Environment}.

Ltac mstep :=
  cbn -[lookup_total lookup alter for_each replicate String.prefix truthy
        hex signature_message is_num get_prop opt_prop
        ToString_throws Map_get Map_set Map_delete delete].

Lemma same_but_console_refl (s : State) : same_but_console s s.
Proof. destruct s; reflexivity. Qed.

Lemma console_only_write (s0 : State) l t a :
  preserves (same_but_console s0) (console_write l t a).
Proof.
  apply preserves_modify. intros s H. unfold same_but_console in *.
  rewrite H at 2. reflexivity.
Qed.

(** Breaks a computation that can only write the console into its
    steps. *)
Ltac console_only :=
  repeat first [ pres_step | apply console_only_write ].

(** X16.  Whatever arrives on a media socket, the media message handler
    returns: no exception leaves it.  And it is confined: it registers
    and removes no session, creates and closes no socket, sets no timer,
    and writes no entity, except that it may mark the media sub-record of
    its own entity "streaming"; the only calls it makes on the library
    are calls of [send]. *)
Theorem X16_media_frames_are_confined (s : State) (k : SockId) (data : wire) (now : Z)
    (u : jsval) (sid stid : string) (ss : option SockId) (conn : ConnRef) :
  media_socket s k u sid stid ss conn ->
  exists s',
    handle (on_message k data now) s = Return tt s' /\
    media_frame_of conn s s'.
Proof.
  unfold media_socket. intros Hk.
  unfold handle, emit_message, bind, gets. rewrite Hk.
  destruct (handleMediaMessage_returns data conn k ss sid stid s) as (s' & E).
  exists s'. split; [exact E|].
  pose proof (media_frame_handleMediaMessage conn s data k ss sid stid s
                (media_frame_refl conn s)) as H.
  rewrite E in H. exact H.
Qed.

(** X17.  The media payload cases are stubs that only log: a frame on a
    media socket whose msg_type is neither 4 (handshake response) nor 12
    (keep-alive request) makes the handler return with nothing changed
    but the console: nothing is sent and no entity is written. *)
Theorem X17_media_payloads_only_log (s : State) (k : SockId) (msg t : jsval) (now : Z)
    (u : jsval) (sid stid : string) (ss : option SockId) (conn : ConnRef) :
  media_socket s k u sid stid ss conn ->
  get_prop msg "msg_type" = inr t ->
  is_num t 4 = false ->
  is_num t 12 = false ->
  exists s',
    handle (on_message k (Json msg) now) s = Return tt s' /\
    same_but_console s s'.
Proof.
  unfold media_socket. intros Hk Hm H4 H12.
  unfold handle, emit_message, bind at 1, gets. rewrite Hk.
  destruct (handleMediaMessage_returns (Json msg) conn k ss sid stid s) as (s' & E).
  exists s'. split; [exact E|].
  revert E. unfold handleMediaMessage, try_catch. mstep. rewrite Hm. mstep.
  rewrite H4, H12.
  match goal with |- context [match ?m s with _ => _ end] =>
    assert (preserves (same_but_console s) m) as Hpres
      by (unfold binary_payload, text_payload; console_only);
    pose proof (Hpres s (same_but_console_refl s)) as Hs;
    destruct (m s) as [[] x|e x]
  end.
  - intros [= <-]. exact Hs.
  - mstep. intros [= <-]. simpl in Hs. unfold same_but_console in *.
    rewrite Hs at 2. reflexivity.
Qed.

Lemma quiet_signaling_message (s0 : State) (k : SockId) (sid stid : string)
    (conn : ConnRef) (msg : jsval) (now : Z) :
  signaling_quiet msg ->
  preserves (same_but_console s0) (signaling_on_message k sid stid conn (Json msg) now).
Proof.
  intros (t & Hm & H12 & H2 & H8). unfold signaling_on_message.
  apply preserves_bind_lift. intros t' Ht'. rewrite Hm in Ht'. injection Ht' as <-.
  destruct (is_num t 2) eqn:E2.
  { destruct (H2 eq_refl) as (c & Hc & Hc0).
    apply preserves_bind_lift. intros c' Hc'. rewrite Hc in Hc'. injection Hc' as <-.
    rewrite Hc0. console_only. }
  destruct (is_num t 6); [unfold signaling_event; console_only|].
  destruct (is_num t 8) eqn:E8.
  { destruct (H8 eq_refl) as (st & r & Hst & Hr & Hterm).
    apply preserves_bind_lift. intros st' Hst'. rewrite Hst in Hst'. injection Hst' as <-.
    apply preserves_bind_lift. intros r' Hr'. rewrite Hr in Hr'. injection Hr' as <-.
    rewrite Hterm. console_only. }
  destruct (is_num t 9); [console_only|].
  rewrite H12. console_only.
Qed.

(** X18.  A signaling message that is neither a keep-alive request, nor
    a successful handshake response, nor the terminal stream state is
    only logged: whether the listener returns or throws, it leaves the
    store as it was, the console apart.  This covers the event
    notifications, the session state changes, the other stream state
    changes, a handshake response with a status other than 0, and every
    msg_type the program does not know: none of them closes, connects,
    sends or tears down anything. *)
Theorem X18_other_signaling_messages_only_log (s : State) (k : SockId) (msg : jsval)
    (now : Z) (sid stid : string) (conn : ConnRef) :
  signaling_socket s k sid stid conn ->
  signaling_quiet msg ->
  same_but_console s (state_of (handle (on_message k (Json msg) now) s)).
Proof.
  unfold signaling_socket. intros Hk Hq.
  unfold handle, emit_message, bind at 1, gets. rewrite Hk.
  exact (quiet_signaling_message s k sid stid conn msg now Hq s (same_but_console_refl s)).
Qed.

(** X19.  A successful signaling handshake response (msg_type 2, status
    0) whose media endpoint the library accepts makes the listener mark
    the signaling sub-record "ready", open one media socket to that
    endpoint, and only then subscribe to the signaling events.  The media
    socket is stored in the entity of the signaling socket, marked
    "connecting", and its listeners capture that entity and the signaling
    socket the response arrived on.  Nothing tests for a media socket
    already there: the one the entity held before is overwritten, not
    closed. *)
Theorem X19_handshake_success_opens_the_media_socket (s : State) (k : SockId)
    (msg : jsval) (now : Z) (sid stid : string) (c : ConnRef) :
  signaling_socket s k sid stid c ->
  handshake_success msg ->
  ToString_throws (media_endpoint msg) = false ->
  ws_url_ok (media_endpoint msg) = true ->
  let u := media_endpoint msg in
  let km := length (sockets s) in
  exists s',
    handle (on_message k (Json msg) now) s = Return tt s' /\
    calls s' = (calls s ++ [new_WebSocket (by_media sid) u;
                            send k (JSON_stringify subscribeMsg)])%list /\
    sockets s' = (sockets s ++ [mkWebSocket u CONNECTING
                                  (Some (MediaListeners u sid stid (Some k) c)) 0])%list /\
    heap s' = alter (on_media (with_state connecting)) c
                (alter (on_media (with_socket (Some km))) c
                   (alter (on_signaling (with_state ready)) c (heap s))) /\
    activeConnections s' = activeConnections s /\
    timers s' = timers s.
Proof.
  intros Hk [Hm Hs] Hts Hu u km. subst u km.
  unfold signaling_socket, media_endpoint in *.
  unfold handle, emit_message, bind at 1, gets. rewrite Hk.
  unfold signaling_on_message. mstep. rewrite Hm. mstep.
  replace (is_num (JNum 2) 2) with true by reflexivity. mstep. rewrite Hs. mstep.
  replace (is_num (JNum 0) 0) with true by reflexivity.
  unfold interpolate. rewrite Hts. mstep.
  unfold connectToMediaWebSocket, WebSocket_new. mstep. rewrite Hu. mstep.
  eexists. split; [reflexivity|]. mstep. rewrite alter_at_end, <- app_assoc.
  repeat split.
Qed.

End Frames.

(** *** The webhook endpoint *)

Section FrontDoorProperties.
Context {env : Environment}.

Lemma same_but_console_write (s0 : State) l t a :
  preserves (same_but_console s0) (console_write l t a).
Proof.
  apply preserves_modify. intros s H. unfold same_but_console in *.
  rewrite H at 2. reflexivity.
Qed.

Lemma webhook_respond_console_only (tok : option string) (body : jsval) (s0 : State) :
  preserves (same_but_console s0) (webhook_respond tok body).
Proof.
  unfold webhook_respond.
  repeat first [ pres_step | apply same_but_console_write ].
Qed.

(** X21.  Zoom's URL validation is answered as Zoom requires.  With the
    secret token configured, a request whose event is
    "endpoint.url_validation" and whose payload carries a non-empty
    plainToken text receives status 200 and a body that echoes the
    plainToken and carries, as encryptedToken, the HMAC-SHA256 of the
    plainToken keyed by the secret token, as 64 lowercase hexadecimal
    digits.  Nothing but the console is written. *)
Theorem X21_url_validation_is_answered (token p : string) (body payload : jsval)
    (s : State) :
  token <> "" ->
  p <> "" ->
  get_prop body "event" = inr (JStr "endpoint.url_validation") ->
  get_prop body "payload" = inr payload ->
  get_prop payload "plainToken" = inr (JStr p) ->
  let hash := hex (hmac_sha256 token p) in
  exists s',
    webhook_respond (Some token) body s
    = Return (res_json 200 (JObj [("plainToken", JStr p); ("encryptedToken", JStr hash)])) s' /\
    same_but_console s s' /\
    String.length hash = 64%nat /\
    all_hex hash = true.
Proof.
  intros Htok Hp He Hpl Hpt hash.
  assert (is_url_validation (JStr "endpoint.url_validation") payload = true) as Hv.
  { unfold is_url_validation, opt_prop. rewrite Hpt. simpl.
    destruct (String.eqb_spec p ""); [contradiction | reflexivity]. }
  assert (token_missing (Some token) = false) as Hm.
  { simpl. destruct (String.eqb_spec token ""); [contradiction | reflexivity]. }
  pose proof (webhook_respond_console_only (Some token) body s s) as Hc.
  revert Hc. unfold webhook_respond, bind, lift, interpolate.
  rewrite He, Hpl. cbn -[is_url_validation token_missing opt_prop hex].
  rewrite Hv, Hm. unfold opt_prop. rewrite Hpt.
  cbn -[hex]. intros Hc. eexists. split; [reflexivity|]. split; [|split].
  - apply Hc. destruct s; reflexivity.
  - subst hash. rewrite hex_length, hmac_sha256_length. reflexivity.
  - apply all_hex_hex.
Qed.


End FrontDoorProperties.

(** *** Where entities and registry entries come from *)

Lemma Map_delete_sublist k m : Map_delete k m `sublist_of` m.
Proof.
  induction m as [|[k' v'] m IH]; simpl; [constructor|].
  destruct (String.eqb k k'); [apply sublist_cons | apply sublist_skip]; exact IH.
Qed.

Section AllocationFrame.
Context {env : Environment}.
Variable n0 : nat.
Variable m0 : list (string * ConnRef).

Let I (s : State) : Prop :=
  length (heap s) = n0 /\ activeConnections s `sublist_of` m0.

Ltac aframe :=
  repeat first
    [ pres_step
    | lazymatch goal with
      | |- preserves _ (console_write _ _ _) => unfold console_write
      | |- preserves _ (record_call _) => unfold record_call
      | |- preserves _ (update _ _) => unfold update
      | |- preserves _ (ws_send _ _) => unfold ws_send
      | |- preserves _ (ws_close _) => unfold ws_close
      | |- preserves _ (ws_once_open_close _) => unfold ws_once_open_close
      | |- preserves _ (ws_on _ _) => unfold ws_on
      | |- preserves _ (mark _ _) => unfold mark
      | |- preserves _ (setTimeout _ _) => unfold setTimeout
      | |- preserves _ (deref _) => unfold deref
      | |- preserves _ (generateSignature _ _) => unfold generateSignature
      | |- preserves _ (WebSocket_new _ _) => unfold WebSocket_new
      | |- preserves _ (modify _) =>
          let s := fresh "s" in
          let H1 := fresh "H" in
          let H2 := fresh "H" in
          apply preserves_modify; intros s [H1 H2]; split; simpl;
          [ rewrite ?length_alter; exact H1
          | first [ exact H2
                  | etrans; [apply Map_delete_sublist | exact H2] ] ]
      end ].

Lemma alloc_connect_existing sid stid u c :
  preserves I (connectToSignalingWebSocket sid stid u (Some c)).
Proof.
  intros s [H1 H2].
  destruct (connect_existing_keeps_identity sid stid u c s) as [Hm Hh].
  split; [rewrite Hh; exact H1 | rewrite Hm; exact H2].
Qed.

Lemma alloc_connectToMediaWebSocket u sid stid ss c :
  preserves I (connectToMediaWebSocket u sid stid ss c).
Proof. unfold connectToMediaWebSocket. aframe. Qed.

Lemma alloc_cleanupConnection sid : preserves I (cleanupConnection sid).
Proof. unfold cleanupConnection, cleanup_channel. aframe. Qed.

Lemma alloc_handleMediaMessage data c k ss sid stid :
  preserves I (handleMediaMessage data c k ss sid stid).
Proof.
  unfold handleMediaMessage, JSON_parse, send_on, binary_payload, text_payload. aframe.
Qed.

Lemma alloc_signaling_on_message k sid stid c data now :
  preserves I (signaling_on_message k sid stid c data now).
Proof.
  unfold signaling_on_message, signaling_event. aframe.
  - apply alloc_connectToMediaWebSocket.
  - apply alloc_cleanupConnection.
Qed.

Lemma alloc_run_timer t : preserves I (run_timer t).
Proof.
  destruct t; unfold run_timer; aframe.
  - apply alloc_connect_existing.
  - apply alloc_connectToMediaWebSocket.
Qed.

Lemma alloc_handle (ev : Event) :
  (forall sid stid u, ev <> rtms_started sid stid u) ->
  preserves I (handle ev).
Proof.
  intros Hs.
  destruct ev as [sid stid u|sid| |k|k data now|k|k|i]; cbn [handle].
  - destruct (Hs sid stid u eq_refl).
  - aframe. apply alloc_cleanupConnection.
  - aframe. apply alloc_cleanupConnection.
  - unfold emit_open, signaling_on_open, media_on_open. aframe.
  - unfold emit_message. aframe.
    + apply alloc_signaling_on_message.
    + apply alloc_handleMediaMessage.
  - unfold emit_close, signaling_on_close, media_on_close. aframe.
    apply alloc_connect_existing.
  - unfold emit_error, signaling_on_error, media_on_error. aframe.
  - unfold fire. aframe. apply alloc_run_timer.
Qed.

End AllocationFrame.

Section Allocation.
Context {env : Environment}.

(** X23.  Only a start event allocates an entity or registers a session.
    Every other event (a stop, the shutdown, anything a socket emits, a
    timer running out) leaves the number of entities as it was and can
    only remove entries from the registry, never add or reorder them.
    In particular no reconnection, not even one made by a timer that
    outlived its session, puts a stopped session back in the registry. *)
Theorem X23_only_a_start_allocates (ev : Event) (s : State) :
  (forall sid stid u, ev <> rtms_started sid stid u) ->
  let s' := state_of (handle ev s) in
  length (heap s') = length (heap s) /\
  activeConnections s' `sublist_of` activeConnections s.
Proof.
  intros Hs. apply (alloc_handle (length (heap s)) (activeConnections s) ev Hs s).
  split; reflexivity.
Qed.

End Allocation.

(** *** The health check *)

Lemma Map_keys_get (sid : string) (m : list (string * ConnRef)) :
  sid ∈ Map_keys m <-> is_Some (Map_get sid m).
Proof.
  induction m as [|[k v] m IH]; simpl.
  - split; [intros H; inversion H | intros [x H]; discriminate].
  - destruct (String.eqb_spec sid k) as [->|Hne].
    + split; [intros _; eexists; reflexivity | intros _; left].
    + rewrite <- IH. split.
      * intros [H|H]%elem_of_cons; [contradiction | exact H].
      * intros H. right. exact H.
Qed.

Section Health.
Context {env : Environment}.

(** X25.  The health check counts sessions, not entities or sockets: in
    a reachable store, the number it reports as activeSessions is the
    number of distinct session identifiers that are registered.  An
    identifier started twice counts once, and a stopped session does not
    count. *)
Theorem X25_health_counts_registered_sessions (s : State) :
  reachable s ->
  exists ids : list string,
    NoDup ids /\
    (forall sid, sid ∈ ids <-> is_Some (Map_get sid (activeConnections s))) /\
    health s = res_json 200 (JObj [("status", JStr "running");
                                   ("activeSessions", JNum (Z.of_nat (length ids)))]).
Proof.
  intros Hr. destruct (registry_ok_reachable s Hr) as [Hnd _].
  exists (Map_keys (activeConnections s)). split; [exact Hnd|]. split.
  - intros sid. apply Map_keys_get.
  - unfold health, Map_keys. rewrite length_map. reflexivity.
Qed.

End Health.

(** *** The further properties on the sample runs *)

Lemma with_signaling_retry_reachable : @reachable sample with_signaling_retry.
Proof.
  apply (@run_reachable sample (streaming_events ++ [on_close 0%nat]) initial).
  - apply reachable_initial.
  - vm_compute. reflexivity.
Qed.

Lemma X1_witness : stopped 0%nat after_stale_media_timer.
Proof.
  apply (@X1_gate_stays_down sample 0%nat [on_timeout 0%nat]
           stopped_with_media_timer after_stale_media_timer).
  - reflexivity.
  - vm_compute. reflexivity.
Defined.

Lemma X2_witness :
  no_new_timer_for 0%nat (timers stopped_with_media_timer) (timers after_stale_media_timer).
Proof.
  apply (@X2_no_timer_for_a_stopped_entity sample 0%nat [on_timeout 0%nat]
           stopped_with_media_timer after_stale_media_timer).
  - reflexivity.
  - vm_compute. reflexivity.
Defined.

Lemma X4_witness :
  exists cn',
    heap after_stale_media_timer !! 0%nat = Some cn' /\
    same_identity (heap established !!! 0%nat) cn'.
Proof.
  apply (@X4_identity_is_immutable sample 0%nat (heap established !!! 0%nat)
           [on_close 1%nat; rtms_stopped "s1"; on_timeout 0%nat]
           established after_stale_media_timer).
  - reflexivity.
  - vm_compute. reflexivity.
Defined.

Lemma X5_witness :
  String.prefix "ws" (serverUrls (heap established !!! 0%nat)) = true.
Proof.
  apply (@X5_stored_endpoint_is_validated sample established 0%nat
           (heap established !!! 0%nat) established_reachable).
  reflexivity.
Defined.

Lemma X6_witness :
  exists cn, heap established !! 0%nat = Some cn /\ sessionId cn = "s1".
Proof.
  apply (@X6_registry_key_is_the_session_id sample established "s1" 0%nat
           established_reachable).
  reflexivity.
Defined.

Lemma X7_witness :
  exists s',
    @handle sample (rtms_started "s1" "st1" "https://zoom") initial = Return tt s' /\
    same_but_console initial s' /\
    last (console s')
    = Some (mkLog error_ "[Signaling] Invalid WebSocket URL:" [JStr "https://zoom"]).
Proof.
  apply (@X7_invalid_endpoint_allocates_nothing sample "s1" "st1" "https://zoom" initial).
  reflexivity.
Defined.

Lemma X8_witness :
  exists s',
    @handle sample (rtms_started "s1" "st1" "wss://zoom") initial = Return tt s' /\
    activeConnections s' = [("s1", 0%nat)] /\
    heap s' = [mkConn "s1" "st1" "wss://zoom" true
                 (mkChannel (Some 0%nat) connecting None) (mkChannel None idle None)] /\
    sockets s' = [mkWebSocket (JStr "wss://zoom") CONNECTING
                    (Some (SignalingListeners "s1" "st1" 0%nat)) 0] /\
    calls s' = [new_WebSocket (by_signaling "s1") (JStr "wss://zoom")] /\
    timers s' = [].
Proof.
  apply (@X8_start_registers_a_fresh_entity sample "s1" "st1" "wss://zoom" initial);
    reflexivity.
Defined.

Lemma X9_witness :
  exists s',
    @run sample [rtms_started "s1" "st1" "wss://zoom"; rtms_stopped "s1"; on_open 0%nat]
      initial = Some s' /\
    calls s' = [new_WebSocket (by_signaling "s1") (JStr "wss://zoom");
                once_open_close 0%nat; close 0%nat; close 0%nat] /\
    activeConnections s' = [] /\
    stopped 0%nat s' /\
    timers s' = [].
Proof.
  apply (@X9_stopped_before_open_closes_on_open sample "s1" "st1" "wss://zoom" initial);
    reflexivity.
Defined.

Lemma X10_witness :
  exists s2,
    @handle sample (rtms_stopped "s1")
      (state_of (@handle sample (rtms_stopped "s1") established)) = Return tt s2 /\
    same_but_console (state_of (@handle sample (rtms_stopped "s1") established)) s2.
Proof.
  apply (@X10_second_stop_only_logs sample "s1" established established_reachable).
Defined.

Lemma X11_witness :
  exists s',
    @handle sample SIGINT established = Return tt s' /\
    activeConnections s' = [] /\
    (forall sid c, (sid, c) ∈ activeConnections established -> stopped c s') /\
    (forall c, stopped c established -> stopped c s') /\
    timers s' = timers established.
Proof.
  apply (@X11_shutdown_empties_the_registry sample established established_reachable).
Defined.

Lemma X12_witness :
  exists s',
    @handle sample (on_open 0%nat) started_once = Return tt s' /\
    calls s' = (calls started_once
                ++ [send 0%nat
                      (JSON_stringify
                         (signaling_handshakeMsg "s1" "st1"
                            (hex (sample_digest "secret" "client,s1,st1"))))])%list /\
    heap s' = alter (on_signaling (with_state authenticated)) 0%nat (heap started_once) /\
    activeConnections s' = activeConnections started_once /\
    timers s' = timers started_once /\
    length (sockets s') = length (sockets started_once).
Proof.
  apply (@X12_open_sends_the_handshake sample started_once 0%nat
           (mkWebSocket (JStr "wss://zoom") CONNECTING
              (Some (SignalingListeners "s1" "st1" 0%nat)) 0)
           (SignalingListeners "s1" "st1" 0%nat)
           (heap started_once !!! 0%nat) "secret");
    reflexivity.
Defined.

Lemma X13_witness :
  exists m s',
    @handle sample_without_secret (on_open 0%nat) started_once = Throw (TypeError m) s' /\
    calls s' = calls started_once /\
    heap s' = heap started_once /\
    timers s' = timers started_once /\
    socket_readyState 0%nat s' = Some OPEN.
Proof.
  apply (@X13_open_without_secret_throws sample_without_secret started_once 0%nat
           (mkWebSocket (JStr "wss://zoom") CONNECTING
              (Some (SignalingListeners "s1" "st1" 0%nat)) 0)
           (SignalingListeners "s1" "st1" 0%nat)
           (heap started_once !!! 0%nat));
    reflexivity.
Defined.

Lemma X14_witness :
  exists s',
    @handle sample (on_close 0%nat) established = Return tt s' /\
    timers s' = [(3000, SignalingRetry "s1" "st1" 0%nat)] /\
    heap s' = alter (on_signaling (with_state closed)) 0%nat (heap established) /\
    calls s' = calls established /\
    activeConnections s' = activeConnections established /\
    socket_readyState 0%nat s' = Some CLOSED.
Proof.
  exact (@X14_signaling_close_schedules_a_retry sample established 0%nat "s1" "st1" 0%nat
           (heap established !!! 0%nat) eq_refl eq_refl).
Defined.

Lemma X15_witness :
  exists s',
    @handle sample (on_timeout 0%nat) with_signaling_retry = Return tt s' /\
    calls s' = (calls with_signaling_retry
                ++ [new_WebSocket (by_signaling "s1") (JStr "wss://zoom")])%list /\
    sockets s' = (sockets with_signaling_retry
                  ++ [mkWebSocket (JStr "wss://zoom") CONNECTING
                        (Some (SignalingListeners "s1" "st1" 0%nat)) 0])%list /\
    heap s' = alter (on_signaling (with_state connecting)) 0%nat
                (alter (on_signaling (with_socket (Some 2%nat))) 0%nat
                   (heap with_signaling_retry)) /\
    activeConnections s' = activeConnections with_signaling_retry /\
    timers s' = [].
Proof.
  exact (@X15_signaling_retry_reuses_the_entity sample with_signaling_retry 0%nat 3000
           "s1" "st1" 0%nat (heap with_signaling_retry !!! 0%nat)
           with_signaling_retry_reachable eq_refl eq_refl eq_refl eq_refl).
Defined.

Lemma X16_witness :
  exists s',
    @handle sample (on_message 1%nat keep_alive_frame 2000) established = Return tt s' /\
    media_frame_of 0%nat established s'.
Proof.
  apply (@X16_media_frames_are_confined sample established 1%nat keep_alive_frame 2000
           (JStr "wss://media") "s1" "st1" (Some 0%nat) 0%nat).
  reflexivity.
Defined.

Lemma X17_witness :
  exists s',
    @handle sample (on_message 1%nat (Json transcript_msg) 2000) established
    = Return tt s' /\
    same_but_console established s'.
Proof.
  apply (@X17_media_payloads_only_log sample established 1%nat transcript_msg (JNum 17)
           2000 (JStr "wss://media") "s1" "st1" (Some 0%nat) 0%nat);
    reflexivity.
Defined.

Lemma X18_witness :
  same_but_console established
    (state_of (@handle sample (on_message 0%nat (Json session_state_msg) 2000) established)).
Proof.
  apply (@X18_other_signaling_messages_only_log sample established 0%nat
           session_state_msg 2000 "s1" "st1" 0%nat).
  - reflexivity.
  - exists (JNum 9). split; [reflexivity|]. split; [reflexivity|].
    split; intros H; discriminate H.
Defined.

Lemma X19_witness :
  exists s',
    @handle sample (on_message 0%nat (Json handshake_ok_msg) 2000) established
    = Return tt s' /\
    calls s' = (calls established
                ++ [new_WebSocket (by_media "s1") (JStr "wss://media");
                    send 0%nat (JSON_stringify subscribeMsg)])%list /\
    sockets s' = (sockets established
                  ++ [mkWebSocket (JStr "wss://media") CONNECTING
                        (Some (MediaListeners (JStr "wss://media") "s1" "st1"
                                 (Some 0%nat) 0%nat)) 0])%list /\
    heap s' = alter (on_media (with_state connecting)) 0%nat
                (alter (on_media (with_socket (Some 2%nat))) 0%nat
                   (alter (on_signaling (with_state ready)) 0%nat (heap established))) /\
    activeConnections s' = activeConnections established /\
    timers s' = timers established.
Proof.
  apply (@X19_handshake_success_opens_the_media_socket sample established 0%nat
           handshake_ok_msg 2000 "s1" "st1" 0%nat).
  - reflexivity.
  - split; reflexivity.
  - reflexivity.
  - reflexivity.
Defined.

Lemma X20_witness :
  exists s',
    @handle sample (on_open 0%nat) stopped_before_open = Return tt s' /\
    calls s' = (calls stopped_before_open ++ [close 0%nat; close 0%nat])%list /\
    heap s' = heap stopped_before_open /\
    activeConnections s' = activeConnections stopped_before_open /\
    timers s' = timers stopped_before_open /\
    console s' = console stopped_before_open.
Proof.
  apply (@X20_open_with_gate_down_only_closes sample stopped_before_open 0%nat
           (mkWebSocket (JStr "wss://zoom") CONNECTING
              (Some (SignalingListeners "s1" "st1" 0%nat)) 1)
           (SignalingListeners "s1" "st1" 0%nat));
    reflexivity.
Defined.

Lemma X21_witness :
  exists s',
    @webhook_respond sample (Some "token") validation_request initial
    = Return (res_json 200
                (JObj [("plainToken", JStr "abc");
                       ("encryptedToken", JStr (hex (sample_digest "token" "abc")))])) s' /\
    same_but_console initial s' /\
    String.length (hex (sample_digest "token" "abc")) = 64%nat /\
    all_hex (hex (sample_digest "token" "abc")) = true.
Proof.
  apply (@X21_url_validation_is_answered sample "token" "abc" validation_request
           (JObj [("plainToken", JStr "abc")]) initial).
  - discriminate.
  - discriminate.
  - reflexivity.
  - reflexivity.
  - reflexivity.
Defined.


Lemma X23_witness :
  length (heap (state_of (@handle sample (on_timeout 0%nat) stopped_with_media_timer)))
  = length (heap stopped_with_media_timer) /\
  activeConnections (state_of (@handle sample (on_timeout 0%nat) stopped_with_media_timer))
  `sublist_of` activeConnections stopped_with_media_timer.
Proof.
  apply (@X23_only_a_start_allocates sample (on_timeout 0%nat) stopped_with_media_timer).
  intros sid stid u H. discriminate H.
Defined.

Lemma X24_witness :
  exists s',
    @handle sample (on_close 0%nat) stopped_with_media_timer = Return tt s' /\
    timers s' = timers stopped_with_media_timer /\
    calls s' = calls stopped_with_media_timer /\
    heap s' = alter (on_signaling (with_state closed)) 0%nat (heap stopped_with_media_timer) /\
    activeConnections s' = activeConnections stopped_with_media_timer /\
    length (sockets s') = length (sockets stopped_with_media_timer).
Proof.
  exact (@X24_close_with_gate_down_ends_there sample stopped_with_media_timer 0%nat
           (mkWebSocket (JStr "wss://zoom") CLOSING
              (Some (SignalingListeners "s1" "st1" 0%nat)) 0)
           (SignalingListeners "s1" "st1" 0%nat) eq_refl eq_refl eq_refl).
Defined.

Lemma X25_witness :
  exists ids : list string,
    NoDup ids /\
    (forall sid, sid ∈ ids <-> is_Some (Map_get sid (activeConnections started_twice))) /\
    health started_twice
    = res_json 200 (JObj [("status", JStr "running");
                          ("activeSessions", JNum (Z.of_nat (length ids)))]).
Proof.
  apply (@X25_health_counts_registered_sessions sample started_twice).
  apply (@run_reachable sample [rtms_started "s1" "st1" "wss://zoom";
                                rtms_started "s1" "st1" "wss://zoom"] initial).
  - apply reachable_initial.
  - vm_compute. reflexivity.
Defined.
